(** * The chat widget of the landing page: request cycle and voice glue

    A shallow embedding of the two [ChatInterface] components of the
    repository: the one with voice input and speech output (greeting
    "Hello! I'm Serenity, ...") and the text-only one of
    [components/landing-page.tsx] (greeting "Hello! I'm GeminiMind, ...").

    React state ([useState]) and refs ([useRef]) are fields of a record, the
    handlers are commands over it in a small state-and-exception monad, and
    the browser delivers events (input change, form submission, settled
    promises, recognition results and errors, ended utterances) one at a
    time, each handler running to completion. *)

From Stdlib Require Import String Ascii NArith Bool Arith Lia QArith List.
Import ListNotations.
Local Open Scope nat_scope.

(** ** JavaScript strings *)

Module JS.

(** A JavaScript string is a sequence of UTF-16 code units. *)
Definition JSString := list N.

(** An ASCII literal of the source as a JavaScript string. *)
Definition js (s : string) : JSString :=
  map N_of_ascii (list_ascii_of_string s).

(** WhiteSpace and LineTerminator code points of ECMAScript, the ones
    [String.prototype.trim] strips. *)
Definition isWhiteSpace (c : N) : bool :=
  (N.eqb c 9 || N.eqb c 10 || N.eqb c 11 || N.eqb c 12 || N.eqb c 13
   || N.eqb c 32 || N.eqb c 160 || N.eqb c 5760
   || (N.leb 8192 c && N.leb c 8202)
   || N.eqb c 8232 || N.eqb c 8233 || N.eqb c 8239 || N.eqb c 8287
   || N.eqb c 12288 || N.eqb c 65279)%bool.

Fixpoint trimStart (s : JSString) : JSString :=
  match s with
  | [] => []
  | c :: rest => if isWhiteSpace c then trimStart rest else s
  end.

Definition trimEnd (s : JSString) : JSString := rev (trimStart (rev s)).

Definition trim (s : JSString) : JSString := trimEnd (trimStart s).

(** ToBoolean on a string: only the empty string is falsy. *)
Definition truthy (s : JSString) : bool :=
  match s with [] => false | _ :: _ => true end.

(** [Array.prototype.join('')] on an array of strings. *)
Definition join (parts : list JSString) : JSString := concat parts.

(** A thrown JavaScript value, kept as the text it carries. *)
Definition JSError := JSString.

(** Every code unit of the string is white space (the empty string too). *)
Definition blank (s : JSString) : bool := forallb isWhiteSpace s.

End JS.
Import JS.
Arguments js s%_string.

(** ** Completions: a command returns normally or throws *)

Inductive Completion (A : Type) : Type :=
| Normal (a : A)
| Throw (e : JSError).
Arguments Normal {A} a.
Arguments Throw {A} e.

Section Effects.

Variable St : Type.

(** A command over the component state.  What a command did to the state
    before it threw stays done, as in JavaScript. *)
Definition Eff (A : Type) : Type := St -> Completion A * St.

Definition ret {A} (a : A) : Eff A := fun s => (Normal a, s).

Definition throw {A} (e : JSError) : Eff A := fun s => (Throw e, s).

Definition bind {A B} (m : Eff A) (k : A -> Eff B) : Eff B :=
  fun s =>
    match m s with
    | (Normal a, s1) => k a s1
    | (Throw e, s1) => (Throw e, s1)
    end.

(** [try { body } catch (error) { handler } finally { final }]. *)
Definition try_catch_finally (body : Eff unit) (handler : JSError -> Eff unit)
    (final : Eff unit) : Eff unit :=
  fun s =>
    let (c1, s1) :=
      match body s with
      | (Normal a, s1) => (Normal a, s1)
      | (Throw e, s1) => handler e s1
      end in
    match final s1 with
    | (Normal _, s2) => (c1, s2)
    | (Throw e, s2) => (Throw e, s2)
    end.

(** A state update that cannot throw (a [useState] setter, a ref
    assignment, a platform call modelled as total). *)
Definition update (f : St -> St) : Eff unit := fun s => (Normal tt, f s).

Definition read {A} (f : St -> A) : Eff A := fun s => (Normal (f s), s).

End Effects.

Arguments ret {St A} a.
Arguments throw {St A} e.
Arguments bind {St A B} m k.
Arguments try_catch_finally {St} body handler final.
Arguments update {St} f.
Arguments read {St A} f.

Declare Scope eff_scope.
Delimit Scope eff_scope with eff.
Notation "x <- m ;; k" := (bind m (fun x => k))
  (at level 61, m at next level, right associativity) : eff_scope.
Notation "m ;; k" := (bind m (fun _ => k))
  (at level 61, right associativity) : eff_scope.


(** ** Data shared by the two components *)

(** [role: 'user' | 'assistant'] of a transcript entry. *)
Inductive Role : Type := user | assistant.

(** One entry of [messages]: [{ role, content }]. *)
Record Message : Type := { role : Role; content : JSString }.

Definition MODEL_NAME : JSString := js "gemini-1.0-pro".

Definition FIXED_PROMPT : JSString := js "
You are a supportive and empathetic AI assistant designed to provide mental health support and help users build emotional resilience. Your responses should be caring, non-judgmental, and aimed at promoting emotional well-being. In addition to providing emotional support, you actively track and analyze the user's mood patterns, offering personalized emotional resilience plans and adaptive coping strategies. You provide preemptive recommendations based on emotional triggers and suggest progressive emotional growth challenges to help users strengthen their mental health over time.
You offer real-time coping strategies in moments of distress and provide positive reflection through automated journaling. You collaborate with the user to create mental health action plans and adapt your guidance based on what works best for them. Always remind the user that you are an AI, encourage self-care, and suggest professional help when needed.
".

(** The fixed text of the [catch] branch of [handleSubmit]. *)
Definition ERROR_TEXT : JSString :=
  js "I'm sorry, I encountered an error. Please try again.".

Inductive HarmCategory : Type :=
| HARM_CATEGORY_HARASSMENT
| HARM_CATEGORY_HATE_SPEECH
| HARM_CATEGORY_SEXUALLY_EXPLICIT
| HARM_CATEGORY_DANGEROUS_CONTENT.

Inductive HarmBlockThreshold : Type := BLOCK_MEDIUM_AND_ABOVE.

Record SafetySetting : Type :=
  { category : HarmCategory; threshold : HarmBlockThreshold }.

Record GenerationConfig : Type :=
  { temperature : Q; topK : N; topP : N; maxOutputTokens : N }.

(** An entry of the chat history handed to [startChat]:
    [{ role: "user", parts: [{ text }] }]. *)
Record Content : Type := { c_role : Role; parts : list JSString }.

(** What one [runChat] call hands to the remote endpoint: the arguments of
    [getGenerativeModel] and [startChat], and the text given to
    [sendMessage]. *)
Record Request : Type :=
  { apiKey : JSString;
    model : JSString;
    generationConfig : GenerationConfig;
    safetySettings : list SafetySetting;
    history : list Content;
    message : JSString }.

Definition the_generationConfig : GenerationConfig :=
  {| temperature := (9 # 10)%Q; topK := 1%N; topP := 1%N;
     maxOutputTokens := 2048%N |}.

Definition the_safetySettings : list SafetySetting :=
  [ {| category := HARM_CATEGORY_HARASSMENT;
       threshold := BLOCK_MEDIUM_AND_ABOVE |};
    {| category := HARM_CATEGORY_HATE_SPEECH;
       threshold := BLOCK_MEDIUM_AND_ABOVE |};
    {| category := HARM_CATEGORY_SEXUALLY_EXPLICIT;
       threshold := BLOCK_MEDIUM_AND_ABOVE |};
    {| category := HARM_CATEGORY_DANGEROUS_CONTENT;
       threshold := BLOCK_MEDIUM_AND_ABOVE |} ].

(** The request [runChat(prompt)] builds.  Nothing of the component state
    enters it but the key of the environment. *)
Definition runChat_request (key prompt : JSString) : Request :=
  {| apiKey := key;
     model := MODEL_NAME;
     generationConfig := the_generationConfig;
     safetySettings := the_safetySettings;
     history := [ {| c_role := user; parts := [FIXED_PROMPT] |} ];
     message := prompt |}.

(** The turns the endpoint sees in a request, in order: the history, then
    the text of [sendMessage], which the SDK sends with role "user". *)
Definition request_turns (r : Request) : list Message :=
  flat_map (fun c => map (fun t => {| role := c_role c; content := t |}) (parts c))
           (history r)
  ++ [ {| role := user; content := message r |} ].

(** How the promise awaited in [handleSubmit] settles: [runChat] returns the
    text of the response, or the call (or [response.text()]) throws. *)
Inductive Settled : Type :=
| Fulfilled (response : JSString)
| Rejected (error : JSError).

(** A [console.error(label, value)] call. *)
Record LogEntry : Type := { label : JSString; logged : JSError }.

(** ** The component with voice input and speech output *)

Module Chat.

Definition GREETING : JSString :=
  js "Hello! I'm Serenity, your AI companion. How can I support you today?".

(** *** Platform objects *)

(** [utterance.onend = () => setIsSpeaking(false)]: the only handler the
    component ever attaches to an utterance. *)
Inductive EndHandler : Type := ClearIsSpeaking.

Record SpeechSynthesisUtterance : Type :=
  { u_text : JSString; onend : option EndHandler }.

(** [window.speechSynthesis], as the Web Speech API defines it: [speak]
    adds the utterance to the end of the utterance queue, [cancel] removes
    every utterance from the queue, and the utterance at the head of the
    queue is the one being spoken. *)
Definition SpeechSynthesis := list SpeechSynthesisUtterance.

Definition synth_speak (u : SpeechSynthesisUtterance) (q : SpeechSynthesis)
  : SpeechSynthesis := q ++ [u].

Definition synth_cancel (q : SpeechSynthesis) : SpeechSynthesis := [].

(** One alternative of a recognition result, and a result: a list of
    alternatives that is never empty, [result[0]] being the best one. *)
Record SpeechRecognitionAlternative : Type := { transcript : JSString }.

Record SpeechRecognitionResult : Type :=
  { item0 : SpeechRecognitionAlternative;
    items : list SpeechRecognitionAlternative;
    isFinal : bool }.

(** The handlers [startListening] attaches to the recognition object. *)
Inductive ResultHandler : Type := SetInputToTranscript.
Inductive ErrorHandler : Type := LogAndStopListening.

Record SpeechRecognition : Type :=
  { continuous : bool;
    interimResults : bool;
    onresult : option ResultHandler;
    onerror : option ErrorHandler;
    started : bool }.

(** [new SpeechRecognition()]. *)
Definition new_SpeechRecognition : SpeechRecognition :=
  {| continuous := false; interimResults := false; onresult := None;
     onerror := None; started := false |}.

(** The two [useAnimation] controls, by what they were last told. *)
Inductive MicAnimation : Type := MicStill | MicPulsing.
Inductive Waveform : Type := WaveHidden | WaveShown.

(** What the component reads from its environment. *)
Record Window : Type :=
  { API_KEY : JSString;
    (** [window.SpeechRecognition || window.webkitSpeechRecognition] is
        defined *)
    hasSpeechRecognition : bool;
    (** [window.speechSynthesis] is defined *)
    hasSpeechSynthesis : bool }.

(** *** Component state

    The five [useState] cells, the two refs that matter, the animation
    controls, and what the component did to the outside: console output,
    requests handed to the endpoint in order, the number of them not yet
    settled, and exceptions no handler caught. *)
Record State : Type :=
  { messages : list Message;
    input : JSString;
    isTyping : bool;
    isListening : bool;
    isSpeaking : bool;
    recognitionRef : option SpeechRecognition;
    synthRef : option SpeechSynthesis;
    micControls : MicAnimation;
    waveformControls : Waveform;
    console : list LogEntry;
    network : list Request;
    inflight : nat;
    uncaught : list JSError;
    window : Window }.

Definition with_messages (f : list Message -> list Message) (s : State) : State :=
  {| messages := f (messages s);
     input := input s;
     isTyping := isTyping s;
     isListening := isListening s;
     isSpeaking := isSpeaking s;
     recognitionRef := recognitionRef s;
     synthRef := synthRef s;
     micControls := micControls s;
     waveformControls := waveformControls s;
     console := console s;
     network := network s;
     inflight := inflight s;
     uncaught := uncaught s;
     window := window s |}.

Definition with_input (f : JSString -> JSString) (s : State) : State :=
  {| messages := messages s;
     input := f (input s);
     isTyping := isTyping s;
     isListening := isListening s;
     isSpeaking := isSpeaking s;
     recognitionRef := recognitionRef s;
     synthRef := synthRef s;
     micControls := micControls s;
     waveformControls := waveformControls s;
     console := console s;
     network := network s;
     inflight := inflight s;
     uncaught := uncaught s;
     window := window s |}.

Definition with_isTyping (f : bool -> bool) (s : State) : State :=
  {| messages := messages s;
     input := input s;
     isTyping := f (isTyping s);
     isListening := isListening s;
     isSpeaking := isSpeaking s;
     recognitionRef := recognitionRef s;
     synthRef := synthRef s;
     micControls := micControls s;
     waveformControls := waveformControls s;
     console := console s;
     network := network s;
     inflight := inflight s;
     uncaught := uncaught s;
     window := window s |}.

Definition with_isListening (f : bool -> bool) (s : State) : State :=
  {| messages := messages s;
     input := input s;
     isTyping := isTyping s;
     isListening := f (isListening s);
     isSpeaking := isSpeaking s;
     recognitionRef := recognitionRef s;
     synthRef := synthRef s;
     micControls := micControls s;
     waveformControls := waveformControls s;
     console := console s;
     network := network s;
     inflight := inflight s;
     uncaught := uncaught s;
     window := window s |}.

Definition with_isSpeaking (f : bool -> bool) (s : State) : State :=
  {| messages := messages s;
     input := input s;
     isTyping := isTyping s;
     isListening := isListening s;
     isSpeaking := f (isSpeaking s);
     recognitionRef := recognitionRef s;
     synthRef := synthRef s;
     micControls := micControls s;
     waveformControls := waveformControls s;
     console := console s;
     network := network s;
     inflight := inflight s;
     uncaught := uncaught s;
     window := window s |}.

Definition with_recognitionRef (f : option SpeechRecognition -> option SpeechRecognition) (s : State) : State :=
  {| messages := messages s;
     input := input s;
     isTyping := isTyping s;
     isListening := isListening s;
     isSpeaking := isSpeaking s;
     recognitionRef := f (recognitionRef s);
     synthRef := synthRef s;
     micControls := micControls s;
     waveformControls := waveformControls s;
     console := console s;
     network := network s;
     inflight := inflight s;
     uncaught := uncaught s;
     window := window s |}.

Definition with_synthRef (f : option SpeechSynthesis -> option SpeechSynthesis) (s : State) : State :=
  {| messages := messages s;
     input := input s;
     isTyping := isTyping s;
     isListening := isListening s;
     isSpeaking := isSpeaking s;
     recognitionRef := recognitionRef s;
     synthRef := f (synthRef s);
     micControls := micControls s;
     waveformControls := waveformControls s;
     console := console s;
     network := network s;
     inflight := inflight s;
     uncaught := uncaught s;
     window := window s |}.

Definition with_micControls (f : MicAnimation -> MicAnimation) (s : State) : State :=
  {| messages := messages s;
     input := input s;
     isTyping := isTyping s;
     isListening := isListening s;
     isSpeaking := isSpeaking s;
     recognitionRef := recognitionRef s;
     synthRef := synthRef s;
     micControls := f (micControls s);
     waveformControls := waveformControls s;
     console := console s;
     network := network s;
     inflight := inflight s;
     uncaught := uncaught s;
     window := window s |}.

Definition with_waveformControls (f : Waveform -> Waveform) (s : State) : State :=
  {| messages := messages s;
     input := input s;
     isTyping := isTyping s;
     isListening := isListening s;
     isSpeaking := isSpeaking s;
     recognitionRef := recognitionRef s;
     synthRef := synthRef s;
     micControls := micControls s;
     waveformControls := f (waveformControls s);
     console := console s;
     network := network s;
     inflight := inflight s;
     uncaught := uncaught s;
     window := window s |}.

Definition with_console (f : list LogEntry -> list LogEntry) (s : State) : State :=
  {| messages := messages s;
     input := input s;
     isTyping := isTyping s;
     isListening := isListening s;
     isSpeaking := isSpeaking s;
     recognitionRef := recognitionRef s;
     synthRef := synthRef s;
     micControls := micControls s;
     waveformControls := waveformControls s;
     console := f (console s);
     network := network s;
     inflight := inflight s;
     uncaught := uncaught s;
     window := window s |}.

Definition with_network (f : list Request -> list Request) (s : State) : State :=
  {| messages := messages s;
     input := input s;
     isTyping := isTyping s;
     isListening := isListening s;
     isSpeaking := isSpeaking s;
     recognitionRef := recognitionRef s;
     synthRef := synthRef s;
     micControls := micControls s;
     waveformControls := waveformControls s;
     console := console s;
     network := f (network s);
     inflight := inflight s;
     uncaught := uncaught s;
     window := window s |}.

Definition with_inflight (f : nat -> nat) (s : State) : State :=
  {| messages := messages s;
     input := input s;
     isTyping := isTyping s;
     isListening := isListening s;
     isSpeaking := isSpeaking s;
     recognitionRef := recognitionRef s;
     synthRef := synthRef s;
     micControls := micControls s;
     waveformControls := waveformControls s;
     console := console s;
     network := network s;
     inflight := f (inflight s);
     uncaught := uncaught s;
     window := window s |}.

Definition with_uncaught (f : list JSError -> list JSError) (s : State) : State :=
  {| messages := messages s;
     input := input s;
     isTyping := isTyping s;
     isListening := isListening s;
     isSpeaking := isSpeaking s;
     recognitionRef := recognitionRef s;
     synthRef := synthRef s;
     micControls := micControls s;
     waveformControls := waveformControls s;
     console := console s;
     network := network s;
     inflight := inflight s;
     uncaught := f (uncaught s);
     window := window s |}.


Local Open Scope eff_scope.

(** *** Setters, refs and platform calls *)

Definition setMessages (f : list Message -> list Message) : Eff State unit :=
  update (with_messages f).
Definition setInput (v : JSString) : Eff State unit :=
  update (with_input (fun _ => v)).
Definition setIsTyping (b : bool) : Eff State unit :=
  update (with_isTyping (fun _ => b)).
Definition setIsListening (b : bool) : Eff State unit :=
  update (with_isListening (fun _ => b)).
Definition setIsSpeaking (b : bool) : Eff State unit :=
  update (with_isSpeaking (fun _ => b)).

Definition console_error (l : JSString) (v : JSError) : Eff State unit :=
  update (with_console (fun c => c ++ [ {| label := l; logged := v |} ])).

(** An assignment to, or a method call on, [recognitionRef.current] when
    it holds an object. *)
Definition on_recognition (f : SpeechRecognition -> SpeechRecognition)
  : Eff State unit :=
  update (with_recognitionRef (option_map f)).

Definition recognition_start (r : SpeechRecognition) : SpeechRecognition :=
  {| continuous := continuous r; interimResults := interimResults r;
     onresult := onresult r; onerror := onerror r; started := true |}.

Definition recognition_stop (r : SpeechRecognition) : SpeechRecognition :=
  {| continuous := continuous r; interimResults := interimResults r;
     onresult := onresult r; onerror := onerror r; started := false |}.

(** A method call on [synthRef.current] when it holds the platform
    object. *)
Definition on_synth (f : SpeechSynthesis -> SpeechSynthesis) : Eff State unit :=
  update (with_synthRef (option_map f)).

(** [chat.sendMessage(prompt)]: the request leaves, and its promise is
    pending until a [Settle] event. *)
Definition sendMessage (r : Request) : Eff State unit :=
  update (fun s => with_inflight S (with_network (fun n => n ++ [r]) s)).

(** *** [runChat], up to its [await] *)

Definition runChat_send (prompt : JSString) : Eff State unit :=
  w <- read window ;;
  sendMessage (runChat_request (API_KEY w) prompt).

(** The value of [await runChat(input)] once the promise has settled. *)
Definition settle (o : Settled) : Eff State JSString :=
  match o with
  | Fulfilled response => ret response
  | Rejected error => throw error
  end.

(** *** Speech output *)

Definition speakResponse (text : JSString) : Eff State unit :=
  synth <- read synthRef ;;
  match synth with
  | Some _ =>
      setIsSpeaking true ;;
      let utterance := {| u_text := text; onend := Some ClearIsSpeaking |} in
      on_synth (synth_speak utterance)
  | None => ret tt
  end.

Definition stopSpeaking : Eff State unit :=
  synth <- read synthRef ;;
  match synth with
  | Some _ => on_synth synth_cancel ;; setIsSpeaking false
  | None => ret tt
  end.

Definition run_onend (h : EndHandler) : Eff State unit :=
  match h with
  | ClearIsSpeaking => setIsSpeaking false
  end.

(** *** Voice input *)

Definition stopListening : Eff State unit :=
  setIsListening false ;;
  update (with_micControls (fun _ => MicStill)) ;;
  update (with_waveformControls (fun _ => WaveHidden)) ;;
  on_recognition recognition_stop.

(** [recognitionRef.current.onresult]. *)
Definition onresult_handler (results : list SpeechRecognitionResult)
  : Eff State unit :=
  let transcript := join (map (fun result => transcript (item0 result)) results) in
  setInput transcript.

(** [recognitionRef.current.onerror]. *)
Definition onerror_handler (error : JSError) : Eff State unit :=
  console_error (js "Speech recognition error") error ;;
  stopListening.

Definition startListening : Eff State unit :=
  setIsListening true ;;
  update (with_micControls (fun _ => MicPulsing)) ;;
  update (with_waveformControls (fun _ => WaveShown)) ;;
  w <- read window ;;
  (if hasSpeechRecognition w
   then update (with_recognitionRef (fun _ => Some new_SpeechRecognition))
   else throw (js "TypeError: SpeechRecognition is not a constructor")) ;;
  on_recognition (fun r =>
    {| continuous := true; interimResults := interimResults r;
       onresult := onresult r; onerror := onerror r; started := started r |}) ;;
  on_recognition (fun r =>
    {| continuous := continuous r; interimResults := true;
       onresult := onresult r; onerror := onerror r; started := started r |}) ;;
  on_recognition (fun r =>
    {| continuous := continuous r; interimResults := interimResults r;
       onresult := Some SetInputToTranscript; onerror := onerror r;
       started := started r |}) ;;
  on_recognition (fun r =>
    {| continuous := continuous r; interimResults := interimResults r;
       onresult := onresult r; onerror := Some LogAndStopListening;
       started := started r |}) ;;
  on_recognition recognition_start.

Definition toggleVoiceInput : Eff State unit :=
  listening <- read isListening ;;
  if negb listening then startListening else stopListening.

(** *** [handleSubmit]

    An [async] function runs to its [await] within the submit event and
    resumes, in a later turn of the event loop, when the awaited promise
    has settled. *)

(** From the call to the [await]; answers whether the function suspended
    there (it returned early otherwise).  The [try] block is entered just
    before [runChat] is called. *)
Definition handleSubmit_start : Eff State bool :=
  input0 <- read input ;;
  if negb (truthy (trim input0)) then ret false
  else
    let userMessage := {| role := user; content := input0 |} in
    setMessages (fun prev => prev ++ [userMessage]) ;;
    setInput [] ;;
    setIsTyping true ;;
    runChat_send input0 ;;
    ret true.

(** From the [await] on: the rest of the [try] block, the [catch] and the
    [finally]. *)
Definition handleSubmit_resume (o : Settled) : Eff State unit :=
  try_catch_finally
    (response <- settle o ;;
     let assistantMessage := {| role := assistant; content := response |} in
     setMessages (fun prev => prev ++ [assistantMessage]) ;;
     speakResponse response)
    (fun error =>
       console_error (js "Error:") error ;;
       let errorMessage := {| role := assistant; content := ERROR_TEXT |} in
       setMessages (fun prev => prev ++ [errorMessage]))
    (setIsTyping false).

(** The promise [chat.sendMessage] returned settles: it is no longer
    pending. *)
Definition settled_one : Eff State unit := update (with_inflight Nat.pred).

(** One whole call, the awaited promise settling as [o] with nothing in
    between. *)
Definition handleSubmit (o : Settled) : Eff State unit :=
  suspended <- handleSubmit_start ;;
  if suspended : bool then settled_one ;; handleSubmit_resume o else ret tt.

(** *** The speaker button

    [onClick={isSpeaking ? stopSpeaking
              : () => speakResponse(messages[messages.length - 1].content)}] *)
Definition speakerClick : Eff State unit :=
  speaking <- read isSpeaking ;;
  if speaking : bool then stopSpeaking
  else
    msgs <- read messages ;;
    match nth_error msgs (length msgs - 1) with
    | Some m => speakResponse (content m)
    | None => throw (js "TypeError: Cannot read properties of undefined")
    end.

(** *** Events *)

Inductive Event : Type :=
| Change (value : JSString)        (* the text field's onChange *)
| Submit                           (* the form's onSubmit *)
| Settle (o : Settled)             (* a pending request settles *)
| MicClick                         (* the microphone button *)
| SpeakerClick                     (* the speaker button *)
| RecognitionResult (results : list SpeechRecognitionResult)
| RecognitionError (error : JSError)
| UtteranceEnd.                    (* the utterance being spoken ends *)

(** Runs a handler to completion; an exception it lets escape is
    reported and the state it left stays. *)
Definition exec {A} (m : Eff State A) (s : State) : State :=
  match m s with
  | (Normal _, s1) => s1
  | (Throw e, s1) => with_uncaught (fun u => u ++ [e]) s1
  end.

(** The utterance at the head of the queue has been spoken. *)
Definition utterance_end (s : State) : option State :=
  match synthRef s with
  | Some (u :: q) =>
      let s1 := with_synthRef (fun _ => Some q) s in
      Some (match onend u with
            | Some h => exec (run_onend h) s1
            | None => s1
            end)
  | _ => None
  end.

(** What the component does with an event, [None] when the page cannot
    deliver it in that state: the submit button is [disabled={isTyping}],
    a promise settles only while one is pending, the recognition object
    fires only once started and to the handler attached, an utterance
    ends only if one is queued. *)
Definition dispatch (e : Event) (s : State) : option State :=
  match e with
  | Change value => Some (exec (setInput value) s)
  | Submit => if isTyping s then None else Some (exec handleSubmit_start s)
  | Settle o =>
      match inflight s with
      | O => None
      | S _ => Some (exec (settled_one ;; handleSubmit_resume o) s)
      end
  | MicClick => Some (exec toggleVoiceInput s)
  | SpeakerClick => Some (exec speakerClick s)
  | RecognitionResult results =>
      match recognitionRef s with
      | Some r =>
          match started r, onresult r with
          | true, Some SetInputToTranscript => Some (exec (onresult_handler results) s)
          | _, _ => None
          end
      | None => None
      end
  | RecognitionError error =>
      match recognitionRef s with
      | Some r =>
          match started r, onerror r with
          | true, Some LogAndStopListening => Some (exec (onerror_handler error) s)
          | _, _ => None
          end
      | None => None
      end
  | UtteranceEnd => utterance_end s
  end.

Fixpoint run (events : list Event) (s : State) : option State :=
  match events with
  | [] => Some s
  | e :: rest =>
      match dispatch e s with
      | Some s1 => run rest s1
      | None => None
      end
  end.

(** The component once mounted: the initial [useState] values, and
    [synthRef.current = window.speechSynthesis] from the mount effect. *)
Definition init (w : Window) : State :=
  {| messages := [ {| role := assistant; content := GREETING |} ];
     input := [];
     isTyping := false;
     isListening := false;
     isSpeaking := false;
     recognitionRef := None;
     synthRef := if hasSpeechSynthesis w then Some [] else None;
     micControls := MicStill;
     waveformControls := WaveHidden;
     console := [];
     network := [];
     inflight := 0;
     uncaught := [];
     window := w |}.

(** The states a session can be in. *)
Definition reachable (s : State) : Prop :=
  exists w events, run events (init w) = Some s.

(** A browser with both speech interfaces. *)
Definition browser : Window :=
  {| API_KEY := js "key"; hasSpeechRecognition := true;
     hasSpeechSynthesis := true |}.

End Chat.

(** ** The text-only component of [components/landing-page.tsx] *)

Module Landing.

Definition GREETING : JSString :=
  js "Hello! I'm GeminiMind, your AI companion. How can I support you today?".

(** The three [useState] cells, the key read from the environment, and
    what the component did to the outside. *)
Record State : Type :=
  { messages : list Message;
    input : JSString;
    isTyping : bool;
    console : list LogEntry;
    network : list Request;
    inflight : nat;
    uncaught : list JSError;
    API_KEY : JSString }.

Definition with_messages (f : list Message -> list Message) (s : State) : State :=
  {| messages := f (messages s);
     input := input s;
     isTyping := isTyping s;
     console := console s;
     network := network s;
     inflight := inflight s;
     uncaught := uncaught s;
     API_KEY := API_KEY s |}.

Definition with_input (f : JSString -> JSString) (s : State) : State :=
  {| messages := messages s;
     input := f (input s);
     isTyping := isTyping s;
     console := console s;
     network := network s;
     inflight := inflight s;
     uncaught := uncaught s;
     API_KEY := API_KEY s |}.

Definition with_isTyping (f : bool -> bool) (s : State) : State :=
  {| messages := messages s;
     input := input s;
     isTyping := f (isTyping s);
     console := console s;
     network := network s;
     inflight := inflight s;
     uncaught := uncaught s;
     API_KEY := API_KEY s |}.

Definition with_console (f : list LogEntry -> list LogEntry) (s : State) : State :=
  {| messages := messages s;
     input := input s;
     isTyping := isTyping s;
     console := f (console s);
     network := network s;
     inflight := inflight s;
     uncaught := uncaught s;
     API_KEY := API_KEY s |}.

Definition with_network (f : list Request -> list Request) (s : State) : State :=
  {| messages := messages s;
     input := input s;
     isTyping := isTyping s;
     console := console s;
     network := f (network s);
     inflight := inflight s;
     uncaught := uncaught s;
     API_KEY := API_KEY s |}.

Definition with_inflight (f : nat -> nat) (s : State) : State :=
  {| messages := messages s;
     input := input s;
     isTyping := isTyping s;
     console := console s;
     network := network s;
     inflight := f (inflight s);
     uncaught := uncaught s;
     API_KEY := API_KEY s |}.

Definition with_uncaught (f : list JSError -> list JSError) (s : State) : State :=
  {| messages := messages s;
     input := input s;
     isTyping := isTyping s;
     console := console s;
     network := network s;
     inflight := inflight s;
     uncaught := f (uncaught s);
     API_KEY := API_KEY s |}.

Local Open Scope eff_scope.

Definition setMessages (f : list Message -> list Message) : Eff State unit :=
  update (with_messages f).
Definition setInput (v : JSString) : Eff State unit :=
  update (with_input (fun _ => v)).
Definition setIsTyping (b : bool) : Eff State unit :=
  update (with_isTyping (fun _ => b)).

Definition console_error (l : JSString) (v : JSError) : Eff State unit :=
  update (with_console (fun c => c ++ [ {| label := l; logged := v |} ])).

Definition sendMessage (r : Request) : Eff State unit :=
  update (fun s => with_inflight S (with_network (fun n => n ++ [r]) s)).

Definition runChat_send (prompt : JSString) : Eff State unit :=
  key <- read API_KEY ;;
  sendMessage (runChat_request key prompt).

Definition settle (o : Settled) : Eff State JSString :=
  match o with
  | Fulfilled response => ret response
  | Rejected error => throw error
  end.

Definition handleSubmit_start : Eff State bool :=
  input0 <- read input ;;
  if negb (truthy (trim input0)) then ret false
  else
    let userMessage := {| role := user; content := input0 |} in
    setMessages (fun prev => prev ++ [userMessage]) ;;
    setInput [] ;;
    setIsTyping true ;;
    runChat_send input0 ;;
    ret true.

Definition handleSubmit_resume (o : Settled) : Eff State unit :=
  try_catch_finally
    (response <- settle o ;;
     let assistantMessage := {| role := assistant; content := response |} in
     setMessages (fun prev => prev ++ [assistantMessage]))
    (fun error =>
       console_error (js "Error:") error ;;
       let errorMessage := {| role := assistant; content := ERROR_TEXT |} in
       setMessages (fun prev => prev ++ [errorMessage]))
    (setIsTyping false).

Definition settled_one : Eff State unit := update (with_inflight Nat.pred).

Definition handleSubmit (o : Settled) : Eff State unit :=
  suspended <- handleSubmit_start ;;
  if suspended : bool then settled_one ;; handleSubmit_resume o else ret tt.

Inductive Event : Type :=
| Change (value : JSString)
| Submit
| Settle (o : Settled).

Definition exec {A} (m : Eff State A) (s : State) : State :=
  match m s with
  | (Normal _, s1) => s1
  | (Throw e, s1) => with_uncaught (fun u => u ++ [e]) s1
  end.

Definition dispatch (e : Event) (s : State) : option State :=
  match e with
  | Change value => Some (exec (setInput value) s)
  | Submit => if isTyping s then None else Some (exec handleSubmit_start s)
  | Settle o =>
      match inflight s with
      | O => None
      | S _ => Some (exec (settled_one ;; handleSubmit_resume o) s)
      end
  end.

Fixpoint run (events : list Event) (s : State) : option State :=
  match events with
  | [] => Some s
  | e :: rest =>
      match dispatch e s with
      | Some s1 => run rest s1
      | None => None
      end
  end.

Definition init (key : JSString) : State :=
  {| messages := [ {| role := assistant; content := GREETING |} ];
     input := [];
     isTyping := false;
     console := [];
     network := [];
     inflight := 0;
     uncaught := [];
     API_KEY := key |}.

Definition reachable (s : State) : Prop :=
  exists key events, run events (init key) = Some s.

End Landing.

(** ** The page around the chat: theme and menu

    [LandingPage] is the same in both files as far as its state goes: the
    mobile menu flag, the theme name, and the class list of the document
    element, which [toggleTheme] flips beside the state. *)

Module Page.

(** [a === b] on strings. *)
Fixpoint strict_eq (a b : JSString) : bool :=
  match a, b with
  | [], [] => true
  | x :: a', y :: b' => N.eqb x y && strict_eq a' b'
  | _, _ => false
  end.

(** [DOMTokenList.contains]. *)
Definition contains (token : JSString) (tokens : list JSString) : bool :=
  existsb (strict_eq token) tokens.

(** [DOMTokenList.toggle(token)]: removes the token when it is there, adds
    it at the end when it is not. *)
Definition classList_toggle (token : JSString) (tokens : list JSString)
  : list JSString :=
  if contains token tokens
  then filter (fun t => negb (strict_eq t token)) tokens
  else tokens ++ [token].

Record State : Type :=
  { isMenuOpen : bool;
    theme : JSString;
    (** [document.documentElement.classList] *)
    classList : list JSString }.

(** [setTheme(prevTheme => prevTheme === 'light' ? 'dark' : 'light')], then
    [document.documentElement.classList.toggle('dark')]. *)
Definition toggleTheme (s : State) : State :=
  {| isMenuOpen := isMenuOpen s;
     theme := if strict_eq (theme s) (js "light") then js "dark" else js "light";
     classList := classList_toggle (js "dark") (classList s) |}.

(** [onClick={() => setIsMenuOpen(!isMenuOpen)}]. *)
Definition menuClick (s : State) : State :=
  {| isMenuOpen := negb (isMenuOpen s);
     theme := theme s;
     classList := classList s |}.

(** The class the root [div] adds: [theme === 'dark' ? 'dark' : '']. *)
Definition root_class (s : State) : JSString :=
  if strict_eq (theme s) (js "dark") then js "dark" else [].

Inductive Event : Type := ThemeClick | MenuClick.

Definition dispatch (e : Event) (s : State) : State :=
  match e with
  | ThemeClick => toggleTheme s
  | MenuClick => menuClick s
  end.

Definition run (events : list Event) (s : State) : State :=
  fold_left (fun s e => dispatch e s) events s.

(** The page when created, in a document whose root element has the
    classes [tokens]. *)
Definition init (tokens : list JSString) : State :=
  {| isMenuOpen := false; theme := js "light"; classList := tokens |}.

Definition is_theme_click (e : Event) : bool :=
  match e with ThemeClick => true | MenuClick => false end.

Definition is_menu_click (e : Event) : bool :=
  match e with MenuClick => true | ThemeClick => false end.

End Page.

(** ** The two chat components side by side *)

(** The events of the text-only component, as events of the other one. *)
Definition text_event (e : Landing.Event) : Chat.Event :=
  match e with
  | Landing.Change value => Chat.Change value
  | Landing.Submit => Chat.Submit
  | Landing.Settle o => Chat.Settle o
  end.

(** The two components hold the same conversation: the same entries after
    the first one (the greeting), the same input, flag, log, requests and
    pending count. *)
Definition same_conversation (c : Chat.State) (l : Landing.State) : Prop :=
  Chat.messages c <> [] /\ Landing.messages l <> []
  /\ tl (Chat.messages c) = tl (Landing.messages l)
  /\ Chat.input c = Landing.input l
  /\ Chat.isTyping c = Landing.isTyping l
  /\ Chat.console c = Landing.console l
  /\ Chat.network c = Landing.network l
  /\ Chat.inflight c = Landing.inflight l
  /\ Chat.API_KEY (Chat.window c) = Landing.API_KEY l.

(** The entries of a transcript that the user wrote. *)
Definition user_entries (msgs : list Message) : list Message :=
  filter (fun m => match role m with user => true | assistant => false end) msgs.

(** ** What the platform may do besides

    The Web Speech API also lets things happen for which the component has
    no handler, or which reach a handler when the component no longer
    expects them: a recognition object still returns a result after
    [stop()], and an object replaced in [recognitionRef] keeps its
    handlers; recognition may end by itself, and the component attaches no
    [onend] to it; an utterance may end with an error, and then its [end]
    event never fires, while [speakResponse] attaches [onend] only. *)

Module Platform.

Inductive Event : Type :=
| Ui (e : Chat.Event)                 (* an event as the component expects it *)
| LateResult (results : list Chat.SpeechRecognitionResult)
| LateError (error : JSError)
| RecognitionEnd                      (* recognition ends by itself *)
| UtteranceError.                     (* the utterance being spoken fails *)

Definition deliver (pe : Event) (s : Chat.State) : option Chat.State :=
  match pe with
  | Ui e => Chat.dispatch e s
  | LateResult results =>
      match Chat.recognitionRef s with
      | Some r =>
          match Chat.onresult r with
          | Some Chat.SetInputToTranscript =>
              Some (Chat.exec (Chat.onresult_handler results) s)
          | None => None
          end
      | None => None
      end
  | LateError error =>
      match Chat.recognitionRef s with
      | Some r =>
          match Chat.onerror r with
          | Some Chat.LogAndStopListening =>
              Some (Chat.exec (Chat.onerror_handler error) s)
          | None => None
          end
      | None => None
      end
  | RecognitionEnd =>
      match Chat.recognitionRef s with
      | Some r =>
          if Chat.started r
          then Some (Chat.with_recognitionRef (option_map Chat.recognition_stop) s)
          else None
      | None => None
      end
  | UtteranceError =>
      match Chat.synthRef s with
      | Some (u :: q) => Some (Chat.with_synthRef (fun _ => Some q) s)
      | _ => None
      end
  end.

Fixpoint run (events : list Event) (s : Chat.State) : option Chat.State :=
  match events with
  | [] => Some s
  | pe :: rest =>
      match deliver pe s with
      | Some s1 => run rest s1
      | None => None
      end
  end.

(** The states a session can be in on such a platform. *)
Definition reachable (s : Chat.State) : Prop :=
  exists w events, run events (Chat.init w) = Some s.

End Platform.

(** * Properties *)

(** ** [trim] *)

Lemma trimStart_nil_iff (s : JSString) : trimStart s = [] <-> blank s = true.
Proof.
  unfold blank. induction s as [|c rest IH]; cbn.
  - split; reflexivity.
  - destruct (isWhiteSpace c); cbn.
    + exact IH.
    + split; discriminate.
Qed.

Lemma blank_rev (s : JSString) : blank (rev s) = blank s.
Proof.
  unfold blank. induction s as [|c rest IH]; cbn.
  - reflexivity.
  - rewrite forallb_app, IH. cbn. rewrite andb_true_r. apply andb_comm.
Qed.

Lemma trimEnd_nil_iff (s : JSString) : trimEnd s = [] <-> blank s = true.
Proof.
  unfold trimEnd. rewrite <- blank_rev, <- trimStart_nil_iff.
  split; intro H.
  - apply (f_equal (@rev N)) in H. rewrite rev_involutive in H. exact H.
  - rewrite H. reflexivity.
Qed.

Lemma blank_trimStart (s : JSString) : blank (trimStart s) = blank s.
Proof.
  unfold blank. induction s as [|c rest IH]; cbn.
  - reflexivity.
  - destruct (isWhiteSpace c) eqn:E; cbn.
    + exact IH.
    + rewrite E. reflexivity.
Qed.

(** [!input.trim()] holds exactly of the strings made of white space only. *)
Lemma trim_nil_iff (s : JSString) : trim s = [] <-> blank s = true.
Proof. unfold trim. rewrite trimEnd_nil_iff, blank_trimStart. tauto. Qed.

Lemma truthy_trim (s : JSString) : truthy (trim s) = negb (blank s).
Proof.
  destruct (blank s) eqn:B.
  - apply trim_nil_iff in B. rewrite B. reflexivity.
  - destruct (trim s) eqn:T; [|reflexivity].
    apply trim_nil_iff in T. congruence.
Qed.

(** ** The request *)

Lemma request_turns_runChat (key prompt : JSString) :
  request_turns (runChat_request key prompt)
  = [ {| role := user; content := FIXED_PROMPT |};
      {| role := user; content := prompt |} ].
Proof. reflexivity. Qed.

(** ** [handleSubmit], as equations *)

Ltac eff_unfold :=
  unfold bind, ret, throw, read, update, try_catch_finally.

Lemma Chat_start_blank (s : Chat.State) :
  blank (Chat.input s) = true ->
  Chat.handleSubmit_start s = (Normal false, s).
Proof.
  intro B. unfold Chat.handleSubmit_start. eff_unfold.
  rewrite truthy_trim, B. reflexivity.
Qed.

Lemma Chat_start_accept (s : Chat.State) :
  blank (Chat.input s) = false ->
  Chat.handleSubmit_start s
  = (Normal true,
     Chat.with_inflight S
       (Chat.with_network
          (fun n => n ++ [runChat_request (Chat.API_KEY (Chat.window s)) (Chat.input s)])
          (Chat.with_isTyping (fun _ => true)
             (Chat.with_input (fun _ => [])
                (Chat.with_messages
                   (fun prev => prev ++ [ {| role := user; content := Chat.input s |} ])
                   s))))).
Proof.
  intro B. unfold Chat.handleSubmit_start. eff_unfold.
  rewrite truthy_trim, B. reflexivity.
Qed.

(** [speakResponse] never throws, and touches only the speaking flag and
    the utterance queue. *)
Lemma Chat_speakResponse_eq (text : JSString) (s : Chat.State) :
  Chat.speakResponse text s
  = (Normal tt,
     match Chat.synthRef s with
     | Some _ =>
         Chat.with_synthRef
           (option_map (Chat.synth_speak
              {| Chat.u_text := text; Chat.onend := Some Chat.ClearIsSpeaking |}))
           (Chat.with_isSpeaking (fun _ => true) s)
     | None => s
     end).
Proof.
  unfold Chat.speakResponse, Chat.setIsSpeaking, Chat.on_synth. eff_unfold.
  destruct (Chat.synthRef s); reflexivity.
Qed.

Lemma Chat_resume_fulfilled (response : JSString) (s : Chat.State) :
  Chat.handleSubmit_resume (Fulfilled response) s
  = (Normal tt,
     Chat.with_isTyping (fun _ => false)
       (snd (Chat.speakResponse response
          (Chat.with_messages
             (fun prev => prev ++ [ {| role := assistant; content := response |} ])
             s)))).
Proof.
  unfold Chat.handleSubmit_resume, Chat.settle, Chat.setMessages, Chat.setIsTyping.
  eff_unfold. rewrite Chat_speakResponse_eq. reflexivity.
Qed.

Lemma Chat_resume_rejected (error : JSError) (s : Chat.State) :
  Chat.handleSubmit_resume (Rejected error) s
  = (Normal tt,
     Chat.with_isTyping (fun _ => false)
       (Chat.with_messages
          (fun prev => prev ++ [ {| role := assistant; content := ERROR_TEXT |} ])
          (Chat.with_console
             (fun c => c ++ [ {| label := js "Error:"; logged := error |} ])
             s))).
Proof. reflexivity. Qed.

(** The part of the state the conversation lives in. *)
Lemma Chat_speakResponse_frame (text : JSString) (s : Chat.State) :
  let s1 := snd (Chat.speakResponse text s) in
  Chat.messages s1 = Chat.messages s /\ Chat.input s1 = Chat.input s
  /\ Chat.isTyping s1 = Chat.isTyping s /\ Chat.network s1 = Chat.network s
  /\ Chat.inflight s1 = Chat.inflight s /\ Chat.console s1 = Chat.console s
  /\ Chat.uncaught s1 = Chat.uncaught s /\ Chat.window s1 = Chat.window s
  /\ Chat.isListening s1 = Chat.isListening s
  /\ Chat.recognitionRef s1 = Chat.recognitionRef s.
Proof.
  rewrite Chat_speakResponse_eq. cbn.
  destruct (Chat.synthRef s); cbn; repeat split; reflexivity.
Qed.

Lemma Chat_resume_normal (o : Settled) (s : Chat.State) :
  fst (Chat.handleSubmit_resume o s) = Normal tt.
Proof.
  destruct o.
  - rewrite Chat_resume_fulfilled. reflexivity.
  - rewrite Chat_resume_rejected. reflexivity.
Qed.

(** What a settled request leaves behind, whichever way it settled. *)
Lemma Chat_resume_effect (o : Settled) (s : Chat.State) :
  let s1 := snd (Chat.handleSubmit_resume o s) in
  Chat.messages s1
  = Chat.messages s
    ++ [ {| role := assistant;
            content := match o with
                       | Fulfilled response => response
                       | Rejected _ => ERROR_TEXT
                       end |} ]
  /\ Chat.isTyping s1 = false
  /\ Chat.network s1 = Chat.network s
  /\ Chat.inflight s1 = Chat.inflight s
  /\ Chat.uncaught s1 = Chat.uncaught s
  /\ Chat.window s1 = Chat.window s
  /\ Chat.input s1 = Chat.input s.
Proof.
  destruct o as [response|error].
  - rewrite Chat_resume_fulfilled. cbn.
    destruct (Chat_speakResponse_frame response
      (Chat.with_messages
         (fun prev => prev ++ [ {| role := assistant; content := response |} ]) s))
      as (Hm & Hi & _ & Hn & Hf & _ & Hu & Hw & _).
    cbn in *. rewrite Hm, Hn, Hf, Hu, Hw, Hi. repeat split; reflexivity.
  - rewrite Chat_resume_rejected. cbn. repeat split; reflexivity.
Qed.

(** ** Events that are not part of the request cycle *)

(** Typing, the microphone, the speaker, recognition events and ended
    utterances leave the transcript, the typing flag, the requests and the
    environment alone. *)
Lemma Chat_voice_frame (e : Chat.Event) (s s' : Chat.State) :
  Chat.dispatch e s = Some s' ->
  match e with
  | Chat.Submit | Chat.Settle _ => True
  | _ =>
      Chat.messages s' = Chat.messages s /\ Chat.isTyping s' = Chat.isTyping s
      /\ Chat.network s' = Chat.network s /\ Chat.inflight s' = Chat.inflight s
      /\ Chat.window s' = Chat.window s
  end.
Proof.
  intro H. destruct e; try exact I.
  - cbn in H. inversion H; subst. cbn. repeat split; reflexivity.
  - cbn in H. inversion H; subst; clear H.
    unfold Chat.exec, Chat.toggleVoiceInput, Chat.startListening,
      Chat.stopListening, Chat.on_recognition, Chat.setIsListening.
    eff_unfold. cbn.
    destruct (Chat.isListening s); cbn; [repeat split; reflexivity|].
    destruct (Chat.hasSpeechRecognition (Chat.window s)); cbn;
      repeat split; reflexivity.
  - cbn in H. inversion H; subst; clear H.
    unfold Chat.exec, Chat.speakerClick, Chat.stopSpeaking, Chat.on_synth,
      Chat.setIsSpeaking.
    eff_unfold. cbn.
    destruct (Chat.isSpeaking s); cbn.
    + destruct (Chat.synthRef s); cbn; repeat split; reflexivity.
    + destruct (nth_error (Chat.messages s) (length (Chat.messages s) - 1)); cbn.
      * unfold Chat.speakResponse, Chat.on_synth, Chat.setIsSpeaking.
        eff_unfold.
        destruct (Chat.synthRef s); cbn; repeat split; reflexivity.
      * repeat split; reflexivity.
  - cbn in H.
    destruct (Chat.recognitionRef s) as [r|]; [|discriminate].
    destruct (Chat.started r); [|discriminate].
    destruct (Chat.onresult r) as [[]|]; [|discriminate].
    inversion H; subst. cbn. repeat split; reflexivity.
  - cbn in H.
    destruct (Chat.recognitionRef s) as [r|]; [|discriminate].
    destruct (Chat.started r); [|discriminate].
    destruct (Chat.onerror r) as [[]|]; [|discriminate].
    inversion H; subst. cbn. repeat split; reflexivity.
  - cbn in H. unfold Chat.utterance_end in H.
    destruct (Chat.synthRef s) as [[|u q]|]; try discriminate.
    inversion H; subst; clear H.
    destruct (Chat.onend u) as [[]|]; cbn; repeat split; reflexivity.
Qed.

(** ** The request cycle, event by event *)

Lemma Chat_dispatch_submit (s s' : Chat.State) :
  Chat.dispatch Chat.Submit s = Some s' ->
  Chat.isTyping s = false
  /\ s' = if blank (Chat.input s) then s
          else Chat.with_inflight S
                 (Chat.with_network
                    (fun n => n ++ [runChat_request (Chat.API_KEY (Chat.window s))
                                                   (Chat.input s)])
                    (Chat.with_isTyping (fun _ => true)
                       (Chat.with_input (fun _ => [])
                          (Chat.with_messages
                             (fun prev => prev ++ [ {| role := user;
                                                       content := Chat.input s |} ])
                             s)))).
Proof.
  cbn. destruct (Chat.isTyping s); [discriminate|].
  intro H. inversion H; subst; clear H. split; [reflexivity|].
  unfold Chat.exec. destruct (blank (Chat.input s)) eqn:B.
  - rewrite Chat_start_blank by exact B. reflexivity.
  - rewrite Chat_start_accept by exact B. reflexivity.
Qed.

Lemma Chat_exec_settle (o : Settled) (s : Chat.State) :
  Chat.exec (bind Chat.settled_one (fun _ => Chat.handleSubmit_resume o)) s
  = snd (Chat.handleSubmit_resume o (Chat.with_inflight Nat.pred s)).
Proof.
  unfold Chat.exec, Chat.settled_one. eff_unfold.
  pose proof (Chat_resume_normal o (Chat.with_inflight Nat.pred s)) as Hn.
  destruct (Chat.handleSubmit_resume o (Chat.with_inflight Nat.pred s)) as [c s1].
  cbn in *. subst c. reflexivity.
Qed.

Lemma Chat_dispatch_settle (o : Settled) (s s' : Chat.State) :
  Chat.dispatch (Chat.Settle o) s = Some s' ->
  0 < Chat.inflight s
  /\ Chat.messages s'
     = Chat.messages s
       ++ [ {| role := assistant;
               content := match o with
                          | Fulfilled response => response
                          | Rejected _ => ERROR_TEXT
                          end |} ]
  /\ Chat.isTyping s' = false
  /\ Chat.network s' = Chat.network s
  /\ Chat.inflight s' = Nat.pred (Chat.inflight s)
  /\ Chat.window s' = Chat.window s.
Proof.
  cbn. destruct (Chat.inflight s) as [|n] eqn:F; [discriminate|].
  intro H. inversion H; subst; clear H.
  rewrite Chat_exec_settle.
  destruct (Chat_resume_effect o (Chat.with_inflight Nat.pred s))
    as (Hm & Ht & Hn & Hf & _ & Hw & _).
  cbn in *. rewrite Hm, Ht, Hn, Hf, Hw, F.
  repeat split; try reflexivity. lia.
Qed.

Lemma Chat_settle_enabled (o : Settled) (s : Chat.State) :
  0 < Chat.inflight s -> exists s', Chat.dispatch (Chat.Settle o) s = Some s'.
Proof.
  intro H. cbn. destruct (Chat.inflight s); [lia|]. eexists. reflexivity.
Qed.

(** ** Invariants of a session *)

Lemma Chat_run_invariant (P : Chat.State -> Prop) :
  (forall e s s', P s -> Chat.dispatch e s = Some s' -> P s') ->
  forall events s s', P s -> Chat.run events s = Some s' -> P s'.
Proof.
  intros Hstep events. induction events as [|e rest IH]; intros s s' Hs Hrun.
  - cbn in Hrun. inversion Hrun; subst. exact Hs.
  - cbn in Hrun. destruct (Chat.dispatch e s) as [s1|] eqn:D; [|discriminate].
    apply (IH s1 s'); [|exact Hrun]. exact (Hstep e s s1 Hs D).
Qed.

Local Abbreviation chat_inv s :=
  (Chat.inflight s = (if Chat.isTyping s then 1 else 0)
   /\ (exists rest,
         Chat.messages s = {| role := assistant; content := Chat.GREETING |} :: rest)
   /\ (exists earlier m,
         Chat.messages s = earlier ++ [m]
         /\ (Chat.isTyping s = false -> role m = assistant))
   /\ Forall (fun r => exists prompt,
                r = runChat_request (Chat.API_KEY (Chat.window s)) prompt)
             (Chat.network s)).

Lemma Chat_inv_init (w : Chat.Window) : chat_inv (Chat.init w).
Proof.
  cbn. repeat split.
  - eexists. reflexivity.
  - exists [], {| role := assistant; content := Chat.GREETING |}.
    split; reflexivity.
  - constructor.
Qed.

Lemma Chat_inv_step (e : Chat.Event) (s s' : Chat.State) :
  chat_inv s -> Chat.dispatch e s = Some s' -> chat_inv s'.
Proof.
  intros (Hf & (rest & Hg) & (earlier & m & Hl & Hr) & Hn) D.
  pose proof (Chat_voice_frame e s s' D) as Fr.
  destruct e;
    try (destruct Fr as (Fm & Ft & Fn & Ff & Fw);
         rewrite Fm, Ft, Fn, Ff, Fw;
         repeat split; [exact Hf|eexists; exact Hg|
                        exists earlier, m; split; [exact Hl|exact Hr]|exact Hn]).
  - (* Submit *)
    apply Chat_dispatch_submit in D. destruct D as (T & ->).
    destruct (blank (Chat.input s)).
    + repeat split; [exact Hf|eexists; exact Hg|
                     exists earlier, m; split; [exact Hl|exact Hr]|exact Hn].
    + cbn. rewrite Hf, T, Hg. repeat split.
      * eexists. cbn. reflexivity.
      * eexists _, _. split; [reflexivity|discriminate].
      * apply Forall_app. split; [exact Hn|].
        constructor; [eexists; reflexivity|constructor].
  - (* Settle *)
    apply Chat_dispatch_settle in D.
    destruct D as (Pos & Dm & Dt & Dn & Df & Dw).
    rewrite Dm, Dt, Dn, Df, Dw, Hg. repeat split.
    + destruct (Chat.isTyping s); rewrite Hf; reflexivity.
    + eexists. cbn. reflexivity.
    + eexists _, _. split; [reflexivity|]. intros _. reflexivity.
    + exact Hn.
Qed.

Lemma Chat_reachable_inv (s : Chat.State) : Chat.reachable s -> chat_inv s.
Proof.
  intros (w & events & Hrun).
  refine (Chat_run_invariant (fun s => chat_inv s) _ events _ _ (Chat_inv_init w) Hrun).
  intros e s0 s1. apply Chat_inv_step.
Qed.

(** ** The text-only component *)

Lemma Landing_start_eq (s : Landing.State) :
  Landing.handleSubmit_start s
  = if blank (Landing.input s) then (Normal false, s)
    else (Normal true,
          Landing.with_inflight S
            (Landing.with_network
               (fun n => n ++ [runChat_request (Landing.API_KEY s) (Landing.input s)])
               (Landing.with_isTyping (fun _ => true)
                  (Landing.with_input (fun _ => [])
                     (Landing.with_messages
                        (fun prev => prev ++ [ {| role := user;
                                                  content := Landing.input s |} ])
                        s))))).
Proof.
  unfold Landing.handleSubmit_start. eff_unfold.
  rewrite truthy_trim. destruct (blank (Landing.input s)); reflexivity.
Qed.

Lemma Landing_resume_eq (o : Settled) (s : Landing.State) :
  Landing.handleSubmit_resume o s
  = (Normal tt,
     Landing.with_isTyping (fun _ => false)
       (match o with
        | Fulfilled response =>
            Landing.with_messages
              (fun prev => prev ++ [ {| role := assistant; content := response |} ]) s
        | Rejected error =>
            Landing.with_messages
              (fun prev => prev ++ [ {| role := assistant; content := ERROR_TEXT |} ])
              (Landing.with_console
                 (fun c => c ++ [ {| label := js "Error:"; logged := error |} ]) s)
        end)).
Proof. destruct o; reflexivity. Qed.

Lemma Landing_dispatch_submit (s s' : Landing.State) :
  Landing.dispatch Landing.Submit s = Some s' ->
  Landing.isTyping s = false
  /\ s' = if blank (Landing.input s) then s
          else Landing.with_inflight S
                 (Landing.with_network
                    (fun n => n ++ [runChat_request (Landing.API_KEY s)
                                                   (Landing.input s)])
                    (Landing.with_isTyping (fun _ => true)
                       (Landing.with_input (fun _ => [])
                          (Landing.with_messages
                             (fun prev => prev ++ [ {| role := user;
                                                       content := Landing.input s |} ])
                             s)))).
Proof.
  cbn. destruct (Landing.isTyping s); [discriminate|].
  intro H. inversion H; subst; clear H. split; [reflexivity|].
  unfold Landing.exec. rewrite Landing_start_eq.
  destruct (blank (Landing.input s)); reflexivity.
Qed.

Lemma Landing_dispatch_settle (o : Settled) (s s' : Landing.State) :
  Landing.dispatch (Landing.Settle o) s = Some s' ->
  0 < Landing.inflight s
  /\ Landing.messages s'
     = Landing.messages s
       ++ [ {| role := assistant;
               content := match o with
                          | Fulfilled response => response
                          | Rejected _ => ERROR_TEXT
                          end |} ]
  /\ Landing.isTyping s' = false
  /\ Landing.network s' = Landing.network s
  /\ Landing.inflight s' = Nat.pred (Landing.inflight s)
  /\ Landing.API_KEY s' = Landing.API_KEY s.
Proof.
  cbn. destruct (Landing.inflight s) as [|n] eqn:F; [discriminate|].
  intro H. inversion H; subst; clear H.
  unfold Landing.exec, Landing.settled_one. eff_unfold.
  rewrite Landing_resume_eq. destruct o; cbn; rewrite F;
    repeat split; try reflexivity; lia.
Qed.

Lemma Landing_dispatch_change (v : JSString) (s s' : Landing.State) :
  Landing.dispatch (Landing.Change v) s = Some s' ->
  Landing.messages s' = Landing.messages s
  /\ Landing.isTyping s' = Landing.isTyping s
  /\ Landing.network s' = Landing.network s
  /\ Landing.inflight s' = Landing.inflight s
  /\ Landing.API_KEY s' = Landing.API_KEY s.
Proof.
  cbn. intro H. inversion H; subst. cbn. repeat split; reflexivity.
Qed.

Lemma Landing_run_invariant (P : Landing.State -> Prop) :
  (forall e s s', P s -> Landing.dispatch e s = Some s' -> P s') ->
  forall events s s', P s -> Landing.run events s = Some s' -> P s'.
Proof.
  intros Hstep events. induction events as [|e rest IH]; intros s s' Hs Hrun.
  - cbn in Hrun. inversion Hrun; subst. exact Hs.
  - cbn in Hrun. destruct (Landing.dispatch e s) as [s1|] eqn:D; [|discriminate].
    apply (IH s1 s'); [|exact Hrun]. exact (Hstep e s s1 Hs D).
Qed.

Local Abbreviation landing_inv s :=
  (Landing.inflight s = (if Landing.isTyping s then 1 else 0)
   /\ (exists rest,
         Landing.messages s
         = {| role := assistant; content := Landing.GREETING |} :: rest)
   /\ Forall (fun r => exists prompt,
                r = runChat_request (Landing.API_KEY s) prompt)
             (Landing.network s)).

Lemma Landing_inv_step (e : Landing.Event) (s s' : Landing.State) :
  landing_inv s -> Landing.dispatch e s = Some s' -> landing_inv s'.
Proof.
  intros (Hf & (rest & Hg) & Hn) D. destruct e.
  - apply Landing_dispatch_change in D. destruct D as (Fm & Ft & Fn & Ff & Fw).
    rewrite Fm, Ft, Fn, Ff, Fw.
    repeat split; [exact Hf|eexists; exact Hg|exact Hn].
  - apply Landing_dispatch_submit in D. destruct D as (T & ->).
    destruct (blank (Landing.input s)).
    + repeat split; [exact Hf|eexists; exact Hg|exact Hn].
    + cbn. rewrite Hf, T, Hg. repeat split.
      * eexists. cbn. reflexivity.
      * apply Forall_app. split; [exact Hn|].
        constructor; [eexists; reflexivity|constructor].
  - apply Landing_dispatch_settle in D.
    destruct D as (Pos & Dm & Dt & Dn & Df & Dw).
    rewrite Dm, Dt, Dn, Df, Dw, Hg. repeat split.
    + destruct (Landing.isTyping s); rewrite Hf; reflexivity.
    + eexists. cbn. reflexivity.
    + exact Hn.
Qed.

Lemma Landing_reachable_inv (s : Landing.State) :
  Landing.reachable s -> landing_inv s.
Proof.
  intros (key & events & Hrun).
  refine (Landing_run_invariant (fun s => landing_inv s) _ events _ _ _ Hrun).
  - intros e s0 s1. apply Landing_inv_step.
  - cbn. repeat split; [eexists; reflexivity|constructor].
Qed.

(** ** While a request is pending *)

(** With the typing flag up no submission gets through, so until the
    request settles nothing touches the transcript. *)
Lemma Chat_waiting (events : list Chat.Event) :
  forall s1 s2,
    Chat.isTyping s1 = true ->
    (forall o, ~ In (Chat.Settle o) events) ->
    Chat.run events s1 = Some s2 ->
    Chat.messages s2 = Chat.messages s1 /\ Chat.isTyping s2 = true
    /\ Chat.inflight s2 = Chat.inflight s1 /\ Chat.network s2 = Chat.network s1.
Proof.
  induction events as [|e rest IH]; intros s1 s2 T NoSettle Hrun.
  - cbn in Hrun. inversion Hrun; subst. repeat split. exact T.
  - cbn in Hrun. destruct (Chat.dispatch e s1) as [s|] eqn:D; [|discriminate].
    assert (Fr : Chat.messages s = Chat.messages s1 /\ Chat.isTyping s = true
                 /\ Chat.inflight s = Chat.inflight s1
                 /\ Chat.network s = Chat.network s1).
    { pose proof (Chat_voice_frame e s1 s D) as Fr. destruct e;
        try (destruct Fr as (Fm & Ft & Fn & Ff & _);
             rewrite Fm, Ft, Fn, Ff; repeat split; exact T).
      - cbn in D. rewrite T in D. discriminate.
      - exfalso. apply (NoSettle o). left. reflexivity. }
    destruct Fr as (Fm & Ft & Ff & Fn).
    destruct (IH s s2 Ft) as (Im & It & If & In'); [|exact Hrun|].
    + intros o Hin. apply (NoSettle o). right. exact Hin.
    + rewrite Im, It, If, In', Fm, Ff, Fn. repeat split.
Qed.

Lemma Landing_waiting (events : list Landing.Event) :
  forall s1 s2,
    Landing.isTyping s1 = true ->
    (forall o, ~ In (Landing.Settle o) events) ->
    Landing.run events s1 = Some s2 ->
    Landing.messages s2 = Landing.messages s1 /\ Landing.isTyping s2 = true
    /\ Landing.inflight s2 = Landing.inflight s1
    /\ Landing.network s2 = Landing.network s1.
Proof.
  induction events as [|e rest IH]; intros s1 s2 T NoSettle Hrun.
  - cbn in Hrun. inversion Hrun; subst. repeat split. exact T.
  - cbn in Hrun. destruct (Landing.dispatch e s1) as [s|] eqn:D; [|discriminate].
    assert (Fr : Landing.messages s = Landing.messages s1
                 /\ Landing.isTyping s = true
                 /\ Landing.inflight s = Landing.inflight s1
                 /\ Landing.network s = Landing.network s1).
    { destruct e.
      - apply Landing_dispatch_change in D. destruct D as (Fm & Ft & Fn & Ff & _).
        rewrite Fm, Ft, Fn, Ff. repeat split. exact T.
      - cbn in D. rewrite T in D. discriminate.
      - exfalso. apply (NoSettle o). left. reflexivity. }
    destruct Fr as (Fm & Ft & Ff & Fn).
    destruct (IH s s2 Ft) as (Im & It & If & In'); [|exact Hrun|].
    + intros o Hin. apply (NoSettle o). right. exact Hin.
    + rewrite Im, It, If, In', Fm, Ff, Fn. repeat split.
Qed.

Lemma Chat_submit_cycle (s s1 : Chat.State) :
  Chat.reachable s ->
  trim (Chat.input s) <> [] ->
  Chat.dispatch Chat.Submit s = Some s1 ->
  Chat.isTyping s = false
  /\ Chat.messages s1
     = Chat.messages s ++ [ {| role := user; content := Chat.input s |} ]
  /\ Chat.isTyping s1 = true
  /\ forall events s2,
       (forall o, ~ In (Chat.Settle o) events) ->
       Chat.run events s1 = Some s2 ->
       Chat.messages s2 = Chat.messages s1
       /\ Chat.isTyping s2 = true
       /\ forall o, exists s3,
            Chat.dispatch (Chat.Settle o) s2 = Some s3
            /\ Chat.messages s3
               = Chat.messages s
                 ++ [ {| role := user; content := Chat.input s |};
                      {| role := assistant;
                         content := match o with
                                    | Fulfilled response => response
                                    | Rejected _ => ERROR_TEXT
                                    end |} ]
            /\ length (Chat.messages s3) = length (Chat.messages s) + 2
            /\ Chat.isTyping s3 = false
            /\ Chat.inflight s3 = 0.
Proof.
  intros Hreach Hnb D.
  apply Chat_reachable_inv in Hreach. destruct Hreach as (Hf & _).
  assert (B : blank (Chat.input s) = false).
  { destruct (blank (Chat.input s)) eqn:B; [|reflexivity].
    apply trim_nil_iff in B. contradiction. }
  apply Chat_dispatch_submit in D. destruct D as (T & E).
  rewrite B in E. rewrite T in Hf.
  assert (M1 : Chat.messages s1
               = Chat.messages s ++ [ {| role := user; content := Chat.input s |} ])
    by (subst s1; reflexivity).
  assert (T1 : Chat.isTyping s1 = true) by (subst s1; reflexivity).
  assert (F1 : Chat.inflight s1 = 1) by (subst s1; cbn; rewrite Hf; reflexivity).
  split; [exact T|]. split; [exact M1|]. split; [exact T1|].
  intros events s2 NoSettle Hrun.
  destruct (Chat_waiting events s1 s2 T1 NoSettle Hrun) as (M2 & T2 & F2 & _).
  split; [exact M2|]. split; [exact T2|].
  - intro o.
    destruct (Chat_settle_enabled o s2) as (s3 & D3); [rewrite F2, F1; lia|].
    exists s3. split; [exact D3|].
    apply Chat_dispatch_settle in D3.
    destruct D3 as (_ & Dm & Dt & _ & Df & _).
    rewrite Dm, Dt, Df, M2, M1, F2, F1, <- app_assoc.
    repeat split. rewrite length_app. cbn. reflexivity.
Qed.

Lemma Landing_submit_cycle (s s1 : Landing.State) :
  Landing.reachable s ->
  trim (Landing.input s) <> [] ->
  Landing.dispatch Landing.Submit s = Some s1 ->
  Landing.isTyping s = false
  /\ Landing.messages s1
     = Landing.messages s ++ [ {| role := user; content := Landing.input s |} ]
  /\ Landing.isTyping s1 = true
  /\ forall events s2,
       (forall o, ~ In (Landing.Settle o) events) ->
       Landing.run events s1 = Some s2 ->
       Landing.messages s2 = Landing.messages s1
       /\ Landing.isTyping s2 = true
       /\ forall o, exists s3,
            Landing.dispatch (Landing.Settle o) s2 = Some s3
            /\ Landing.messages s3
               = Landing.messages s
                 ++ [ {| role := user; content := Landing.input s |};
                      {| role := assistant;
                         content := match o with
                                    | Fulfilled response => response
                                    | Rejected _ => ERROR_TEXT
                                    end |} ]
            /\ length (Landing.messages s3) = length (Landing.messages s) + 2
            /\ Landing.isTyping s3 = false
            /\ Landing.inflight s3 = 0.
Proof.
  intros Hreach Hnb D.
  apply Landing_reachable_inv in Hreach. destruct Hreach as (Hf & _).
  assert (B : blank (Landing.input s) = false).
  { destruct (blank (Landing.input s)) eqn:B; [|reflexivity].
    apply trim_nil_iff in B. contradiction. }
  apply Landing_dispatch_submit in D. destruct D as (T & E).
  rewrite B in E. rewrite T in Hf.
  assert (M1 : Landing.messages s1
               = Landing.messages s
                 ++ [ {| role := user; content := Landing.input s |} ])
    by (subst s1; reflexivity).
  assert (T1 : Landing.isTyping s1 = true) by (subst s1; reflexivity).
  assert (F1 : Landing.inflight s1 = 1)
    by (subst s1; cbn; rewrite Hf; reflexivity).
  split; [exact T|]. split; [exact M1|]. split; [exact T1|].
  intros events s2 NoSettle Hrun.
  destruct (Landing_waiting events s1 s2 T1 NoSettle Hrun) as (M2 & T2 & F2 & _).
  split; [exact M2|]. split; [exact T2|].
  intro o.
  assert (D3 : exists s3, Landing.dispatch (Landing.Settle o) s2 = Some s3).
  { cbn. rewrite F2, F1. eexists. reflexivity. }
  destruct D3 as (s3 & D3). exists s3. split; [exact D3|].
  apply Landing_dispatch_settle in D3.
  destruct D3 as (_ & Dm & Dt & _ & Df & _).
  rewrite Dm, Dt, Df, M2, M1, F2, F1, <- app_assoc.
  repeat split. rewrite length_app. cbn. reflexivity.
Qed.

(** ** The claims *)

(** C1.  In either component, a submission of an input that is not empty
    after trimming can only happen with the typing flag down
    ([awaiting_response] false before the call); it appends exactly one
    user entry at once; whatever else happens before the request settles
    leaves the transcript as it is; and when the request settles, with a
    response or with an error, exactly one assistant entry follows (the
    response text, or the fixed fallback text), so that the transcript has
    grown by exactly two entries, the typing flag is down again and no
    request is pending. *)
Theorem submit_appends_user_then_assistant :
  (forall s s1 : Chat.State,
     Chat.reachable s ->
     trim (Chat.input s) <> [] ->
     Chat.dispatch Chat.Submit s = Some s1 ->
     Chat.isTyping s = false
     /\ Chat.messages s1
        = Chat.messages s ++ [ {| role := user; content := Chat.input s |} ]
     /\ Chat.isTyping s1 = true
     /\ forall events s2,
          (forall o, ~ In (Chat.Settle o) events) ->
          Chat.run events s1 = Some s2 ->
          Chat.messages s2 = Chat.messages s1
          /\ Chat.isTyping s2 = true
          /\ forall o, exists s3,
               Chat.dispatch (Chat.Settle o) s2 = Some s3
               /\ Chat.messages s3
                  = Chat.messages s
                    ++ [ {| role := user; content := Chat.input s |};
                         {| role := assistant;
                            content := match o with
                                       | Fulfilled response => response
                                       | Rejected _ => ERROR_TEXT
                                       end |} ]
               /\ length (Chat.messages s3) = length (Chat.messages s) + 2
               /\ Chat.isTyping s3 = false
               /\ Chat.inflight s3 = 0)
  /\
  (forall s s1 : Landing.State,
     Landing.reachable s ->
     trim (Landing.input s) <> [] ->
     Landing.dispatch Landing.Submit s = Some s1 ->
     Landing.isTyping s = false
     /\ Landing.messages s1
        = Landing.messages s ++ [ {| role := user; content := Landing.input s |} ]
     /\ Landing.isTyping s1 = true
     /\ forall events s2,
          (forall o, ~ In (Landing.Settle o) events) ->
          Landing.run events s1 = Some s2 ->
          Landing.messages s2 = Landing.messages s1
          /\ Landing.isTyping s2 = true
          /\ forall o, exists s3,
               Landing.dispatch (Landing.Settle o) s2 = Some s3
               /\ Landing.messages s3
                  = Landing.messages s
                    ++ [ {| role := user; content := Landing.input s |};
                         {| role := assistant;
                            content := match o with
                                       | Fulfilled response => response
                                       | Rejected _ => ERROR_TEXT
                                       end |} ]
               /\ length (Landing.messages s3) = length (Landing.messages s) + 2
               /\ Landing.isTyping s3 = false
               /\ Landing.inflight s3 = 0).
Proof.
  split.
  - intros s s1. apply Chat_submit_cycle.
  - intros s s1. apply Landing_submit_cycle.
Qed.

Lemma submit_appends_user_then_assistant_witness :
  Chat.isTyping
    (Chat.with_input (fun _ => js "I feel anxious") (Chat.init Chat.browser))
  = false
  /\ Chat.messages
       (Chat.exec Chat.handleSubmit_start
          (Chat.with_input (fun _ => js "I feel anxious") (Chat.init Chat.browser)))
     = [ {| role := assistant; content := Chat.GREETING |};
         {| role := user; content := js "I feel anxious" |} ].
Proof.
  assert (Hreach : Chat.reachable
            (Chat.with_input (fun _ => js "I feel anxious") (Chat.init Chat.browser))).
  { exists Chat.browser, [Chat.Change (js "I feel anxious")]. reflexivity. }
  assert (Hnb : trim (Chat.input
            (Chat.with_input (fun _ => js "I feel anxious") (Chat.init Chat.browser)))
          <> []).
  { vm_compute. discriminate. }
  destruct (proj1 submit_appends_user_then_assistant
              (Chat.with_input (fun _ => js "I feel anxious") (Chat.init Chat.browser))
              (Chat.exec Chat.handleSubmit_start
                 (Chat.with_input (fun _ => js "I feel anxious")
                    (Chat.init Chat.browser)))
              Hreach Hnb eq_refl) as (T & M & _).
  split; [exact T|exact M].
Defined.

(** C2.  Whatever the state of the component, and so however long the
    transcript, the request a submission hands to the endpoint is the one
    built from the key and the text of the input field alone: its history
    is the single entry holding the fixed instruction, its message is the
    input, and these two are all the turns it carries.  Every request a
    session ever issued has that shape, in both components. *)
Theorem request_is_instruction_plus_latest_input :
  (forall s : Chat.State,
     trim (Chat.input s) <> [] ->
     Chat.network (Chat.exec Chat.handleSubmit_start s)
     = Chat.network s
       ++ [runChat_request (Chat.API_KEY (Chat.window s)) (Chat.input s)]
     /\ history (runChat_request (Chat.API_KEY (Chat.window s)) (Chat.input s))
        = [ {| c_role := user; parts := [FIXED_PROMPT] |} ]
     /\ request_turns (runChat_request (Chat.API_KEY (Chat.window s)) (Chat.input s))
        = [ {| role := user; content := FIXED_PROMPT |};
            {| role := user; content := Chat.input s |} ])
  /\ (forall s : Chat.State,
        Chat.reachable s ->
        forall r, In r (Chat.network s) ->
        exists prompt,
          request_turns r = [ {| role := user; content := FIXED_PROMPT |};
                              {| role := user; content := prompt |} ])
  /\ (forall s : Landing.State,
        trim (Landing.input s) <> [] ->
        Landing.network (Landing.exec Landing.handleSubmit_start s)
        = Landing.network s
          ++ [runChat_request (Landing.API_KEY s) (Landing.input s)]
        /\ request_turns (runChat_request (Landing.API_KEY s) (Landing.input s))
           = [ {| role := user; content := FIXED_PROMPT |};
               {| role := user; content := Landing.input s |} ])
  /\ (forall s : Landing.State,
        Landing.reachable s ->
        forall r, In r (Landing.network s) ->
        exists prompt,
          request_turns r = [ {| role := user; content := FIXED_PROMPT |};
                              {| role := user; content := prompt |} ]).
Proof.
  repeat split.
  - unfold Chat.exec. rewrite Chat_start_accept; [reflexivity|].
    destruct (blank (Chat.input s)) eqn:B; [|reflexivity].
    apply trim_nil_iff in B. contradiction.
  - intros s Hreach r Hin.
    apply Chat_reachable_inv in Hreach. destruct Hreach as (_ & _ & _ & Hn).
    rewrite Forall_forall in Hn. destruct (Hn r Hin) as (prompt & ->).
    exists prompt. reflexivity.
  - unfold Landing.exec. rewrite Landing_start_eq.
    destruct (blank (Landing.input s)) eqn:B; [|reflexivity].
    apply trim_nil_iff in B. contradiction.
  - intros s Hreach r Hin.
    apply Landing_reachable_inv in Hreach. destruct Hreach as (_ & _ & Hn).
    rewrite Forall_forall in Hn. destruct (Hn r Hin) as (prompt & ->).
    exists prompt. reflexivity.
Qed.

Lemma request_is_instruction_plus_latest_input_witness :
  Chat.network
    (Chat.exec Chat.handleSubmit_start
       (Chat.with_input (fun _ => js "And today?")
          (Chat.with_messages
             (fun prev => prev ++ [ {| role := user; content := js "I feel anxious" |};
                                    {| role := assistant; content := js "Tell me more." |} ])
             (Chat.init Chat.browser))))
  = [ runChat_request (js "key") (js "And today?") ].
Proof.
  refine (proj1 (proj1 request_is_instruction_plus_latest_input
     (Chat.with_input (fun _ => js "And today?")
        (Chat.with_messages
           (fun prev => prev ++ [ {| role := user; content := js "I feel anxious" |};
                                  {| role := assistant; content := js "Tell me more." |} ])
           (Chat.init Chat.browser))) _)).
  vm_compute. discriminate.
Defined.

Lemma Chat_nonblank (s : Chat.State) :
  trim (Chat.input s) <> [] -> blank (Chat.input s) = false.
Proof.
  intro Hnb. destruct (blank (Chat.input s)) eqn:B; [|reflexivity].
  apply trim_nil_iff in B. contradiction.
Qed.

Lemma Chat_handleSubmit_accept (o : Settled) (s : Chat.State) :
  trim (Chat.input s) <> [] ->
  Chat.handleSubmit o s
  = Chat.handleSubmit_resume o
      (Chat.with_network
         (fun n => n ++ [runChat_request (Chat.API_KEY (Chat.window s)) (Chat.input s)])
         (Chat.with_isTyping (fun _ => true)
            (Chat.with_input (fun _ => [])
               (Chat.with_messages
                  (fun prev => prev ++ [ {| role := user; content := Chat.input s |} ])
                  s)))).
Proof.
  intro Hnb. unfold Chat.handleSubmit, Chat.settled_one. eff_unfold.
  rewrite Chat_start_accept by (apply Chat_nonblank; exact Hnb).
  reflexivity.
Qed.

(** C3.  When the awaited call throws, whatever it throws, [handleSubmit]
    returns normally (nothing escapes to its caller), the transcript gains
    the user entry and an assistant entry with the fixed text, the error is
    logged, one request and no more has left, and the typing flag is down;
    the flag is down after a successful call too.  The same holds of the
    resumed function in whatever state it resumes. *)
Theorem remote_error_becomes_fallback_turn :
  forall (s : Chat.State) (error : JSError),
    trim (Chat.input s) <> [] ->
    fst (Chat.handleSubmit (Rejected error) s) = Normal tt
    /\ Chat.messages (snd (Chat.handleSubmit (Rejected error) s))
       = Chat.messages s
         ++ [ {| role := user; content := Chat.input s |};
              {| role := assistant;
                 content := js "I'm sorry, I encountered an error. Please try again." |} ]
    /\ Chat.network (snd (Chat.handleSubmit (Rejected error) s))
       = Chat.network s
         ++ [runChat_request (Chat.API_KEY (Chat.window s)) (Chat.input s)]
    /\ Chat.console (snd (Chat.handleSubmit (Rejected error) s))
       = Chat.console s ++ [ {| label := js "Error:"; logged := error |} ]
    /\ Chat.uncaught (snd (Chat.handleSubmit (Rejected error) s)) = Chat.uncaught s
    /\ Chat.isTyping (snd (Chat.handleSubmit (Rejected error) s)) = false
    /\ (forall response,
          fst (Chat.handleSubmit (Fulfilled response) s) = Normal tt
          /\ Chat.isTyping (snd (Chat.handleSubmit (Fulfilled response) s)) = false)
    /\ (forall s2 : Chat.State,
          fst (Chat.handleSubmit_resume (Rejected error) s2) = Normal tt
          /\ Chat.messages (snd (Chat.handleSubmit_resume (Rejected error) s2))
             = Chat.messages s2 ++ [ {| role := assistant; content := ERROR_TEXT |} ]
          /\ Chat.network (snd (Chat.handleSubmit_resume (Rejected error) s2))
             = Chat.network s2
          /\ Chat.isTyping (snd (Chat.handleSubmit_resume (Rejected error) s2))
             = false).
Proof.
  intros s error Hnb.
  rewrite (Chat_handleSubmit_accept (Rejected error) s Hnb).
  rewrite Chat_resume_rejected. cbn.
  rewrite <- app_assoc. cbn.
  repeat split.
  - rewrite (Chat_handleSubmit_accept (Fulfilled response) s Hnb).
    apply Chat_resume_normal.
  - rewrite (Chat_handleSubmit_accept (Fulfilled response) s Hnb).
    apply (Chat_resume_effect (Fulfilled response)).
Qed.

Lemma remote_error_becomes_fallback_turn_witness :
  Chat.messages
    (snd (Chat.handleSubmit (Rejected (js "fetch failed"))
            (Chat.with_input (fun _ => js "I feel anxious") (Chat.init Chat.browser))))
  = [ {| role := assistant; content := Chat.GREETING |};
      {| role := user; content := js "I feel anxious" |};
      {| role := assistant;
         content := js "I'm sorry, I encountered an error. Please try again." |} ].
Proof.
  refine (proj1 (proj2 (remote_error_becomes_fallback_turn
     (Chat.with_input (fun _ => js "I feel anxious") (Chat.init Chat.browser))
     (js "fetch failed") _))).
  vm_compute. discriminate.
Defined.

(** C4.  In every state a session can reach the transcript is not empty
    and begins with the greeting put there when the component was created,
    and no request that has left carries an assistant turn, the greeting
    in particular: what the endpoint is given are user turns only. *)
Theorem greeting_first_and_never_sent :
  forall s : Chat.State,
    Chat.reachable s ->
    Chat.messages s <> []
    /\ hd_error (Chat.messages s)
       = Some {| role := assistant; content := Chat.GREETING |}
    /\ forall r, In r (Chat.network s) ->
         ~ In {| role := assistant; content := Chat.GREETING |} (request_turns r)
         /\ Forall (fun m => role m = user) (request_turns r).
Proof.
  intros s Hreach.
  apply Chat_reachable_inv in Hreach.
  destruct Hreach as (_ & (rest & Hg) & _ & Hn).
  rewrite Hg. split; [discriminate|]. split; [reflexivity|].
  intros r Hin. rewrite Forall_forall in Hn.
  destruct (Hn r Hin) as (prompt & ->).
  rewrite request_turns_runChat. split.
  - intros [H|[H|[]]]; discriminate.
  - repeat constructor.
Qed.

Lemma greeting_first_and_never_sent_witness :
  hd_error
    (Chat.messages
       (Chat.exec Chat.handleSubmit_start
          (Chat.with_input (fun _ => js "I feel anxious") (Chat.init Chat.browser))))
  = Some {| role := assistant; content := Chat.GREETING |}.
Proof.
  refine (proj1 (proj2 (greeting_first_and_never_sent
     (Chat.exec Chat.handleSubmit_start
        (Chat.with_input (fun _ => js "I feel anxious") (Chat.init Chat.browser)))
     _))).
  exists Chat.browser, [Chat.Change (js "I feel anxious"); Chat.Submit].
  reflexivity.
Defined.

(** C5.  On an input field that is empty or holds white space only,
    [handleSubmit] returns at once and leaves the whole state as it found
    it, however the request would have settled: the transcript, the typing
    flag, the list of requests and the console are the ones before the
    call, so nothing was sent and no entry, error entry or other, was
    added. *)
Theorem blank_submit_is_noop :
  forall s : Chat.State,
    blank (Chat.input s) = true ->
    (forall o, Chat.handleSubmit o s = (Normal tt, s))
    /\ Chat.exec Chat.handleSubmit_start s = s
    /\ (Chat.isTyping s = false -> Chat.dispatch Chat.Submit s = Some s).
Proof.
  intros s B. repeat split.
  - intro o. unfold Chat.handleSubmit. eff_unfold.
    rewrite Chat_start_blank by exact B. reflexivity.
  - unfold Chat.exec. rewrite Chat_start_blank by exact B. reflexivity.
  - intro T. cbn. rewrite T. unfold Chat.exec.
    rewrite Chat_start_blank by exact B. reflexivity.
Qed.

Lemma blank_submit_is_noop_witness :
  Chat.exec Chat.handleSubmit_start
    (Chat.with_input (fun _ => [32; 9; 160; 12288]%N) (Chat.init Chat.browser))
  = Chat.with_input (fun _ => [32; 9; 160; 12288]%N) (Chat.init Chat.browser).
Proof.
  refine (proj1 (proj2 (blank_submit_is_noop
     (Chat.with_input (fun _ => [32; 9; 160; 12288]%N) (Chat.init Chat.browser))
     _))).
  reflexivity.
Defined.

(** C10.  When the input is accepted and trimming would change it, the
    user entry appended to the transcript and the message of the request
    both hold the input as typed, which is not its trimmed form. *)
Theorem accepted_input_is_kept_untrimmed :
  forall s : Chat.State,
    trim (Chat.input s) <> [] ->
    trim (Chat.input s) <> Chat.input s ->
    exists m r,
      Chat.messages (Chat.exec Chat.handleSubmit_start s) = Chat.messages s ++ [m]
      /\ Chat.network (Chat.exec Chat.handleSubmit_start s) = Chat.network s ++ [r]
      /\ role m = user
      /\ content m = Chat.input s
      /\ message r = Chat.input s
      /\ content m <> trim (Chat.input s)
      /\ message r <> trim (Chat.input s).
Proof.
  intros s Hnb Hdiff.
  exists {| role := user; content := Chat.input s |},
         (runChat_request (Chat.API_KEY (Chat.window s)) (Chat.input s)).
  unfold Chat.exec. rewrite Chat_start_accept by (apply Chat_nonblank; exact Hnb).
  cbn. repeat split; intro E; apply Hdiff; symmetry; exact E.
Qed.

Lemma accepted_input_is_kept_untrimmed_witness :
  exists m r,
    Chat.messages
      (Chat.exec Chat.handleSubmit_start
         (Chat.with_input (fun _ => js "  hi ") (Chat.init Chat.browser)))
    = Chat.messages
        (Chat.with_input (fun _ => js "  hi ") (Chat.init Chat.browser)) ++ [m]
    /\ Chat.network
         (Chat.exec Chat.handleSubmit_start
            (Chat.with_input (fun _ => js "  hi ") (Chat.init Chat.browser)))
       = Chat.network
           (Chat.with_input (fun _ => js "  hi ") (Chat.init Chat.browser)) ++ [r]
    /\ role m = user
    /\ content m = js "  hi "
    /\ message r = js "  hi "
    /\ content m <> js "hi"
    /\ message r <> js "hi".
Proof.
  refine (accepted_input_is_kept_untrimmed
     (Chat.with_input (fun _ => js "  hi ") (Chat.init Chat.browser)) _ _);
    vm_compute; discriminate.
Defined.

(** C7.  The result handler sets the input field to the joined best
    transcripts of the event, whatever the field held: nothing of the old
    content survives.  Typing some text, starting to listen and receiving
    the interim results "I feel" and then "I feel sad" leaves "I feel sad"
    in the field, with the component still listening. *)
Theorem interim_result_replaces_input :
  (forall (s : Chat.State) (results : list Chat.SpeechRecognitionResult),
     Chat.input (Chat.exec (Chat.onresult_handler results) s)
     = join (map (fun result => Chat.transcript (Chat.item0 result)) results))
  /\ (forall typed : JSString,
        option_map (fun s => (Chat.input s, Chat.isListening s))
          (Chat.run
             [ Chat.Change typed;
               Chat.MicClick;
               Chat.RecognitionResult
                 [ {| Chat.item0 := {| Chat.transcript := js "I feel" |};
                      Chat.items := []; Chat.isFinal := false |} ];
               Chat.RecognitionResult
                 [ {| Chat.item0 := {| Chat.transcript := js "I feel sad" |};
                      Chat.items := []; Chat.isFinal := false |} ] ]
             (Chat.init Chat.browser))
        = Some (js "I feel sad", true)).
Proof.
  split.
  - intros s results. reflexivity.
  - intro typed. vm_compute. reflexivity.
Qed.

(** C9.  When the recognition object the component listens to reports an
    error, the handler logs it with its label, puts the listening flag
    down and stops that object, which is not started again and lets
    nothing escape; the transcript, the input field, the typing flag, the
    requests and the speech output are as before. *)
Theorem recognition_error_stops_listening :
  forall (s : Chat.State) (r : Chat.SpeechRecognition) (error : JSError),
    Chat.recognitionRef s = Some r ->
    Chat.started r = true ->
    Chat.onerror r = Some Chat.LogAndStopListening ->
    exists s',
      Chat.dispatch (Chat.RecognitionError error) s = Some s'
      /\ Chat.console s'
         = Chat.console s
           ++ [ {| label := js "Speech recognition error"; logged := error |} ]
      /\ Chat.isListening s' = false
      /\ Chat.recognitionRef s' = Some (Chat.recognition_stop r)
      /\ Chat.started (Chat.recognition_stop r) = false
      /\ Chat.uncaught s' = Chat.uncaught s
      /\ Chat.messages s' = Chat.messages s
      /\ Chat.input s' = Chat.input s
      /\ Chat.isTyping s' = Chat.isTyping s
      /\ Chat.network s' = Chat.network s
      /\ Chat.inflight s' = Chat.inflight s
      /\ Chat.isSpeaking s' = Chat.isSpeaking s
      /\ Chat.synthRef s' = Chat.synthRef s.
Proof.
  intros s r error Hr Hs He.
  eexists. split.
  - cbn. rewrite Hr, Hs, He. reflexivity.
  - cbn. rewrite Hr. cbn. repeat split; reflexivity.
Qed.

Lemma recognition_error_stops_listening_witness :
  option_map (fun s => (Chat.isListening s, Chat.console s))
    (Chat.run [Chat.MicClick; Chat.RecognitionError (js "no-speech")]
       (Chat.init Chat.browser))
  = Some (false, [ {| label := js "Speech recognition error";
                      logged := js "no-speech" |} ]).
Proof.
  destruct (recognition_error_stops_listening
              (Chat.exec Chat.toggleVoiceInput (Chat.init Chat.browser))
              {| Chat.continuous := true; Chat.interimResults := true;
                 Chat.onresult := Some Chat.SetInputToTranscript;
                 Chat.onerror := Some Chat.LogAndStopListening;
                 Chat.started := true |}
              (js "no-speech") eq_refl eq_refl eq_refl)
    as (s' & D & C & L & _).
  change (Chat.run [Chat.MicClick; Chat.RecognitionError (js "no-speech")]
            (Chat.init Chat.browser))
    with (match Chat.dispatch (Chat.RecognitionError (js "no-speech"))
                  (Chat.exec Chat.toggleVoiceInput (Chat.init Chat.browser)) with
          | Some s1 => Some s1
          | None => None
          end).
  rewrite D. cbn. rewrite L, C. reflexivity.
Defined.

(** C6 as stated fails.  After [speak("Hi there")] and
    [speak("Second message")] the platform holds both utterances, the
    second behind the first, and when the first one ends the speaking flag
    is down although "Second message" is still to be spoken.  A session
    gets there by itself: the speaker button replays the greeting, and the
    response to a submission arrives before the greeting has been spoken
    to its end. *)
Lemma speaking_flag_drops_before_last_completion :
  Chat.synthRef
    (Chat.exec (bind (Chat.speakResponse (js "Hi there"))
                     (fun _ => Chat.speakResponse (js "Second message")))
               (Chat.init Chat.browser))
  = Some [ {| Chat.u_text := js "Hi there";
              Chat.onend := Some Chat.ClearIsSpeaking |};
           {| Chat.u_text := js "Second message";
              Chat.onend := Some Chat.ClearIsSpeaking |} ]
  /\ option_map (fun s => (Chat.isSpeaking s, Chat.synthRef s))
       (Chat.dispatch Chat.UtteranceEnd
          (Chat.exec (bind (Chat.speakResponse (js "Hi there"))
                           (fun _ => Chat.speakResponse (js "Second message")))
                     (Chat.init Chat.browser)))
     = Some (false,
             Some [ {| Chat.u_text := js "Second message";
                       Chat.onend := Some Chat.ClearIsSpeaking |} ])
  /\ option_map (fun s => (Chat.isSpeaking s, Chat.synthRef s))
       (Chat.run [ Chat.SpeakerClick;
                   Chat.Change (js "I feel anxious");
                   Chat.Submit;
                   Chat.Settle (Fulfilled (js "Second message"));
                   Chat.UtteranceEnd ]
                 (Chat.init Chat.browser))
     = Some (false,
             Some [ {| Chat.u_text := js "Second message";
                       Chat.onend := Some Chat.ClearIsSpeaking |} ]).
Proof. repeat split; vm_compute; reflexivity. Qed.

(** ** The speaker button and the forwarded response *)

(** A response that arrived is handed to [speakResponse]: with the
    platform's speech output at hand, it is queued there and the speaking
    flag is up. *)
Lemma Chat_response_is_spoken (response : JSString) (s : Chat.State)
    (q : Chat.SpeechSynthesis) :
  Chat.synthRef s = Some q ->
  Chat.synthRef (snd (Chat.handleSubmit_resume (Fulfilled response) s))
  = Some (q ++ [ {| Chat.u_text := response;
                    Chat.onend := Some Chat.ClearIsSpeaking |} ])
  /\ Chat.isSpeaking (snd (Chat.handleSubmit_resume (Fulfilled response) s)) = true.
Proof.
  intro Hq. rewrite Chat_resume_fulfilled, Chat_speakResponse_eq. cbn.
  rewrite Hq. cbn. rewrite Hq. split; reflexivity.
Qed.

Lemma nth_error_last_entry {A} (earlier : list A) (m : A) :
  nth_error (earlier ++ [m]) (length (earlier ++ [m]) - 1) = Some m.
Proof.
  rewrite length_app. cbn.
  replace (length earlier + 1 - 1) with (length earlier) by lia.
  rewrite nth_error_app2 by lia. rewrite Nat.sub_diag. reflexivity.
Qed.

(** With no request pending and nothing being spoken, the speaker button
    speaks the last entry of the transcript, which is then an assistant
    entry. *)
Lemma Chat_replay_when_idle (s : Chat.State) :
  Chat.reachable s ->
  Chat.isTyping s = false ->
  Chat.isSpeaking s = false ->
  exists earlier m,
    Chat.messages s = earlier ++ [m]
    /\ role m = assistant
    /\ Chat.speakerClick s = Chat.speakResponse (content m) s.
Proof.
  intros Hreach T Sp.
  apply Chat_reachable_inv in Hreach.
  destruct Hreach as (_ & _ & (earlier & m & Hl & Hr) & _).
  exists earlier, m. split; [exact Hl|]. split; [exact (Hr T)|].
  unfold Chat.speakerClick. eff_unfold. rewrite Sp, Hl, nth_error_last_entry.
  reflexivity.
Qed.

(** C8, where the component departs from it.  While a request is pending
    the last entry of the transcript is the user's; the speaker button,
    which announces itself as "Read response", then speaks the user's own
    text, not the last assistant entry (the greeting here). *)
Theorem replay_speaks_user_entry_while_pending :
  option_map (fun s => (Chat.messages s, Chat.isSpeaking s, Chat.synthRef s))
    (Chat.run [ Chat.Change (js "I feel anxious"); Chat.Submit; Chat.SpeakerClick ]
              (Chat.init Chat.browser))
  = Some ([ {| role := assistant; content := Chat.GREETING |};
            {| role := user; content := js "I feel anxious" |} ],
          true,
          Some [ {| Chat.u_text := js "I feel anxious";
                    Chat.onend := Some Chat.ClearIsSpeaking |} ]).
Proof. vm_compute. reflexivity. Qed.

(** ** Two sessions, run *)

Example session_with_response :
  option_map (fun s => (Chat.messages s, Chat.isTyping s, Chat.input s))
    (Chat.run
       [ Chat.Change (js "I feel anxious");
         Chat.Submit;
         Chat.Settle (Fulfilled (js "That's understandable, let's talk about it.")) ]
       (Chat.init Chat.browser))
  = Some ([ {| role := assistant; content := Chat.GREETING |};
            {| role := user; content := js "I feel anxious" |};
            {| role := assistant;
               content := js "That's understandable, let's talk about it." |} ],
          false, []).
Proof. vm_compute. reflexivity. Qed.

Example session_with_failure :
  option_map (fun s => (Landing.messages s, Landing.isTyping s, Landing.console s))
    (Landing.run
       [ Landing.Change (js "I feel anxious");
         Landing.Submit;
         Landing.Settle (Rejected (js "fetch failed")) ]
       (Landing.init (js "key")))
  = Some ([ {| role := assistant; content := Landing.GREETING |};
            {| role := user; content := js "I feel anxious" |};
            {| role := assistant; content := ERROR_TEXT |} ],
          false,
          [ {| label := js "Error:"; logged := js "fetch failed" |} ]).
Proof. vm_compute. reflexivity. Qed.

(** A second submission while the first is pending is not delivered. *)
Example submit_while_pending_is_not_delivered :
  Chat.run
    [ Chat.Change (js "one"); Chat.Submit; Chat.Change (js "two"); Chat.Submit ]
    (Chat.init Chat.browser)
  = None.
Proof. vm_compute. reflexivity. Qed.

(** * Beyond the request cycle *)

(** ** What each event does, case by case *)

Lemma Chat_mic_eq (s : Chat.State) :
  Chat.exec Chat.toggleVoiceInput s
  = if Chat.isListening s
    then Chat.with_recognitionRef (option_map Chat.recognition_stop)
           (Chat.with_waveformControls (fun _ => Chat.WaveHidden)
              (Chat.with_micControls (fun _ => Chat.MicStill)
                 (Chat.with_isListening (fun _ => false) s)))
    else if Chat.hasSpeechRecognition (Chat.window s)
    then Chat.with_recognitionRef
           (fun _ => Some {| Chat.continuous := true;
                             Chat.interimResults := true;
                             Chat.onresult := Some Chat.SetInputToTranscript;
                             Chat.onerror := Some Chat.LogAndStopListening;
                             Chat.started := true |})
           (Chat.with_waveformControls (fun _ => Chat.WaveShown)
              (Chat.with_micControls (fun _ => Chat.MicPulsing)
                 (Chat.with_isListening (fun _ => true) s)))
    else Chat.with_uncaught
           (fun u => u ++ [js "TypeError: SpeechRecognition is not a constructor"])
           (Chat.with_waveformControls (fun _ => Chat.WaveShown)
              (Chat.with_micControls (fun _ => Chat.MicPulsing)
                 (Chat.with_isListening (fun _ => true) s))).
Proof.
  unfold Chat.exec, Chat.toggleVoiceInput, Chat.startListening,
    Chat.stopListening, Chat.on_recognition, Chat.setIsListening.
  eff_unfold. cbn.
  destruct (Chat.isListening s); cbn; [reflexivity|].
  destruct (Chat.hasSpeechRecognition (Chat.window s)); reflexivity.
Qed.

Lemma Chat_speaker_eq (s : Chat.State) :
  Chat.exec Chat.speakerClick s
  = if Chat.isSpeaking s
    then match Chat.synthRef s with
         | Some _ =>
             Chat.with_isSpeaking (fun _ => false)
               (Chat.with_synthRef (option_map Chat.synth_cancel) s)
         | None => s
         end
    else match nth_error (Chat.messages s) (length (Chat.messages s) - 1) with
         | Some m => snd (Chat.speakResponse (content m) s)
         | None =>
             Chat.with_uncaught
               (fun u => u ++ [js "TypeError: Cannot read properties of undefined"]) s
         end.
Proof.
  unfold Chat.exec, Chat.speakerClick, Chat.stopSpeaking, Chat.on_synth,
    Chat.setIsSpeaking.
  eff_unfold. cbv beta iota.
  destruct (Chat.isSpeaking s); cbv beta iota.
  - destruct (Chat.synthRef s); reflexivity.
  - destruct (nth_error (Chat.messages s) (length (Chat.messages s) - 1)) as [m|];
      [|reflexivity].
    rewrite Chat_speakResponse_eq.
    unfold Chat.speakResponse, Chat.on_synth, Chat.setIsSpeaking. eff_unfold.
    cbv beta iota. destruct (Chat.synthRef s); reflexivity.
Qed.

Lemma Chat_onerror_eq (error : JSError) (s : Chat.State) :
  Chat.exec (Chat.onerror_handler error) s
  = Chat.with_recognitionRef (option_map Chat.recognition_stop)
      (Chat.with_waveformControls (fun _ => Chat.WaveHidden)
         (Chat.with_micControls (fun _ => Chat.MicStill)
            (Chat.with_isListening (fun _ => false)
               (Chat.with_console
                  (fun c => c ++ [ {| label := js "Speech recognition error";
                                      logged := error |} ])
                  s)))).
Proof. reflexivity. Qed.

Lemma Chat_utterance_end_eq (s : Chat.State) :
  Chat.utterance_end s
  = match Chat.synthRef s with
    | Some (u :: q) =>
        Some (match Chat.onend u with
              | Some Chat.ClearIsSpeaking =>
                  Chat.with_isSpeaking (fun _ => false)
                    (Chat.with_synthRef (fun _ => Some q) s)
              | None => Chat.with_synthRef (fun _ => Some q) s
              end)
    | _ => None
    end.
Proof.
  unfold Chat.utterance_end.
  destruct (Chat.synthRef s) as [[|u q]|]; try reflexivity.
  destruct (Chat.onend u) as [[]|]; reflexivity.
Qed.

(** Every event that is delivered, and the state it leaves. *)
Lemma Chat_dispatch_cases (e : Chat.Event) (s s' : Chat.State) :
  Chat.dispatch e s = Some s' ->
  match e with
  | Chat.Change value => s' = Chat.with_input (fun _ => value) s
  | Chat.Submit =>
      Chat.isTyping s = false
      /\ s' = if blank (Chat.input s) then s
              else Chat.with_inflight S
                     (Chat.with_network
                        (fun n => n ++ [runChat_request (Chat.API_KEY (Chat.window s))
                                                       (Chat.input s)])
                        (Chat.with_isTyping (fun _ => true)
                           (Chat.with_input (fun _ => [])
                              (Chat.with_messages
                                 (fun prev => prev ++ [ {| role := user;
                                                           content := Chat.input s |} ])
                                 s))))
  | Chat.Settle (Fulfilled response) =>
      0 < Chat.inflight s
      /\ s' = Chat.with_isTyping (fun _ => false)
                (match Chat.synthRef s with
                 | Some _ =>
                     Chat.with_synthRef
                       (option_map (Chat.synth_speak
                          {| Chat.u_text := response;
                             Chat.onend := Some Chat.ClearIsSpeaking |}))
                       (Chat.with_isSpeaking (fun _ => true)
                          (Chat.with_messages
                             (fun prev => prev ++ [ {| role := assistant;
                                                       content := response |} ])
                             (Chat.with_inflight Nat.pred s)))
                 | None =>
                     Chat.with_messages
                       (fun prev => prev ++ [ {| role := assistant;
                                                 content := response |} ])
                       (Chat.with_inflight Nat.pred s)
                 end)
  | Chat.Settle (Rejected error) =>
      0 < Chat.inflight s
      /\ s' = Chat.with_isTyping (fun _ => false)
                (Chat.with_messages
                   (fun prev => prev ++ [ {| role := assistant;
                                             content := ERROR_TEXT |} ])
                   (Chat.with_console
                      (fun c => c ++ [ {| label := js "Error:"; logged := error |} ])
                      (Chat.with_inflight Nat.pred s)))
  | Chat.MicClick => s' = Chat.exec Chat.toggleVoiceInput s
  | Chat.SpeakerClick => s' = Chat.exec Chat.speakerClick s
  | Chat.RecognitionResult results =>
      exists r,
        Chat.recognitionRef s = Some r /\ Chat.started r = true
        /\ s' = Chat.with_input
                  (fun _ => join (map (fun result => Chat.transcript (Chat.item0 result))
                                      results))
                  s
  | Chat.RecognitionError error =>
      exists r,
        Chat.recognitionRef s = Some r /\ Chat.started r = true
        /\ s' = Chat.exec (Chat.onerror_handler error) s
  | Chat.UtteranceEnd =>
      exists u q,
        Chat.synthRef s = Some (u :: q)
        /\ s' = match Chat.onend u with
                | Some Chat.ClearIsSpeaking =>
                    Chat.with_isSpeaking (fun _ => false)
                      (Chat.with_synthRef (fun _ => Some q) s)
                | None => Chat.with_synthRef (fun _ => Some q) s
                end
  end.
Proof.
  intro D. destruct e as [value| |o| | |results|error|].
  - cbn in D. inversion D. reflexivity.
  - apply Chat_dispatch_submit in D. exact D.
  - cbn in D. destruct (Chat.inflight s) as [|n] eqn:F; [discriminate|].
    inversion D; subst; clear D. rewrite Chat_exec_settle.
    destruct o as [response|error].
    + rewrite Chat_resume_fulfilled, Chat_speakResponse_eq. cbn.
      split; [lia|]. destruct (Chat.synthRef s); reflexivity.
    + rewrite Chat_resume_rejected. split; [lia|reflexivity].
  - cbn in D. inversion D. reflexivity.
  - cbn in D. inversion D. reflexivity.
  - cbn in D. destruct (Chat.recognitionRef s) as [r|]; [|discriminate].
    destruct (Chat.started r) eqn:St; [|discriminate].
    destruct (Chat.onresult r) as [[]|]; [|discriminate].
    inversion D. exists r. repeat split. exact St.
  - cbn in D. destruct (Chat.recognitionRef s) as [r|]; [|discriminate].
    destruct (Chat.started r) eqn:St; [|discriminate].
    destruct (Chat.onerror r) as [[]|]; [|discriminate].
    inversion D. exists r. repeat split. exact St.
  - cbn in D. rewrite Chat_utterance_end_eq in D.
    destruct (Chat.synthRef s) as [[|u q]|]; try discriminate.
    inversion D. exists u, q. split; reflexivity.
Qed.

Ltac chat_cases e D :=
  apply Chat_dispatch_cases in D;
  destruct e as [?value| |[?response|?error]| | |?results|?error|];
  repeat match type of D with
         | _ /\ _ => let H := fresh "H" in destruct D as [H D]
         | exists _, _ => let x := fresh "x" in destruct D as [x D]
         end;
  subst.

(** The environment is read, never written. *)
Lemma Chat_window_fixed (e : Chat.Event) (s s' : Chat.State) :
  Chat.dispatch e s = Some s' -> Chat.window s' = Chat.window s.
Proof.
  intro D. chat_cases e D; try reflexivity.
  - destruct (blank (Chat.input s)); reflexivity.
  - destruct (Chat.synthRef s); reflexivity.
  - rewrite Chat_mic_eq. destruct (Chat.isListening s); [reflexivity|].
    destruct (Chat.hasSpeechRecognition (Chat.window s)); reflexivity.
  - rewrite Chat_speaker_eq. destruct (Chat.isSpeaking s).
    + destruct (Chat.synthRef s); reflexivity.
    + destruct (nth_error (Chat.messages s) (length (Chat.messages s) - 1));
        [|reflexivity].
      apply Chat_speakResponse_frame.
  - destruct (Chat.onend x) as [[]|]; reflexivity.
Qed.

(** Only the microphone button and a recognition error touch the
    recognition object and the listening flag. *)
Lemma Chat_recognition_frame (e : Chat.Event) (s s' : Chat.State) :
  Chat.dispatch e s = Some s' ->
  match e with
  | Chat.MicClick | Chat.RecognitionError _ => True
  | _ =>
      Chat.recognitionRef s' = Chat.recognitionRef s
      /\ Chat.isListening s' = Chat.isListening s
  end.
Proof.
  intro D. chat_cases e D; try exact I; try (split; reflexivity).
  - destruct (blank (Chat.input s)); split; reflexivity.
  - destruct (Chat.synthRef s); split; reflexivity.
  - rewrite Chat_speaker_eq. destruct (Chat.isSpeaking s).
    + destruct (Chat.synthRef s); split; reflexivity.
    + destruct (nth_error (Chat.messages s) (length (Chat.messages s) - 1));
        [|split; reflexivity].
      destruct (Chat_speakResponse_frame (content m) s)
        as (_ & _ & _ & _ & _ & _ & _ & _ & Hl & Hr).
      split; assumption.
  - destruct (Chat.onend x) as [[]|]; split; reflexivity.
Qed.

(** Only the speaker button, a response and an ended utterance touch the
    speech output and the speaking flag. *)
Lemma Chat_speech_frame (e : Chat.Event) (s s' : Chat.State) :
  Chat.dispatch e s = Some s' ->
  match e with
  | Chat.SpeakerClick | Chat.Settle (Fulfilled _) | Chat.UtteranceEnd => True
  | _ =>
      Chat.synthRef s' = Chat.synthRef s /\ Chat.isSpeaking s' = Chat.isSpeaking s
  end.
Proof.
  intro D. chat_cases e D; try exact I; try (split; reflexivity).
  - destruct (blank (Chat.input s)); split; reflexivity.
  - rewrite Chat_mic_eq. destruct (Chat.isListening s); [split; reflexivity|].
    destruct (Chat.hasSpeechRecognition (Chat.window s)); split; reflexivity.
Qed.

(** ** Voice input: the flag and the recognition object *)

Local Abbreviation chat_rec_inv s :=
  ((Chat.hasSpeechRecognition (Chat.window s) = false -> Chat.recognitionRef s = None)
   /\ forall r,
        Chat.recognitionRef s = Some r ->
        Chat.started r = Chat.isListening s
        /\ Chat.continuous r = true
        /\ Chat.interimResults r = true
        /\ Chat.onresult r = Some Chat.SetInputToTranscript
        /\ Chat.onerror r = Some Chat.LogAndStopListening).

Lemma Chat_rec_inv_step (e : Chat.Event) (s s' : Chat.State) :
  chat_rec_inv s -> Chat.dispatch e s = Some s' -> chat_rec_inv s'.
Proof.
  intros (Hnone & Hobj) D.
  pose proof (Chat_window_fixed e s s' D) as W.
  pose proof (Chat_recognition_frame e s s' D) as Fr.
  destruct e;
    try (destruct Fr as (Fr1 & Fr2); rewrite W, Fr1, Fr2; split; assumption).
  - (* the microphone button *)
    apply Chat_dispatch_cases in D. subst s'. rewrite Chat_mic_eq in *.
    destruct (Chat.isListening s) eqn:L.
    + cbn in *. split.
      * intro H. rewrite (Hnone H). reflexivity.
      * intros r Hr. destruct (Chat.recognitionRef s) as [r0|]; [|discriminate].
        cbn in Hr. inversion Hr; subst; clear Hr.
        destruct (Hobj r0 eq_refl) as (_ & Hc & Hi & Hres & Herr).
        cbn. repeat split; assumption.
    + destruct (Chat.hasSpeechRecognition (Chat.window s)) eqn:SR; cbn in *.
      * rewrite SR. split; [discriminate|].
        intros r Hr. inversion Hr; subst. cbn. repeat split.
      * rewrite SR. split; [exact Hnone|].
        intros r Hr. rewrite (Hnone eq_refl) in Hr. discriminate.
  - (* a recognition error *)
    apply Chat_dispatch_cases in D. destruct D as (r0 & Hr0 & St & ->).
    rewrite Chat_onerror_eq in *. cbn in *. split.
    + intro H. rewrite (Hnone H). reflexivity.
    + intros r Hr. rewrite Hr0 in Hr. cbn in Hr. inversion Hr; subst; clear Hr.
      destruct (Hobj r0 Hr0) as (_ & Hc & Hi & Hres & Herr).
      cbn. repeat split; assumption.
Qed.

Lemma Chat_rec_inv_reachable (s : Chat.State) :
  Chat.reachable s -> chat_rec_inv s.
Proof.
  intros (w & events & Hrun).
  refine (Chat_run_invariant (fun s => chat_rec_inv s) _ events _ _ _ Hrun).
  - intros e s0 s1. apply Chat_rec_inv_step.
  - cbn. split; [reflexivity|discriminate].
Qed.

(** ** Speech output: the flag, the queue and the transcript *)

Local Abbreviation chat_speech_inv s :=
  (Chat.messages s <> []
   /\ (Chat.isSpeaking s = true -> exists u q, Chat.synthRef s = Some (u :: q))
   /\ (Chat.hasSpeechSynthesis (Chat.window s) = false -> Chat.synthRef s = None)
   /\ (Chat.hasSpeechSynthesis (Chat.window s) = true -> Chat.synthRef s <> None)
   /\ forall q u,
        Chat.synthRef s = Some q -> In u q ->
        Chat.onend u = Some Chat.ClearIsSpeaking
        /\ exists m, In m (Chat.messages s) /\ content m = Chat.u_text u).

Lemma nonempty_app_cons {A} (l : list A) (x : A) : l ++ [x] <> [].
Proof. destruct l; discriminate. Qed.

Lemma nth_error_last_In {A} (l : list A) (m : A) :
  nth_error l (length l - 1) = Some m -> In m l.
Proof. intro H. exact (nth_error_In l _ H). Qed.

Lemma Chat_speech_inv_step (e : Chat.Event) (s s' : Chat.State) :
  chat_speech_inv s -> Chat.dispatch e s = Some s' -> chat_speech_inv s'.
Proof.
  intros (Hne & Hflag & Hno & Hyes & Hq) D.
  pose proof (Chat_window_fixed e s s' D) as W. rewrite W.
  pose proof (Chat_speech_frame e s s' D) as Fs.
  pose proof (Chat_voice_frame e s s' D) as Fv.
  destruct e as [value| |[response|error]| | |results|error|].
  - (* typing *)
    destruct Fs as (F1 & F2). destruct Fv as (Fm & _).
    rewrite F1, F2, Fm.
    exact (conj Hne (conj Hflag (conj Hno (conj Hyes Hq)))).
  - (* a submission *)
    destruct Fs as (F1 & F2). rewrite F1, F2.
    apply Chat_dispatch_cases in D. destruct D as (_ & ->).
    destruct (blank (Chat.input s));
      [exact (conj Hne (conj Hflag (conj Hno (conj Hyes Hq))))|].
    cbn. split; [apply nonempty_app_cons|]. repeat split; try assumption.
    + apply (Hq q u H H0).
    + destruct (Hq q u H H0) as (_ & m & Hin & Hc).
      exists m. split; [apply in_or_app; left; exact Hin|exact Hc].
  - (* a response *)
    apply Chat_dispatch_cases in D. destruct D as (_ & ->).
    destruct (Chat.synthRef s) as [q0|] eqn:Hs; cbn; rewrite ?Hs; cbn.
    + split; [apply nonempty_app_cons|]. split.
      * intros _. unfold Chat.synth_speak.
        destruct q0 as [|u0 q0]; cbn; eexists; eexists; reflexivity.
      * split; [intro H; discriminate (Hno H)|]. split; [discriminate|].
        intros q u Hsome Hin. inversion Hsome; subst; clear Hsome.
        unfold Chat.synth_speak in Hin. apply in_app_or in Hin.
        destruct Hin as [Hin|[<-|[]]].
        -- destruct (Hq q0 u eq_refl Hin) as (He & m & Hm & Hc).
           split; [exact He|]. exists m.
           split; [apply in_or_app; left; exact Hm|exact Hc].
        -- split; [reflexivity|].
           exists {| role := assistant; content := response |}.
           split; [apply in_or_app; right; left; reflexivity|reflexivity].
    + split; [apply nonempty_app_cons|]. split; [exact Hflag|].
      split; [intros _; reflexivity|]. split; [exact Hyes|].
      intros q u Hsome. discriminate.
  - (* a failed request *)
    destruct Fs as (F1 & F2). rewrite F1, F2.
    apply Chat_dispatch_cases in D. destruct D as (_ & ->).
    cbn. split; [apply nonempty_app_cons|]. repeat split; try assumption.
    + apply (Hq q u H H0).
    + destruct (Hq q u H H0) as (_ & m & Hin & Hc).
      exists m. split; [apply in_or_app; left; exact Hin|exact Hc].
  - (* the microphone button *)
    destruct Fs as (F1 & F2). destruct Fv as (Fm & _).
    rewrite F1, F2, Fm.
    exact (conj Hne (conj Hflag (conj Hno (conj Hyes Hq)))).
  - (* the speaker button *)
    destruct Fv as (Fm & _). rewrite Fm.
    apply Chat_dispatch_cases in D. subst s'. rewrite Chat_speaker_eq.
    destruct (Chat.isSpeaking s) eqn:Sp.
    + destruct (Hflag eq_refl) as (u0 & q0 & Hs). rewrite Hs. cbn. rewrite Hs. cbn.
      split; [exact Hne|]. split; [discriminate|].
      split; [intro H; rewrite (Hno H) in Hs; discriminate|].
      split; [discriminate|].
      intros q u Hsome Hin. inversion Hsome; subst. destruct Hin.
    + destruct (nth_error (Chat.messages s) (length (Chat.messages s) - 1))
        as [m|] eqn:Hlast.
      * rewrite Chat_speakResponse_eq. cbn.
        destruct (Chat.synthRef s) as [q0|] eqn:Hs; cbn; rewrite ?Hs, ?Sp; cbn.
        -- split; [exact Hne|]. split.
           ++ intros _. unfold Chat.synth_speak.
              destruct q0 as [|u0 q0]; cbn; eexists; eexists; reflexivity.
           ++ split; [intro H; discriminate (Hno H)|]. split; [discriminate|].
              intros q u Hsome Hin. inversion Hsome; subst; clear Hsome.
              unfold Chat.synth_speak in Hin. apply in_app_or in Hin.
              destruct Hin as [Hin|[<-|[]]].
              ** apply (Hq q0 u eq_refl Hin).
              ** split; [reflexivity|]. exists m.
                 split; [exact (nth_error_last_In _ _ Hlast)|reflexivity].
        -- split; [exact Hne|]. split; [discriminate|].
           split; [intros _; reflexivity|]. split; [exact Hyes|].
           intros q u Hsome. discriminate.
      * cbn. rewrite Sp. exact (conj Hne (conj Hflag (conj Hno (conj Hyes Hq)))).
  - (* a recognition result *)
    destruct Fs as (F1 & F2). destruct Fv as (Fm & _).
    rewrite F1, F2, Fm.
    exact (conj Hne (conj Hflag (conj Hno (conj Hyes Hq)))).
  - (* a recognition error *)
    destruct Fs as (F1 & F2). destruct Fv as (Fm & _).
    rewrite F1, F2, Fm.
    exact (conj Hne (conj Hflag (conj Hno (conj Hyes Hq)))).
  - (* an utterance has been spoken *)
    destruct Fv as (Fm & _). rewrite Fm.
    apply Chat_dispatch_cases in D. destruct D as (u0 & q0 & Hs & ->).
    destruct (Hq (u0 :: q0) u0 Hs (or_introl eq_refl)) as (He & _).
    rewrite He. cbn. split; [exact Hne|]. split; [discriminate|].
    split; [intro H; rewrite (Hno H) in Hs; discriminate|].
    split; [discriminate|].
    intros q u Hsome Hin. inversion Hsome; subst; clear Hsome.
    apply (Hq (u0 :: q) u Hs). right. exact Hin.
Qed.

Lemma Chat_speech_inv_reachable (s : Chat.State) :
  Chat.reachable s -> chat_speech_inv s.
Proof.
  intros (w & events & Hrun).
  refine (Chat_run_invariant (fun s => chat_speech_inv s) _ events _ _ _ Hrun).
  - intros e s0 s1. apply Chat_speech_inv_step.
  - cbn. split; [discriminate|]. split; [discriminate|].
    destruct (Chat.hasSpeechSynthesis w).
    + split; [discriminate|]. split; [discriminate|].
      intros q u Hsome Hin. inversion Hsome; subst. destruct Hin.
    + split; [reflexivity|]. split; [discriminate|].
      intros q u Hsome. discriminate.
Qed.

(** ** Exceptions no handler catches *)

Local Abbreviation chat_uncaught_inv s :=
  (Chat.messages s <> []
   /\ Forall (fun e => e = js "TypeError: SpeechRecognition is not a constructor"
                       /\ Chat.hasSpeechRecognition (Chat.window s) = false)
             (Chat.uncaught s)).

Lemma Chat_uncaught_inv_step (e : Chat.Event) (s s' : Chat.State) :
  chat_uncaught_inv s -> Chat.dispatch e s = Some s' -> chat_uncaught_inv s'.
Proof.
  intros (Hne & Hu) D.
  pose proof (Chat_window_fixed e s s' D) as W. rewrite W.
  chat_cases e D; try (split; assumption).
  - destruct (blank (Chat.input s)); [split; assumption|].
    cbn. split; [apply nonempty_app_cons|exact Hu].
  - destruct (Chat.synthRef s); cbn; (split; [apply nonempty_app_cons|exact Hu]).
  - cbn. split; [apply nonempty_app_cons|exact Hu].
  - rewrite Chat_mic_eq. destruct (Chat.isListening s); [split; assumption|].
    destruct (Chat.hasSpeechRecognition (Chat.window s)) eqn:SR;
      [split; assumption|].
    cbn. split; [exact Hne|]. apply Forall_app. split; [exact Hu|].
    constructor; [split; reflexivity|constructor].
  - rewrite Chat_speaker_eq. destruct (Chat.isSpeaking s).
    + destruct (Chat.synthRef s); split; assumption.
    + destruct (exists_last Hne) as (earlier & m & Hl).
      assert (Hn : nth_error (Chat.messages s) (length (Chat.messages s) - 1)
                   = Some m) by (rewrite Hl; apply nth_error_last_entry).
      rewrite Hn.
      destruct (Chat_speakResponse_frame (content m) s)
        as (Hm & _ & _ & _ & _ & _ & Hunc & _).
      rewrite Hm, Hunc. split; assumption.
  - destruct (Chat.onend x) as [[]|]; split; assumption.
Qed.

Lemma Chat_uncaught_inv_reachable (s : Chat.State) :
  Chat.reachable s -> chat_uncaught_inv s.
Proof.
  intros (w & events & Hrun).
  refine (Chat_run_invariant (fun s => chat_uncaught_inv s) _ events _ _ _ Hrun).
  - intros e s0 s1. apply Chat_uncaught_inv_step.
  - cbn. split; [discriminate|constructor].
Qed.

(** ** The transcript against the requests *)

Lemma user_entries_app (l1 l2 : list Message) :
  user_entries (l1 ++ l2) = user_entries l1 ++ user_entries l2.
Proof. unfold user_entries. apply filter_app. Qed.

Local Abbreviation chat_count_inv s :=
  (Chat.inflight s = (if Chat.isTyping s then 1 else 0)
   /\ map message (Chat.network s) = map content (user_entries (Chat.messages s))
   /\ length (Chat.messages s) + (if Chat.isTyping s then 1 else 0)
      = 1 + 2 * length (Chat.network s)).

Lemma Chat_count_inv_step (e : Chat.Event) (s s' : Chat.State) :
  chat_count_inv s -> Chat.dispatch e s = Some s' -> chat_count_inv s'.
Proof.
  intros (Hf & Hu & Hl) D.
  pose proof (Chat_voice_frame e s s' D) as Fr.
  destruct e;
    try (destruct Fr as (Fm & Ft & Fn & Ff & _);
         rewrite Fm, Ft, Fn, Ff; repeat split; assumption).
  - apply Chat_dispatch_submit in D. destruct D as (T & ->).
    destruct (blank (Chat.input s)); [repeat split; assumption|].
    cbn. rewrite T in *. rewrite Hf, user_entries_app, !map_app, Hu, !length_app.
    cbn. repeat split. lia.
  - apply Chat_dispatch_settle in D.
    destruct D as (Pos & Dm & Dt & Dn & Df & _).
    rewrite Dm, Dt, Dn, Df.
    destruct (Chat.isTyping s); [|rewrite Hf in Pos; lia].
    rewrite Hf, user_entries_app, map_app, length_app. cbn.
    rewrite app_nil_r. repeat split; [exact Hu|lia].
Qed.

Lemma Chat_count_inv_reachable (s : Chat.State) :
  Chat.reachable s -> chat_count_inv s.
Proof.
  intros (w & events & Hrun).
  refine (Chat_run_invariant (fun s => chat_count_inv s) _ events _ _ _ Hrun).
  - intros e s0 s1. apply Chat_count_inv_step.
  - cbn. repeat split.
Qed.

Local Abbreviation landing_count_inv s :=
  (Landing.inflight s = (if Landing.isTyping s then 1 else 0)
   /\ map message (Landing.network s)
      = map content (user_entries (Landing.messages s))
   /\ length (Landing.messages s) + (if Landing.isTyping s then 1 else 0)
      = 1 + 2 * length (Landing.network s)
   /\ Landing.uncaught s = []).

Lemma Landing_uncaught_step (e : Landing.Event) (s s' : Landing.State) :
  Landing.dispatch e s = Some s' -> Landing.uncaught s' = Landing.uncaught s.
Proof.
  intro D. destruct e as [value| |o].
  - cbn in D. inversion D. reflexivity.
  - apply Landing_dispatch_submit in D. destruct D as (_ & ->).
    destruct (blank (Landing.input s)); reflexivity.
  - cbn in D. destruct (Landing.inflight s); [discriminate|].
    inversion D; subst; clear D.
    unfold Landing.exec, Landing.settled_one. eff_unfold.
    rewrite Landing_resume_eq. destruct o; reflexivity.
Qed.

Lemma Landing_count_inv_step (e : Landing.Event) (s s' : Landing.State) :
  landing_count_inv s -> Landing.dispatch e s = Some s' -> landing_count_inv s'.
Proof.
  intros (Hf & Hu & Hl & Hunc) D.
  pose proof (Landing_uncaught_step e s s' D) as U. rewrite U.
  destruct e as [value| |o].
  - apply Landing_dispatch_change in D. destruct D as (Fm & Ft & Fn & Ff & _).
    rewrite Fm, Ft, Fn, Ff. repeat split; assumption.
  - apply Landing_dispatch_submit in D. destruct D as (T & ->).
    destruct (blank (Landing.input s)); [repeat split; assumption|].
    cbn. rewrite T in *. rewrite Hf, user_entries_app, !map_app, Hu, !length_app.
    cbn. repeat split; [lia|exact Hunc].
  - apply Landing_dispatch_settle in D.
    destruct D as (Pos & Dm & Dt & Dn & Df & _).
    rewrite Dm, Dt, Dn, Df.
    destruct (Landing.isTyping s); [|rewrite Hf in Pos; lia].
    rewrite Hf, user_entries_app, map_app, length_app. cbn.
    rewrite app_nil_r. repeat split; [exact Hu|lia|exact Hunc].
Qed.

Lemma Landing_count_inv_reachable (s : Landing.State) :
  Landing.reachable s -> landing_count_inv s.
Proof.
  intros (key & events & Hrun).
  refine (Landing_run_invariant (fun s => landing_count_inv s) _ events _ _ _ Hrun).
  - intros e s0 s1. apply Landing_count_inv_step.
  - cbn. repeat split.
Qed.

(** ** Nothing is ever taken back *)

Lemma Chat_step_appends (e : Chat.Event) (s s' : Chat.State) :
  Chat.dispatch e s = Some s' ->
  exists added sent logged,
    Chat.messages s' = Chat.messages s ++ added
    /\ Chat.network s' = Chat.network s ++ sent
    /\ Chat.console s' = Chat.console s ++ logged.
Proof.
  intro D. chat_cases e D.
  - exists [], [], []. cbn. rewrite !app_nil_r. repeat split.
  - destruct (blank (Chat.input s)).
    + exists [], [], []. rewrite !app_nil_r. repeat split.
    + exists [ {| role := user; content := Chat.input s |} ],
             [runChat_request (Chat.API_KEY (Chat.window s)) (Chat.input s)], [].
      cbn. rewrite app_nil_r. repeat split.
  - exists [ {| role := assistant; content := response |} ], [], [].
    destruct (Chat.synthRef s); cbn; rewrite !app_nil_r; repeat split.
  - exists [ {| role := assistant; content := ERROR_TEXT |} ], [],
           [ {| label := js "Error:"; logged := error |} ].
    cbn. rewrite app_nil_r. repeat split.
  - exists [], [], []. rewrite Chat_mic_eq, !app_nil_r.
    destruct (Chat.isListening s); [repeat split|].
    destruct (Chat.hasSpeechRecognition (Chat.window s)); repeat split.
  - exists [], [], []. rewrite Chat_speaker_eq, !app_nil_r.
    destruct (Chat.isSpeaking s).
    + destruct (Chat.synthRef s); repeat split.
    + destruct (nth_error (Chat.messages s) (length (Chat.messages s) - 1));
        [|repeat split].
      destruct (Chat_speakResponse_frame (content m) s)
        as (Hm & _ & _ & Hn & _ & Hc & _).
      rewrite Hm, Hn, Hc. repeat split.
  - exists [], [], []. cbn. rewrite !app_nil_r. repeat split.
  - exists [], [], [ {| label := js "Speech recognition error"; logged := error |} ].
    rewrite Chat_onerror_eq. cbn. rewrite !app_nil_r. repeat split.
  - exists [], [], []. rewrite !app_nil_r.
    destruct (Chat.onend x) as [[]|]; repeat split.
Qed.

Lemma Landing_step_appends (e : Landing.Event) (s s' : Landing.State) :
  Landing.dispatch e s = Some s' ->
  exists added sent logged,
    Landing.messages s' = Landing.messages s ++ added
    /\ Landing.network s' = Landing.network s ++ sent
    /\ Landing.console s' = Landing.console s ++ logged.
Proof.
  intro D. destruct e as [value| |o].
  - cbn in D. inversion D. exists [], [], []. cbn. rewrite !app_nil_r.
    repeat split.
  - apply Landing_dispatch_submit in D. destruct D as (_ & ->).
    destruct (blank (Landing.input s)).
    + exists [], [], []. rewrite !app_nil_r. repeat split.
    + exists [ {| role := user; content := Landing.input s |} ],
             [runChat_request (Landing.API_KEY s) (Landing.input s)], [].
      cbn. rewrite app_nil_r. repeat split.
  - cbn in D. destruct (Landing.inflight s); [discriminate|].
    inversion D; subst; clear D.
    unfold Landing.exec, Landing.settled_one. eff_unfold.
    rewrite Landing_resume_eq. destruct o as [response|error]; cbn.
    + exists [ {| role := assistant; content := response |} ], [], [].
      rewrite !app_nil_r. repeat split.
    + exists [ {| role := assistant; content := ERROR_TEXT |} ], [],
             [ {| label := js "Error:"; logged := error |} ].
      rewrite app_nil_r. repeat split.
Qed.

(** X1.  Whatever events a session goes through, in either component, the
    transcript, the list of requests and the console only grow at the end:
    what they held before is a prefix of what they hold after.  No entry is
    edited, reordered or removed. *)
Theorem transcript_requests_and_log_only_grow :
  (forall (events : list Chat.Event) (s s' : Chat.State),
     Chat.run events s = Some s' ->
     exists added sent logged,
       Chat.messages s' = Chat.messages s ++ added
       /\ Chat.network s' = Chat.network s ++ sent
       /\ Chat.console s' = Chat.console s ++ logged)
  /\ (forall (events : list Landing.Event) (s s' : Landing.State),
        Landing.run events s = Some s' ->
        exists added sent logged,
          Landing.messages s' = Landing.messages s ++ added
          /\ Landing.network s' = Landing.network s ++ sent
          /\ Landing.console s' = Landing.console s ++ logged).
Proof.
  split.
  - induction events as [|e rest IH]; intros s s' Hrun; cbn in Hrun.
    + inversion Hrun. exists [], [], []. rewrite !app_nil_r. repeat split.
    + destruct (Chat.dispatch e s) as [s1|] eqn:D; [|discriminate].
      destruct (Chat_step_appends e s s1 D) as (a1 & n1 & c1 & Hm & Hn & Hc).
      destruct (IH s1 s' Hrun) as (a2 & n2 & c2 & Hm2 & Hn2 & Hc2).
      exists (a1 ++ a2), (n1 ++ n2), (c1 ++ c2).
      rewrite Hm2, Hn2, Hc2, Hm, Hn, Hc, !app_assoc. repeat split.
  - induction events as [|e rest IH]; intros s s' Hrun; cbn in Hrun.
    + inversion Hrun. exists [], [], []. rewrite !app_nil_r. repeat split.
    + destruct (Landing.dispatch e s) as [s1|] eqn:D; [|discriminate].
      destruct (Landing_step_appends e s s1 D) as (a1 & n1 & c1 & Hm & Hn & Hc).
      destruct (IH s1 s' Hrun) as (a2 & n2 & c2 & Hm2 & Hn2 & Hc2).
      exists (a1 ++ a2), (n1 ++ n2), (c1 ++ c2).
      rewrite Hm2, Hn2, Hc2, Hm, Hn, Hc, !app_assoc. repeat split.
Qed.

Lemma transcript_requests_and_log_only_grow_witness :
  exists added sent logged,
    Chat.messages
      (Chat.exec Chat.handleSubmit_start
         (Chat.with_input (fun _ => js "I feel anxious") (Chat.init Chat.browser)))
    = Chat.messages (Chat.init Chat.browser) ++ added
    /\ Chat.network
         (Chat.exec Chat.handleSubmit_start
            (Chat.with_input (fun _ => js "I feel anxious") (Chat.init Chat.browser)))
       = Chat.network (Chat.init Chat.browser) ++ sent
    /\ Chat.console
         (Chat.exec Chat.handleSubmit_start
            (Chat.with_input (fun _ => js "I feel anxious") (Chat.init Chat.browser)))
       = Chat.console (Chat.init Chat.browser) ++ logged.
Proof.
  exact (proj1 transcript_requests_and_log_only_grow
           [Chat.Change (js "I feel anxious"); Chat.Submit]
           (Chat.init Chat.browser)
           (Chat.exec Chat.handleSubmit_start
              (Chat.with_input (fun _ => js "I feel anxious")
                 (Chat.init Chat.browser)))
           eq_refl).
Defined.

(** X2.  In every state a session reaches, in either component, the
    messages of the requests sent so far are, in order, exactly the texts
    of the user entries of the transcript: every user entry was sent once
    and nothing else was.  User and assistant entries take turns after the
    greeting, so the transcript holds one entry plus two per request, less
    the answer still awaited. *)
Theorem user_entries_are_the_requests_sent :
  (forall s : Chat.State,
     Chat.reachable s ->
     map message (Chat.network s) = map content (user_entries (Chat.messages s))
     /\ length (Chat.messages s) + (if Chat.isTyping s then 1 else 0)
        = 1 + 2 * length (Chat.network s))
  /\ (forall s : Landing.State,
        Landing.reachable s ->
        map message (Landing.network s)
        = map content (user_entries (Landing.messages s))
        /\ length (Landing.messages s) + (if Landing.isTyping s then 1 else 0)
           = 1 + 2 * length (Landing.network s)).
Proof.
  split.
  - intros s Hreach. apply Chat_count_inv_reachable in Hreach.
    destruct Hreach as (_ & Hu & Hl). split; assumption.
  - intros s Hreach. apply Landing_count_inv_reachable in Hreach.
    destruct Hreach as (_ & Hu & Hl & _). split; assumption.
Qed.

Lemma user_entries_are_the_requests_sent_witness :
  map message
    (Chat.network
       (Chat.exec Chat.handleSubmit_start
          (Chat.with_input (fun _ => js "I feel anxious") (Chat.init Chat.browser))))
  = map content
      (user_entries
         (Chat.messages
            (Chat.exec Chat.handleSubmit_start
               (Chat.with_input (fun _ => js "I feel anxious")
                  (Chat.init Chat.browser))))).
Proof.
  refine (proj1 (proj1 user_entries_are_the_requests_sent
     (Chat.exec Chat.handleSubmit_start
        (Chat.with_input (fun _ => js "I feel anxious") (Chat.init Chat.browser)))
     _)).
  exists Chat.browser, [Chat.Change (js "I feel anxious"); Chat.Submit].
  reflexivity.
Defined.

(** X3.  No handler of the text-only component ever lets an exception
    escape.  In the component with voice the only exception that escapes a
    handler is the TypeError of [new SpeechRecognition()] in a browser that
    has no speech recognition; with speech recognition there is none, and
    in particular the speaker button always finds a last entry to read. *)
Theorem only_missing_recognition_throws :
  (forall s : Chat.State,
     Chat.reachable s ->
     (Chat.hasSpeechRecognition (Chat.window s) = true -> Chat.uncaught s = [])
     /\ Forall (fun e => e = js "TypeError: SpeechRecognition is not a constructor")
               (Chat.uncaught s))
  /\ (forall s : Landing.State, Landing.reachable s -> Landing.uncaught s = []).
Proof.
  split.
  - intros s Hreach. apply Chat_uncaught_inv_reachable in Hreach.
    destruct Hreach as (_ & Hu). split.
    + intro SR. destruct (Chat.uncaught s) as [|e rest]; [reflexivity|].
      inversion Hu as [|? ? (_ & Hfalse) _]; subst. congruence.
    + eapply Forall_impl; [|exact Hu]. intros e (He & _). exact He.
  - intros s Hreach. apply Landing_count_inv_reachable in Hreach.
    destruct Hreach as (_ & _ & _ & Hu). exact Hu.
Qed.

Lemma only_missing_recognition_throws_witness :
  Chat.uncaught
    (Chat.exec Chat.speakerClick
       (Chat.exec Chat.toggleVoiceInput (Chat.init Chat.browser)))
  = [].
Proof.
  refine (proj1 (proj1 only_missing_recognition_throws
     (Chat.exec Chat.speakerClick
        (Chat.exec Chat.toggleVoiceInput (Chat.init Chat.browser))) _) _).
  - exists Chat.browser, [Chat.MicClick; Chat.SpeakerClick]. reflexivity.
  - reflexivity.
Defined.

Lemma Chat_recognition_while_listening (s : Chat.State) :
  Chat.reachable s ->
  (forall r,
     Chat.recognitionRef s = Some r ->
     Chat.started r = Chat.isListening s
     /\ Chat.continuous r = true
     /\ Chat.interimResults r = true
     /\ Chat.onresult r = Some Chat.SetInputToTranscript
     /\ Chat.onerror r = Some Chat.LogAndStopListening)
  /\ (forall results s',
        Chat.dispatch (Chat.RecognitionResult results) s = Some s' ->
        Chat.isListening s = true /\ Chat.isListening s' = true).
Proof.
  intros Hreach. apply Chat_rec_inv_reachable in Hreach.
  destruct Hreach as (_ & Hobj). split; [exact Hobj|].
  intros results s' D. apply Chat_dispatch_cases in D.
  destruct D as (r & Hr & St & ->).
  destruct (Hobj r Hr) as (Hs & _). cbn. rewrite <- Hs, St. split; reflexivity.
Qed.

(** X5.  In a browser without speech recognition the component never
    holds a recognition object, so no recognition event is ever delivered.
    The microphone button still raises the listening flag and shows the
    waveform before [new SpeechRecognition()] throws; the exception
    escapes, the flag stays up, and the next click puts it down again
    without throwing. *)
Theorem microphone_without_recognition :
  forall s : Chat.State,
    Chat.reachable s ->
    Chat.hasSpeechRecognition (Chat.window s) = false ->
    Chat.recognitionRef s = None
    /\ (forall results, Chat.dispatch (Chat.RecognitionResult results) s = None)
    /\ (forall error, Chat.dispatch (Chat.RecognitionError error) s = None)
    /\ (Chat.isListening s = false ->
        Chat.isListening (Chat.exec Chat.toggleVoiceInput s) = true
        /\ Chat.waveformControls (Chat.exec Chat.toggleVoiceInput s) = Chat.WaveShown
        /\ Chat.recognitionRef (Chat.exec Chat.toggleVoiceInput s) = None
        /\ Chat.uncaught (Chat.exec Chat.toggleVoiceInput s)
           = Chat.uncaught s
             ++ [js "TypeError: SpeechRecognition is not a constructor"]
        /\ Chat.isListening
             (Chat.exec Chat.toggleVoiceInput (Chat.exec Chat.toggleVoiceInput s))
           = false
        /\ Chat.uncaught
             (Chat.exec Chat.toggleVoiceInput (Chat.exec Chat.toggleVoiceInput s))
           = Chat.uncaught (Chat.exec Chat.toggleVoiceInput s)).
Proof.
  intros s Hreach SR. apply Chat_rec_inv_reachable in Hreach.
  destruct Hreach as (Hnone & _). pose proof (Hnone SR) as Hr.
  split; [exact Hr|]. split; [|split].
  - intro results. cbn. rewrite Hr. reflexivity.
  - intro error. cbn. rewrite Hr. reflexivity.
  - intro L. rewrite (Chat_mic_eq (Chat.exec Chat.toggleVoiceInput s)).
    rewrite Chat_mic_eq, L, SR. cbn. rewrite Hr. repeat split.
Qed.

Lemma microphone_without_recognition_witness :
  Chat.recognitionRef
    (Chat.exec Chat.toggleVoiceInput
       (Chat.init {| Chat.API_KEY := js "key"; Chat.hasSpeechRecognition := false;
                     Chat.hasSpeechSynthesis := true |}))
  = None.
Proof.
  refine (proj1 (microphone_without_recognition
     (Chat.exec Chat.toggleVoiceInput
        (Chat.init {| Chat.API_KEY := js "key"; Chat.hasSpeechRecognition := false;
                      Chat.hasSpeechSynthesis := true |})) _ _)).
  - exists {| Chat.API_KEY := js "key"; Chat.hasSpeechRecognition := false;
              Chat.hasSpeechSynthesis := true |}, [Chat.MicClick].
    reflexivity.
  - reflexivity.
Defined.

(** X7.  In every state a session reaches, every utterance the platform
    still has to speak carries the handler that lowers the speaking flag,
    and its text is the content of an entry of the transcript: the
    component never speaks anything that is not in the conversation. *)
Theorem spoken_text_is_transcript_text :
  forall (s : Chat.State) (q : Chat.SpeechSynthesis)
         (u : Chat.SpeechSynthesisUtterance),
    Chat.reachable s ->
    Chat.synthRef s = Some q ->
    In u q ->
    Chat.onend u = Some Chat.ClearIsSpeaking
    /\ exists m, In m (Chat.messages s) /\ content m = Chat.u_text u.
Proof.
  intros s q u Hreach Hs Hin. apply Chat_speech_inv_reachable in Hreach.
  destruct Hreach as (_ & _ & _ & _ & Hq). exact (Hq q u Hs Hin).
Qed.

Lemma spoken_text_is_transcript_text_witness :
  Chat.onend {| Chat.u_text := Chat.GREETING;
                Chat.onend := Some Chat.ClearIsSpeaking |}
  = Some Chat.ClearIsSpeaking
  /\ exists m,
       In m (Chat.messages (Chat.exec Chat.speakerClick (Chat.init Chat.browser)))
       /\ content m
          = Chat.u_text {| Chat.u_text := Chat.GREETING;
                           Chat.onend := Some Chat.ClearIsSpeaking |}.
Proof.
  refine (spoken_text_is_transcript_text
     (Chat.exec Chat.speakerClick (Chat.init Chat.browser))
     [ {| Chat.u_text := Chat.GREETING; Chat.onend := Some Chat.ClearIsSpeaking |} ]
     {| Chat.u_text := Chat.GREETING; Chat.onend := Some Chat.ClearIsSpeaking |}
     _ _ _).
  - exists Chat.browser, [Chat.SpeakerClick]. reflexivity.
  - reflexivity.
  - left. reflexivity.
Defined.

(** X8.  While the speaking flag is up the speaker button stops the
    speech: it empties the platform's queue, lowering the flag, so that
    every utterance still waiting (a response queued behind the one being
    spoken too) is dropped and no completion event is left to come; the
    transcript is untouched. *)
Theorem speaker_button_cancels_all_queued_speech :
  forall s : Chat.State,
    Chat.reachable s ->
    Chat.isSpeaking s = true ->
    exists s',
      Chat.dispatch Chat.SpeakerClick s = Some s'
      /\ Chat.synthRef s' = Some []
      /\ Chat.isSpeaking s' = false
      /\ Chat.dispatch Chat.UtteranceEnd s' = None
      /\ Chat.messages s' = Chat.messages s
      /\ Chat.uncaught s' = Chat.uncaught s.
Proof.
  intros s Hreach Sp. apply Chat_speech_inv_reachable in Hreach.
  destruct Hreach as (_ & Hflag & _). destruct (Hflag Sp) as (u & q & Hs).
  eexists. split; [reflexivity|].
  rewrite Chat_speaker_eq, Sp, Hs. cbn. rewrite Hs. cbn.
  repeat split. rewrite Chat_utterance_end_eq. cbn. rewrite Hs. reflexivity.
Qed.

Lemma speaker_button_cancels_all_queued_speech_witness :
  exists s',
    Chat.dispatch Chat.SpeakerClick
      (Chat.exec Chat.speakerClick (Chat.init Chat.browser)) = Some s'
    /\ Chat.synthRef s' = Some []
    /\ Chat.isSpeaking s' = false
    /\ Chat.dispatch Chat.UtteranceEnd s' = None
    /\ Chat.messages s'
       = Chat.messages (Chat.exec Chat.speakerClick (Chat.init Chat.browser))
    /\ Chat.uncaught s'
       = Chat.uncaught (Chat.exec Chat.speakerClick (Chat.init Chat.browser)).
Proof.
  refine (speaker_button_cancels_all_queued_speech
     (Chat.exec Chat.speakerClick (Chat.init Chat.browser)) _ _).
  - exists Chat.browser, [Chat.SpeakerClick]. reflexivity.
  - reflexivity.
Defined.

(** X9.  An accepted submission empties the input field, and the settled
    request leaves it empty; so submitting again right after the answer,
    without typing or dictating anything, does nothing at all.  This holds
    in both components, from any state. *)
Theorem resubmit_after_answer_is_noop :
  (forall (s s1 s2 : Chat.State) (o : Settled),
     Chat.dispatch Chat.Submit s = Some s1 ->
     trim (Chat.input s) <> [] ->
     Chat.dispatch (Chat.Settle o) s1 = Some s2 ->
     Chat.input s1 = [] /\ Chat.input s2 = []
     /\ Chat.dispatch Chat.Submit s2 = Some s2)
  /\ (forall (s s1 s2 : Landing.State) (o : Settled),
        Landing.dispatch Landing.Submit s = Some s1 ->
        trim (Landing.input s) <> [] ->
        Landing.dispatch (Landing.Settle o) s1 = Some s2 ->
        Landing.input s1 = [] /\ Landing.input s2 = []
        /\ Landing.dispatch Landing.Submit s2 = Some s2).
Proof.
  split.
  - intros s s1 s2 o D1 Hnb D2.
    apply Chat_dispatch_submit in D1. destruct D1 as (_ & ->).
    rewrite (Chat_nonblank s Hnb) in D2 |- *.
    cbn in D2. inversion D2; subst; clear D2.
    rewrite Chat_exec_settle.
    match goal with
    | |- context [Chat.handleSubmit_resume o ?st] =>
        destruct (Chat_resume_effect o st) as (_ & Ht & _ & _ & _ & _ & Hi)
    end.
    cbn in Ht, Hi. split; [reflexivity|]. split; [exact Hi|].
    cbn. rewrite Ht. f_equal. unfold Chat.exec.
    rewrite Chat_start_blank; [reflexivity|]. rewrite Hi. reflexivity.
  - intros s s1 s2 o D1 Hnb D2.
    apply Landing_dispatch_submit in D1. destruct D1 as (_ & ->).
    assert (B : blank (Landing.input s) = false).
    { destruct (blank (Landing.input s)) eqn:B; [|reflexivity].
      apply trim_nil_iff in B. contradiction. }
    rewrite B in D2 |- *. cbn in D2. inversion D2; subst; clear D2.
    unfold Landing.exec, Landing.settled_one. eff_unfold.
    rewrite Landing_resume_eq. destruct o; cbn; repeat split.
Qed.

Lemma resubmit_after_answer_is_noop_witness :
  Chat.input
    (Chat.exec Chat.handleSubmit_start
       (Chat.with_input (fun _ => js "I feel anxious") (Chat.init Chat.browser)))
  = [].
Proof.
  refine (proj1 (proj1 resubmit_after_answer_is_noop
     (Chat.with_input (fun _ => js "I feel anxious") (Chat.init Chat.browser))
     (Chat.exec Chat.handleSubmit_start
        (Chat.with_input (fun _ => js "I feel anxious") (Chat.init Chat.browser)))
     (Chat.exec (bind Chat.settled_one
                   (fun _ => Chat.handleSubmit_resume (Fulfilled (js "Tell me more."))))
        (Chat.exec Chat.handleSubmit_start
           (Chat.with_input (fun _ => js "I feel anxious") (Chat.init Chat.browser))))
     (Fulfilled (js "Tell me more.")) eq_refl _ eq_refl)).
  vm_compute. discriminate.
Defined.

(** X10.  What recognition delivers is what gets sent: after a recognition
    result, a submission appends the joined transcripts as the user entry
    and sends them as the message of the request, without any editing.
    Submitting does not stop the voice capture: the listening flag stays up
    and the recognition object is the same, so the next recognition result
    fills the emptied input field again. *)
Theorem dictated_text_is_sent_and_capture_goes_on :
  forall (s s1 s2 : Chat.State) (results : list Chat.SpeechRecognitionResult),
    Chat.reachable s ->
    Chat.dispatch (Chat.RecognitionResult results) s = Some s1 ->
    trim (join (map (fun result => Chat.transcript (Chat.item0 result)) results))
    <> [] ->
    Chat.dispatch Chat.Submit s1 = Some s2 ->
    Chat.messages s2
    = Chat.messages s
      ++ [ {| role := user;
              content := join (map (fun result => Chat.transcript (Chat.item0 result))
                                   results) |} ]
    /\ Chat.network s2
       = Chat.network s
         ++ [runChat_request (Chat.API_KEY (Chat.window s))
               (join (map (fun result => Chat.transcript (Chat.item0 result)) results))]
    /\ Chat.input s2 = []
    /\ Chat.isListening s2 = true
    /\ Chat.recognitionRef s2 = Chat.recognitionRef s
    /\ forall results',
         exists s3,
           Chat.dispatch (Chat.RecognitionResult results') s2 = Some s3
           /\ Chat.input s3
              = join (map (fun result => Chat.transcript (Chat.item0 result)) results').
Proof.
  intros s s1 s2 results Hreach D1 Hnb D2.
  destruct (Chat_recognition_while_listening s Hreach) as (Hobj & Hres).
  destruct (Hres results s1 D1) as (L & _).
  apply Chat_dispatch_cases in D1. destruct D1 as (r & Hr & St & ->).
  destruct (Hobj r Hr) as (_ & _ & _ & Hon & _).
  apply Chat_dispatch_submit in D2. destruct D2 as (_ & ->).
  assert (B : blank (join (map (fun result => Chat.transcript (Chat.item0 result))
                               results)) = false).
  { destruct (blank _) eqn:B; [|reflexivity].
    apply trim_nil_iff in B. contradiction. }
  change (Chat.input
            (Chat.with_input
               (fun _ => join (map (fun result => Chat.transcript (Chat.item0 result))
                                   results)) s))
    with (join (map (fun result => Chat.transcript (Chat.item0 result)) results)).
  rewrite B. cbn [Chat.messages Chat.network Chat.input Chat.isListening
                  Chat.recognitionRef Chat.window Chat.with_inflight
                  Chat.with_network Chat.with_isTyping Chat.with_input
                  Chat.with_messages].
  repeat split; try assumption.
  intro results'. cbn. rewrite Hr, St, Hon. eexists. split; reflexivity.
Qed.

Lemma dictated_text_is_sent_and_capture_goes_on_witness :
  Chat.messages
    (Chat.exec Chat.handleSubmit_start
       (Chat.with_input (fun _ => js "I feel sad")
          (Chat.exec Chat.toggleVoiceInput (Chat.init Chat.browser))))
  = [ {| role := assistant; content := Chat.GREETING |};
      {| role := user; content := js "I feel sad" |} ].
Proof.
  assert (Hreach : Chat.reachable
            (Chat.exec Chat.toggleVoiceInput (Chat.init Chat.browser))).
  { exists Chat.browser, [Chat.MicClick]. vm_compute. reflexivity. }
  assert (D1 : Chat.dispatch
            (Chat.RecognitionResult
               [ {| Chat.item0 := {| Chat.transcript := js "I feel sad" |};
                    Chat.items := []; Chat.isFinal := false |} ])
            (Chat.exec Chat.toggleVoiceInput (Chat.init Chat.browser))
          = Some (Chat.with_input (fun _ => js "I feel sad")
                    (Chat.exec Chat.toggleVoiceInput (Chat.init Chat.browser)))).
  { vm_compute. reflexivity. }
  assert (Hnb : trim (join (map (fun result => Chat.transcript (Chat.item0 result))
            [ {| Chat.item0 := {| Chat.transcript := js "I feel sad" |};
                 Chat.items := []; Chat.isFinal := false |} ])) <> []).
  { vm_compute. discriminate. }
  assert (D2 : Chat.dispatch Chat.Submit
            (Chat.with_input (fun _ => js "I feel sad")
               (Chat.exec Chat.toggleVoiceInput (Chat.init Chat.browser)))
          = Some (Chat.exec Chat.handleSubmit_start
                    (Chat.with_input (fun _ => js "I feel sad")
                       (Chat.exec Chat.toggleVoiceInput (Chat.init Chat.browser))))).
  { vm_compute. reflexivity. }
  exact (proj1 (dictated_text_is_sent_and_capture_goes_on _ _ _ _ Hreach D1 Hnb D2)).
Defined.

(** X11.  Only real responses are read out.  When a request fails, the
    fallback entry goes into the transcript but the speech queue and the
    speaking flag are left as they were.  When a response arrives in a
    browser with speech synthesis it is added behind whatever is queued
    and the flag goes up; without speech synthesis the response is only
    appended to the transcript. *)
Theorem response_is_read_out_and_fallback_is_not :
  forall s : Chat.State,
    Chat.reachable s ->
    (forall error s',
       Chat.dispatch (Chat.Settle (Rejected error)) s = Some s' ->
       Chat.synthRef s' = Chat.synthRef s
       /\ Chat.isSpeaking s' = Chat.isSpeaking s
       /\ Chat.messages s'
          = Chat.messages s ++ [ {| role := assistant; content := ERROR_TEXT |} ])
    /\ (forall response s',
          Chat.dispatch (Chat.Settle (Fulfilled response)) s = Some s' ->
          Chat.messages s'
          = Chat.messages s ++ [ {| role := assistant; content := response |} ]
          /\ (Chat.hasSpeechSynthesis (Chat.window s) = true ->
              exists q,
                Chat.synthRef s = Some q
                /\ Chat.synthRef s'
                   = Some (q ++ [ {| Chat.u_text := response;
                                     Chat.onend := Some Chat.ClearIsSpeaking |} ])
                /\ Chat.isSpeaking s' = true)
          /\ (Chat.hasSpeechSynthesis (Chat.window s) = false ->
              Chat.synthRef s' = None /\ Chat.isSpeaking s' = false)).
Proof.
  intros s Hreach. apply Chat_speech_inv_reachable in Hreach.
  destruct Hreach as (_ & Hflag & Hno & Hyes & _). split.
  - intros error s' D. apply Chat_dispatch_cases in D. destruct D as (_ & ->).
    cbn. repeat split.
  - intros response s' D. apply Chat_dispatch_cases in D. destruct D as (_ & ->).
    destruct (Chat.synthRef s) as [q|] eqn:Hs; cbn; rewrite ?Hs; cbn.
    + split; [reflexivity|]. split.
      * intros _. exists q. repeat split.
      * intro SS. discriminate (Hno SS).
    + split; [reflexivity|]. split.
      * intro SS. exfalso. exact (Hyes SS eq_refl).
      * intros _. split; [reflexivity|].
        destruct (Chat.isSpeaking s); [|reflexivity].
        destruct (Hflag eq_refl) as (u & q & Hq). discriminate.
Qed.

Lemma response_is_read_out_and_fallback_is_not_witness :
  Chat.synthRef
    (Chat.exec (bind Chat.settled_one
                  (fun _ => Chat.handleSubmit_resume (Rejected (js "fetch failed"))))
       (Chat.exec Chat.handleSubmit_start
          (Chat.with_input (fun _ => js "I feel anxious") (Chat.init Chat.browser))))
  = Chat.synthRef
      (Chat.exec Chat.handleSubmit_start
         (Chat.with_input (fun _ => js "I feel anxious") (Chat.init Chat.browser))).
Proof.
  assert (Hreach : Chat.reachable
            (Chat.exec Chat.handleSubmit_start
               (Chat.with_input (fun _ => js "I feel anxious")
                  (Chat.init Chat.browser)))).
  { exists Chat.browser, [Chat.Change (js "I feel anxious"); Chat.Submit].
    vm_compute. reflexivity. }
  assert (D : Chat.dispatch (Chat.Settle (Rejected (js "fetch failed")))
            (Chat.exec Chat.handleSubmit_start
               (Chat.with_input (fun _ => js "I feel anxious")
                  (Chat.init Chat.browser)))
          = Some (Chat.exec
                    (bind Chat.settled_one
                       (fun _ => Chat.handleSubmit_resume (Rejected (js "fetch failed"))))
                    (Chat.exec Chat.handleSubmit_start
                       (Chat.with_input (fun _ => js "I feel anxious")
                          (Chat.init Chat.browser))))).
  { vm_compute. reflexivity. }
  exact (proj1 (proj1 (response_is_read_out_and_fallback_is_not _ Hreach) _ _ D)).
Defined.

(** ** The page: theme, document class and menu *)

Lemma strict_eq_true_iff (a b : JSString) : Page.strict_eq a b = true <-> a = b.
Proof.
  revert b. induction a as [|x a IH]; intros [|y b]; cbn;
    try (split; [discriminate|discriminate]).
  - split; reflexivity.
  - rewrite andb_true_iff, N.eqb_eq, IH. split.
    + intros (-> & ->). reflexivity.
    + intro H. inversion H. split; reflexivity.
Qed.

Lemma strict_eq_refl (a : JSString) : Page.strict_eq a a = true.
Proof. apply strict_eq_true_iff. reflexivity. Qed.

Lemma strict_eq_sym (a b : JSString) : Page.strict_eq a b = Page.strict_eq b a.
Proof.
  destruct (Page.strict_eq a b) eqn:E1, (Page.strict_eq b a) eqn:E2;
    try reflexivity.
  - apply strict_eq_true_iff in E1. subst. rewrite strict_eq_refl in E2.
    discriminate.
  - apply strict_eq_true_iff in E2. subst. rewrite strict_eq_refl in E1.
    discriminate.
Qed.

Lemma contains_without (t t' : JSString) (tokens : list JSString) :
  Page.contains t' (filter (fun x => negb (Page.strict_eq x t)) tokens)
  = Page.contains t' tokens && negb (Page.strict_eq t' t).
Proof.
  unfold Page.contains. induction tokens as [|x rest IH]; cbn.
  - reflexivity.
  - destruct (Page.strict_eq x t) eqn:Ex; cbn.
    + rewrite IH. destruct (Page.strict_eq t' x) eqn:E'; cbn; [|reflexivity].
      apply strict_eq_true_iff in E', Ex. subst.
      rewrite strict_eq_refl. cbn. apply andb_false_r.
    + rewrite IH. destruct (Page.strict_eq t' x) eqn:E'; cbn; [|reflexivity].
      apply strict_eq_true_iff in E'. subst. rewrite Ex. reflexivity.
Qed.

(** [classList.toggle(t)] flips the presence of [t] and of nothing else. *)
Lemma contains_toggle (t t' : JSString) (tokens : list JSString) :
  Page.contains t' (Page.classList_toggle t tokens)
  = if Page.strict_eq t' t then negb (Page.contains t tokens)
    else Page.contains t' tokens.
Proof.
  unfold Page.classList_toggle.
  destruct (Page.contains t tokens) eqn:C.
  - rewrite contains_without.
    destruct (Page.strict_eq t' t) eqn:E; cbn.
    + apply andb_false_r.
    + apply andb_true_r.
  - unfold Page.contains in *. rewrite existsb_app. cbn. rewrite orb_false_r.
    destruct (Page.strict_eq t' t) eqn:E.
    + apply orb_true_r.
    + apply orb_false_r.
Qed.

Lemma Page_run_step (events : list Page.Event) :
  forall s0 : Page.State,
    (Page.theme s0 = js "light" \/ Page.theme s0 = js "dark") ->
    (Page.theme (Page.run events s0) = js "light"
     \/ Page.theme (Page.run events s0) = js "dark")
    /\ xorb (Page.contains (js "dark") (Page.classList (Page.run events s0)))
            (Page.strict_eq (Page.theme (Page.run events s0)) (js "dark"))
       = xorb (Page.contains (js "dark") (Page.classList s0))
              (Page.strict_eq (Page.theme s0) (js "dark"))
    /\ (forall t, t <> js "dark" ->
          Page.contains t (Page.classList (Page.run events s0))
          = Page.contains t (Page.classList s0)).
Proof.
  induction events as [|e rest IH]; intros s0 Hth.
  - cbn. split; [exact Hth|]. split; reflexivity.
  - change (Page.run (e :: rest) s0) with (Page.run rest (Page.dispatch e s0)).
    destruct e.
    + (* the theme button *)
      assert (Hth' : Page.theme (Page.toggleTheme s0) = js "light"
                     \/ Page.theme (Page.toggleTheme s0) = js "dark").
      { unfold Page.toggleTheme. cbn [Page.theme].
        destruct (Page.strict_eq (Page.theme s0) (js "light"));
          [right|left]; reflexivity. }
      destruct (IH (Page.toggleTheme s0) Hth') as (I1 & I2 & I3).
      split; [exact I1|]. split.
      * cbn [Page.dispatch]. rewrite I2. cbn [Page.toggleTheme Page.classList Page.theme].
        rewrite contains_toggle, strict_eq_refl.
        destruct Hth as [-> | ->]; destruct (Page.contains (js "dark") (Page.classList s0));
          reflexivity.
      * intros t Ht. cbn [Page.dispatch]. rewrite (I3 t Ht).
        cbn [Page.toggleTheme Page.classList]. rewrite contains_toggle.
        destruct (Page.strict_eq t (js "dark")) eqn:E; [|reflexivity].
        apply strict_eq_true_iff in E. contradiction.
    + (* the menu button *)
      exact (IH (Page.menuClick s0) Hth).
Qed.

(** X12.  After any sequence of clicks on a freshly created page the theme
    is "light" or "dark", and the root element of the document carries the
    class "dark" exactly when the theme is dark if it did not carry it
    when the page was created; if it did carry it, for whatever reason,
    the two are opposite for ever: the class is there exactly when the
    theme is light.  No other class of the root element is ever touched. *)
Theorem theme_and_document_class :
  forall (tokens : list JSString) (events : list Page.Event),
    (Page.theme (Page.run events (Page.init tokens)) = js "light"
     \/ Page.theme (Page.run events (Page.init tokens)) = js "dark")
    /\ Page.contains (js "dark") (Page.classList (Page.run events (Page.init tokens)))
       = xorb (Page.contains (js "dark") tokens)
              (Page.strict_eq (Page.theme (Page.run events (Page.init tokens)))
                              (js "dark"))
    /\ (forall t, t <> js "dark" ->
          Page.contains t (Page.classList (Page.run events (Page.init tokens)))
          = Page.contains t tokens).
Proof.
  intros tokens events.
  destruct (Page_run_step events (Page.init tokens) (or_introl eq_refl))
    as (I1 & I2 & I3).
  split; [exact I1|]. split; [|exact I3].
  cbn [Page.init Page.classList Page.theme] in I2.
  change (Page.strict_eq (js "light") (js "dark")) with false in I2.
  rewrite xorb_false_r in I2. rewrite <- I2.
  destruct (Page.contains _ _), (Page.strict_eq _ _); reflexivity.
Qed.

Lemma Page_run_parity (events : list Page.Event) :
  forall s0 : Page.State,
    (Page.theme s0 = js "light" \/ Page.theme s0 = js "dark") ->
    Page.isMenuOpen (Page.run events s0)
    = xorb (Page.isMenuOpen s0)
           (Nat.odd (length (filter Page.is_menu_click events)))
    /\ Page.strict_eq (Page.theme (Page.run events s0)) (js "dark")
       = xorb (Page.strict_eq (Page.theme s0) (js "dark"))
              (Nat.odd (length (filter Page.is_theme_click events))).
Proof.
  induction events as [|e rest IH]; intros s0 Hth.
  - cbn [Page.run fold_left filter length Nat.odd]. cbn [Nat.odd].
    rewrite !xorb_false_r. split; reflexivity.
  - change (Page.run (e :: rest) s0) with (Page.run rest (Page.dispatch e s0)).
    destruct e; cbn [filter Page.is_menu_click Page.is_theme_click length].
    + assert (Hth' : Page.theme (Page.toggleTheme s0) = js "light"
                     \/ Page.theme (Page.toggleTheme s0) = js "dark").
      { unfold Page.toggleTheme. cbn [Page.theme].
        destruct (Page.strict_eq (Page.theme s0) (js "light"));
          [right|left]; reflexivity. }
      destruct (IH (Page.toggleTheme s0) Hth') as (I1 & I2).
      cbn [Page.dispatch]. rewrite I1, I2, Nat.odd_succ, <- Nat.negb_odd.
      split; [reflexivity|].
      unfold Page.toggleTheme. cbn [Page.theme].
      destruct Hth as [-> | ->];
        destruct (Nat.odd (length (filter Page.is_theme_click rest))); reflexivity.
    + destruct (IH (Page.menuClick s0) Hth) as (I1 & I2).
      cbn [Page.dispatch]. rewrite I1, I2, Nat.odd_succ, <- Nat.negb_odd.
      split; [|reflexivity].
      cbn [Page.menuClick Page.isMenuOpen].
      destruct (Page.isMenuOpen s0),
        (Nat.odd (length (filter Page.is_menu_click rest))); reflexivity.
Qed.

(** X13.  The two buttons of the page header are independent switches:
    after any sequence of clicks the mobile menu is open exactly when the
    menu button was clicked an odd number of times, and the theme is dark
    exactly when the theme button was clicked an odd number of times, light
    otherwise. *)
Theorem menu_and_theme_are_independent_switches :
  forall (tokens : list JSString) (events : list Page.Event),
    Page.isMenuOpen (Page.run events (Page.init tokens))
    = Nat.odd (length (filter Page.is_menu_click events))
    /\ Page.theme (Page.run events (Page.init tokens))
       = (if Nat.odd (length (filter Page.is_theme_click events))
          then js "dark" else js "light")
    /\ Page.root_class (Page.run events (Page.init tokens))
       = (if Nat.odd (length (filter Page.is_theme_click events))
          then js "dark" else []).
Proof.
  intros tokens events.
  destruct (Page_run_parity events (Page.init tokens) (or_introl eq_refl))
    as (I1 & I2).
  destruct (Page_run_step events (Page.init tokens) (or_introl eq_refl))
    as (Hth & _).
  cbn [Page.init Page.isMenuOpen Page.theme] in I1, I2.
  change (Page.strict_eq (js "light") (js "dark")) with false in I2.
  rewrite xorb_false_l in I1, I2.
  split; [exact I1|].
  unfold Page.root_class. rewrite I2.
  destruct (Nat.odd (length (filter Page.is_theme_click events))).
  - apply strict_eq_true_iff in I2. rewrite I2. split; reflexivity.
  - destruct Hth as [H|H]; [rewrite H; split; reflexivity|].
    rewrite H in I2. discriminate.
Qed.

(** ** The two chat components hold the same conversation *)

Lemma tl_app_nonempty {A} (l : list A) (x : A) :
  l <> [] -> tl (l ++ [x]) = tl l ++ [x].
Proof. destruct l; [contradiction|reflexivity]. Qed.

Lemma same_conversation_step (e : Landing.Event) (c : Chat.State)
    (l : Landing.State) :
  same_conversation c l ->
  match Landing.dispatch e l, Chat.dispatch (text_event e) c with
  | Some l', Some c' => same_conversation c' l'
  | None, None => True
  | _, _ => False
  end.
Proof.
  intros (Hc & Hl & Hm & Hi & Ht & Hcon & Hn & Hf & Hk).
  destruct e as [value| |o]; cbn [text_event].
  - unfold same_conversation. cbn. repeat split; assumption.
  - destruct (Chat.dispatch Chat.Submit c) as [c'|] eqn:Dc;
      destruct (Landing.dispatch Landing.Submit l) as [l'|] eqn:Dl.
    + apply Chat_dispatch_submit in Dc. destruct Dc as (_ & ->).
      apply Landing_dispatch_submit in Dl. destruct Dl as (_ & ->).
      rewrite Hi. unfold same_conversation. destruct (blank (Landing.input l)).
      * repeat split; assumption.
      * cbn. rewrite !tl_app_nonempty by assumption.
        rewrite Hm, Hn, Hf, Hk.
        repeat split; try assumption; apply nonempty_app_cons.
    + cbn in Dc, Dl. rewrite Ht in Dc.
      destruct (Landing.isTyping l); discriminate.
    + cbn in Dc, Dl. rewrite Ht in Dc.
      destruct (Landing.isTyping l); discriminate.
    + exact I.
  - destruct (Chat.dispatch (Chat.Settle o) c) as [c'|] eqn:Dc;
      destruct (Landing.dispatch (Landing.Settle o) l) as [l'|] eqn:Dl.
    + apply Chat_dispatch_cases in Dc.
      cbn in Dl. destruct (Landing.inflight l) as [|n] eqn:F; [discriminate|].
      inversion Dl; subst; clear Dl.
      unfold Landing.exec, Landing.settled_one. eff_unfold.
      rewrite Landing_resume_eq.
      unfold same_conversation.
      destruct o as [response|error]; destruct Dc as (_ & ->).
      * destruct (Chat.synthRef c); cbn;
          rewrite !tl_app_nonempty by assumption;
          rewrite Hm, Hf, F;
          repeat split; try assumption; apply nonempty_app_cons.
      * cbn. rewrite !tl_app_nonempty by assumption.
        rewrite Hm, Hf, F, Hcon.
        repeat split; try assumption; apply nonempty_app_cons.
    + cbn in Dc, Dl. rewrite Hf in Dc.
      destruct (Landing.inflight l); discriminate.
    + cbn in Dc, Dl. rewrite Hf in Dc.
      destruct (Landing.inflight l); discriminate.
    + exact I.
Qed.

(** X14.  The component with voice, fed only typing, submissions and
    settled requests, and the text-only component go through the same
    conversation: for every sequence of such events, either neither
    accepts it, or both do and they end with the same entries after the
    greeting, the same input, typing flag, console, requests and number of
    pending requests. *)
Theorem text_events_give_the_same_conversation :
  forall (w : Chat.Window) (events : list Landing.Event),
    match Landing.run events (Landing.init (Chat.API_KEY w)),
          Chat.run (map text_event events) (Chat.init w) with
    | Some l, Some c => same_conversation c l
    | None, None => True
    | _, _ => False
    end.
Proof.
  intros w events.
  assert (H0 : same_conversation (Chat.init w) (Landing.init (Chat.API_KEY w))).
  { unfold same_conversation. cbn.
    repeat split; try reflexivity; discriminate. }
  revert H0. generalize (Chat.init w) as c, (Landing.init (Chat.API_KEY w)) as l.
  induction events as [|e rest IH]; intros c l H0.
  - exact H0.
  - cbn [map Chat.run Landing.run].
    pose proof (same_conversation_step e c l H0) as Hstep.
    destruct (Landing.dispatch e l) as [l'|],
             (Chat.dispatch (text_event e) c) as [c'|]; try contradiction.
    + apply IH. exact Hstep.
    + exact I.
Qed.

(** ** Whose turn it is *)

Lemma roles_snoc (f : nat -> Role) (l : list Message) (x : Message) :
  (forall i m, nth_error l i = Some m -> role m = f i) ->
  role x = f (length l) ->
  forall i m, nth_error (l ++ [x]) i = Some m -> role m = f i.
Proof.
  intros Hl Hx i m Hi.
  destruct (Nat.lt_ge_cases i (length l)) as [Lt|Ge].
  - rewrite nth_error_app1 in Hi by exact Lt. exact (Hl i m Hi).
  - assert (Hlen : i < length (l ++ [x])).
    { apply nth_error_Some. rewrite Hi. discriminate. }
    rewrite length_app in Hlen. cbn in Hlen.
    assert (i = length l) by lia. subst i.
    rewrite nth_error_app2, Nat.sub_diag in Hi by lia.
    cbn in Hi. inversion Hi; subst. exact Hx.
Qed.

Lemma even_of_double_plus (n k : nat) (b : bool) :
  n + (if b then 1 else 0) = 1 + 2 * k -> Nat.even n = b.
Proof.
  intro H. destruct b.
  - replace n with (2 * k) by lia. rewrite Nat.even_mul. reflexivity.
  - replace n with (S (2 * k)) by lia.
    rewrite Nat.even_succ, Nat.odd_mul. reflexivity.
Qed.

Local Abbreviation chat_turn_inv s :=
  ((Chat.inflight s = (if Chat.isTyping s then 1 else 0)
    /\ map message (Chat.network s) = map content (user_entries (Chat.messages s))
    /\ length (Chat.messages s) + (if Chat.isTyping s then 1 else 0)
       = 1 + 2 * length (Chat.network s))
   /\ forall i m,
        nth_error (Chat.messages s) i = Some m ->
        role m = if Nat.even i then assistant else user).

Lemma Chat_turn_inv_step (e : Chat.Event) (s s' : Chat.State) :
  chat_turn_inv s -> Chat.dispatch e s = Some s' -> chat_turn_inv s'.
Proof.
  intros (Hc & Ha) D. split; [exact (Chat_count_inv_step e s s' Hc D)|].
  destruct Hc as (Hf & _ & Hl).
  pose proof (Chat_voice_frame e s s' D) as Fr.
  destruct e; try (destruct Fr as (Fm & _); rewrite Fm; exact Ha).
  - apply Chat_dispatch_submit in D. destruct D as (T & ->).
    destruct (blank (Chat.input s)); [exact Ha|].
    cbn. apply roles_snoc; [exact Ha|]. rewrite T in Hl.
    rewrite (even_of_double_plus _ _ false Hl). reflexivity.
  - apply Chat_dispatch_settle in D. destruct D as (Pos & Dm & _).
    rewrite Dm. apply roles_snoc; [exact Ha|].
    destruct (Chat.isTyping s); [|rewrite Hf in Pos; lia].
    rewrite (even_of_double_plus _ _ true Hl). reflexivity.
Qed.

Local Abbreviation landing_turn_inv s :=
  ((Landing.inflight s = (if Landing.isTyping s then 1 else 0)
    /\ map message (Landing.network s)
       = map content (user_entries (Landing.messages s))
    /\ length (Landing.messages s) + (if Landing.isTyping s then 1 else 0)
       = 1 + 2 * length (Landing.network s)
    /\ Landing.uncaught s = [])
   /\ forall i m,
        nth_error (Landing.messages s) i = Some m ->
        role m = if Nat.even i then assistant else user).

Lemma Landing_turn_inv_step (e : Landing.Event) (s s' : Landing.State) :
  landing_turn_inv s -> Landing.dispatch e s = Some s' -> landing_turn_inv s'.
Proof.
  intros (Hc & Ha) D. split; [exact (Landing_count_inv_step e s s' Hc D)|].
  destruct Hc as (Hf & _ & Hl & _).
  destruct e as [value| |o].
  - apply Landing_dispatch_change in D. destruct D as (Fm & _).
    rewrite Fm. exact Ha.
  - apply Landing_dispatch_submit in D. destruct D as (T & ->).
    destruct (blank (Landing.input s)); [exact Ha|].
    cbn. apply roles_snoc; [exact Ha|]. rewrite T in Hl.
    rewrite (even_of_double_plus _ _ false Hl). reflexivity.
  - apply Landing_dispatch_settle in D. destruct D as (Pos & Dm & _).
    rewrite Dm. apply roles_snoc; [exact Ha|].
    destruct (Landing.isTyping s); [|rewrite Hf in Pos; lia].
    rewrite (even_of_double_plus _ _ true Hl). reflexivity.
Qed.

Lemma nth_error_singleton {A} (x m : A) (i : nat) :
  nth_error [x] i = Some m -> i = 0 /\ m = x.
Proof.
  destruct i as [|i]; cbn.
  - intro H. inversion H. split; reflexivity.
  - destruct i; discriminate.
Qed.

(** X15.  In every state a session reaches, in either component, the
    entries of the transcript take strict turns: those at even positions,
    the greeting first, are the assistant's, those at odd positions the
    user's.  The last entry is the user's exactly while the typing flag is
    up. *)
Theorem transcript_takes_strict_turns :
  (forall s : Chat.State,
     Chat.reachable s ->
     (forall i m,
        nth_error (Chat.messages s) i = Some m ->
        role m = if Nat.even i then assistant else user)
     /\ Nat.even (length (Chat.messages s)) = Chat.isTyping s)
  /\ (forall s : Landing.State,
        Landing.reachable s ->
        (forall i m,
           nth_error (Landing.messages s) i = Some m ->
           role m = if Nat.even i then assistant else user)
        /\ Nat.even (length (Landing.messages s)) = Landing.isTyping s).
Proof.
  split.
  - intros s (w & events & Hrun).
    assert (H : chat_turn_inv s).
    { refine (Chat_run_invariant (fun s => chat_turn_inv s) _ events _ _ _ Hrun).
      - intros e s0 s1. apply Chat_turn_inv_step.
      - cbn [Chat.init Chat.messages Chat.inflight Chat.isTyping Chat.network].
        repeat split.
        intros i m Hi. apply nth_error_singleton in Hi.
        destruct Hi as (-> & ->). reflexivity. }
    destruct H as ((_ & _ & Hl) & Ha). split; [exact Ha|].
    exact (even_of_double_plus _ _ _ Hl).
  - intros s (key & events & Hrun).
    assert (H : landing_turn_inv s).
    { refine (Landing_run_invariant (fun s => landing_turn_inv s) _ events _ _ _ Hrun).
      - intros e s0 s1. apply Landing_turn_inv_step.
      - cbn [Landing.init Landing.messages Landing.inflight Landing.isTyping
             Landing.network Landing.uncaught].
        repeat split.
        intros i m Hi. apply nth_error_singleton in Hi.
        destruct Hi as (-> & ->). reflexivity. }
    destruct H as ((_ & _ & Hl & _) & Ha). split; [exact Ha|].
    exact (even_of_double_plus _ _ _ Hl).
Qed.

Lemma transcript_takes_strict_turns_witness :
  Nat.even
    (length
       (Chat.messages
          (Chat.exec Chat.handleSubmit_start
             (Chat.with_input (fun _ => js "I feel anxious")
                (Chat.init Chat.browser)))))
  = Chat.isTyping
      (Chat.exec Chat.handleSubmit_start
         (Chat.with_input (fun _ => js "I feel anxious") (Chat.init Chat.browser))).
Proof.
  assert (Hreach : Chat.reachable
            (Chat.exec Chat.handleSubmit_start
               (Chat.with_input (fun _ => js "I feel anxious")
                  (Chat.init Chat.browser)))).
  { exists Chat.browser, [Chat.Change (js "I feel anxious"); Chat.Submit].
    vm_compute. reflexivity. }
  exact (proj2 (proj1 transcript_takes_strict_turns _ Hreach)).
Defined.

(** X16.  With the submit button disabled while the typing flag is up, a
    session never has two requests in flight, in either component: exactly
    one request is pending while the flag is up and none while it is down.
    So a settled promise always belongs to the one request sent last, a
    submission is refused while it is pending, and nothing can settle when
    nothing is pending. *)
Theorem at_most_one_request_in_flight :
  (forall s : Chat.State,
     Chat.reachable s ->
     Chat.inflight s = (if Chat.isTyping s then 1 else 0)
     /\ (Chat.isTyping s = true -> Chat.dispatch Chat.Submit s = None)
     /\ (Chat.isTyping s = false ->
         forall o, Chat.dispatch (Chat.Settle o) s = None))
  /\ (forall s : Landing.State,
        Landing.reachable s ->
        Landing.inflight s = (if Landing.isTyping s then 1 else 0)
        /\ (Landing.isTyping s = true -> Landing.dispatch Landing.Submit s = None)
        /\ (Landing.isTyping s = false ->
            forall o, Landing.dispatch (Landing.Settle o) s = None)).
Proof.
  split.
  - intros s Hreach. apply Chat_reachable_inv in Hreach.
    destruct Hreach as (Hf & _). split; [exact Hf|]. split.
    + intro T. cbn. rewrite T. reflexivity.
    + intros T o. cbn. rewrite Hf, T. reflexivity.
  - intros s Hreach. apply Landing_reachable_inv in Hreach.
    destruct Hreach as (Hf & _). split; [exact Hf|]. split.
    + intro T. cbn. rewrite T. reflexivity.
    + intros T o. cbn. rewrite Hf, T. reflexivity.
Qed.

Lemma at_most_one_request_in_flight_witness :
  Chat.inflight
    (Chat.exec Chat.handleSubmit_start
       (Chat.with_input (fun _ => js "I feel anxious") (Chat.init Chat.browser)))
  = (if Chat.isTyping
          (Chat.exec Chat.handleSubmit_start
             (Chat.with_input (fun _ => js "I feel anxious")
                (Chat.init Chat.browser)))
     then 1 else 0).
Proof.
  assert (Hreach : Chat.reachable
            (Chat.exec Chat.handleSubmit_start
               (Chat.with_input (fun _ => js "I feel anxious")
                  (Chat.init Chat.browser)))).
  { exists Chat.browser, [Chat.Change (js "I feel anxious"); Chat.Submit].
    vm_compute. reflexivity. }
  exact (proj1 (proj1 at_most_one_request_in_flight _ Hreach)).
Defined.

(** ** What the microphone shows *)

Local Abbreviation chat_anim_inv s :=
  (Chat.micControls s
   = (if Chat.isListening s then Chat.MicPulsing else Chat.MicStill)
   /\ Chat.waveformControls s
      = (if Chat.isListening s then Chat.WaveShown else Chat.WaveHidden)).

Lemma Chat_anim_inv_step (e : Chat.Event) (s s' : Chat.State) :
  chat_anim_inv s -> Chat.dispatch e s = Some s' -> chat_anim_inv s'.
Proof.
  intros (Hm & Hw) D. chat_cases e D; try (split; assumption).
  - destruct (blank (Chat.input s)); split; assumption.
  - destruct (Chat.synthRef s); split; assumption.
  - rewrite Chat_mic_eq. destruct (Chat.isListening s); [split; reflexivity|].
    destruct (Chat.hasSpeechRecognition (Chat.window s)); split; reflexivity.
  - rewrite Chat_speaker_eq. destruct (Chat.isSpeaking s).
    + destruct (Chat.synthRef s); split; assumption.
    + destruct (nth_error (Chat.messages s) (length (Chat.messages s) - 1));
        [|split; assumption].
      rewrite Chat_speakResponse_eq. destruct (Chat.synthRef s); split; assumption.
  - rewrite Chat_onerror_eq. split; reflexivity.
  - destruct (Chat.onend x) as [[]|]; split; assumption.
Qed.

(** X17.  In every state a session reaches, the microphone animation runs
    and the waveform is shown exactly while the listening flag is up.  In
    a browser without speech recognition this is so too: after a click the
    page shows that it listens although no recognition object exists. *)
Theorem microphone_display_follows_listening_flag :
  forall s : Chat.State,
    Chat.reachable s ->
    Chat.micControls s
    = (if Chat.isListening s then Chat.MicPulsing else Chat.MicStill)
    /\ Chat.waveformControls s
       = (if Chat.isListening s then Chat.WaveShown else Chat.WaveHidden)
    /\ (Chat.hasSpeechRecognition (Chat.window s) = false ->
        Chat.isListening s = false ->
        Chat.waveformControls (Chat.exec Chat.toggleVoiceInput s) = Chat.WaveShown
        /\ Chat.recognitionRef (Chat.exec Chat.toggleVoiceInput s) = None).
Proof.
  intros s Hreach.
  assert (H : chat_anim_inv s).
  { destruct Hreach as (w & events & Hrun).
    refine (Chat_run_invariant (fun s => chat_anim_inv s) _ events _ _ _ Hrun).
    - intros e s0 s1. apply Chat_anim_inv_step.
    - split; reflexivity. }
  destruct H as (Hm & Hw). split; [exact Hm|]. split; [exact Hw|].
  intros SR L. apply Chat_rec_inv_reachable in Hreach.
  destruct Hreach as (Hnone & _).
  rewrite Chat_mic_eq, L, SR. cbn. split; [reflexivity|exact (Hnone SR)].
Qed.

Lemma microphone_display_follows_listening_flag_witness :
  Chat.micControls (Chat.exec Chat.toggleVoiceInput (Chat.init Chat.browser))
  = (if Chat.isListening (Chat.exec Chat.toggleVoiceInput (Chat.init Chat.browser))
     then Chat.MicPulsing else Chat.MicStill).
Proof.
  assert (Hreach : Chat.reachable
            (Chat.exec Chat.toggleVoiceInput (Chat.init Chat.browser))).
  { exists Chat.browser, [Chat.MicClick]. vm_compute. reflexivity. }
  exact (proj1 (microphone_display_follows_listening_flag _ Hreach)).
Defined.

(** * On a platform that also fails and delivers late *)

Lemma Platform_run_invariant (P : Chat.State -> Prop) :
  (forall pe s s', P s -> Platform.deliver pe s = Some s' -> P s') ->
  forall events s s', P s -> Platform.run events s = Some s' -> P s'.
Proof.
  intros Hstep events. induction events as [|pe rest IH]; intros s s' Hs Hrun.
  - cbn in Hrun. inversion Hrun; subst. exact Hs.
  - cbn in Hrun. destruct (Platform.deliver pe s) as [s1|] eqn:D; [|discriminate].
    apply (IH s1 s'); [|exact Hrun]. exact (Hstep pe s s1 Hs D).
Qed.

(** The events beside the expected ones, and the state each leaves. *)
Lemma Platform_deliver_cases (pe : Platform.Event) (s s' : Chat.State) :
  Platform.deliver pe s = Some s' ->
  match pe with
  | Platform.Ui e => Chat.dispatch e s = Some s'
  | Platform.LateResult results =>
      exists r,
        Chat.recognitionRef s = Some r
        /\ s' = Chat.with_input
                  (fun _ => join (map (fun result => Chat.transcript (Chat.item0 result))
                                      results))
                  s
  | Platform.LateError error =>
      exists r,
        Chat.recognitionRef s = Some r
        /\ s' = Chat.exec (Chat.onerror_handler error) s
  | Platform.RecognitionEnd =>
      exists r,
        Chat.recognitionRef s = Some r /\ Chat.started r = true
        /\ s' = Chat.with_recognitionRef (option_map Chat.recognition_stop) s
  | Platform.UtteranceError =>
      exists u q,
        Chat.synthRef s = Some (u :: q)
        /\ s' = Chat.with_synthRef (fun _ => Some q) s
  end.
Proof.
  intro D. destruct pe as [e|results|error| |]; cbn in D.
  - exact D.
  - destruct (Chat.recognitionRef s) as [r|]; [|discriminate].
    destruct (Chat.onresult r) as [[]|]; [|discriminate].
    inversion D. exists r. split; reflexivity.
  - destruct (Chat.recognitionRef s) as [r|]; [|discriminate].
    destruct (Chat.onerror r) as [[]|]; [|discriminate].
    inversion D. exists r. split; reflexivity.
  - destruct (Chat.recognitionRef s) as [r|]; [|discriminate].
    destruct (Chat.started r) eqn:St; [|discriminate].
    inversion D. exists r. repeat split. exact St.
  - destruct (Chat.synthRef s) as [[|u q]|]; try discriminate.
    inversion D. exists u, q. split; reflexivity.
Qed.

Lemma Platform_window_fixed (pe : Platform.Event) (s s' : Chat.State) :
  Platform.deliver pe s = Some s' -> Chat.window s' = Chat.window s.
Proof.
  intro D. apply Platform_deliver_cases in D.
  destruct pe as [e|results|error| |].
  - exact (Chat_window_fixed e s s' D).
  - destruct D as (r & _ & ->). reflexivity.
  - destruct D as (r & _ & ->). reflexivity.
  - destruct D as (r & _ & _ & ->). reflexivity.
  - destruct D as (u & q & _ & ->). reflexivity.
Qed.

(** What an expected event does to the speaking flag. *)
Lemma Chat_flag_step (e : Chat.Event) (s s' : Chat.State) :
  Chat.dispatch e s = Some s' ->
  Chat.isSpeaking s' = Chat.isSpeaking s
  \/ (Chat.isSpeaking s' = true
      /\ exists q u,
           Chat.synthRef s = Some q
           /\ Chat.synthRef s' = Some (q ++ [u])
           /\ Chat.onend u = Some Chat.ClearIsSpeaking)
  \/ (Chat.isSpeaking s' = false
      /\ (e = Chat.SpeakerClick \/ e = Chat.UtteranceEnd)).
Proof.
  intro D. pose proof (Chat_speech_frame e s s' D) as Fs.
  destruct e as [value| |[response|error]| | |results|error|];
    try (left; exact (proj2 Fs)).
  - apply Chat_dispatch_cases in D. destruct D as (_ & ->).
    destruct (Chat.synthRef s) as [q|] eqn:Hs.
    + right. left. cbn. rewrite Hs. split; [reflexivity|].
      exists q. eexists. cbn.
      split; [reflexivity|]. split; reflexivity.
    + left. reflexivity.
  - apply Chat_dispatch_cases in D. subst s'. rewrite Chat_speaker_eq.
    destruct (Chat.isSpeaking s) eqn:Sp.
    + destruct (Chat.synthRef s) as [q|] eqn:Hs.
      * right. right. split; [reflexivity|]. left. reflexivity.
      * left. exact Sp.
    + destruct (nth_error (Chat.messages s) (length (Chat.messages s) - 1))
        as [m|].
      * rewrite Chat_speakResponse_eq. cbn.
        destruct (Chat.synthRef s) as [q|] eqn:Hs.
        -- right. left. cbn. rewrite Hs. split; [reflexivity|].
           exists q. eexists. cbn.
           split; [reflexivity|]. split; reflexivity.
        -- left. exact Sp.
      * left. cbn. exact Sp.
  - apply Chat_dispatch_cases in D. destruct D as (u & q & Hs & ->).
    destruct (Chat.onend u) as [[]|].
    + right. right. split; [reflexivity|]. right. reflexivity.
    + left. reflexivity.
Qed.

Lemma Platform_flag_step (pe : Platform.Event) (s s' : Chat.State) :
  Platform.deliver pe s = Some s' ->
  Chat.isSpeaking s' = Chat.isSpeaking s
  \/ (Chat.isSpeaking s' = true
      /\ exists q u,
           Chat.synthRef s = Some q
           /\ Chat.synthRef s' = Some (q ++ [u])
           /\ Chat.onend u = Some Chat.ClearIsSpeaking)
  \/ (Chat.isSpeaking s' = false
      /\ (pe = Platform.Ui Chat.SpeakerClick \/ pe = Platform.Ui Chat.UtteranceEnd)).
Proof.
  intro D. apply Platform_deliver_cases in D.
  destruct pe as [e|results|error| |].
  - destruct (Chat_flag_step e s s' D) as [H|[H|(H & [-> | ->])]].
    + left. exact H.
    + right. left. exact H.
    + right. right. split; [exact H|]. left. reflexivity.
    + right. right. split; [exact H|]. right. reflexivity.
  - destruct D as (r & _ & ->). left. reflexivity.
  - destruct D as (r & _ & ->). left. reflexivity.
  - destruct D as (r & _ & _ & ->). left. reflexivity.
  - destruct D as (u & q & _ & ->). left. reflexivity.
Qed.

(** The speaking flag, once up, is put down by nothing but an ended
    utterance and the speaker button. *)
Lemma Platform_flag_stays (events : list Platform.Event) :
  forall s s',
    Chat.isSpeaking s = true ->
    (forall pe, In pe events ->
       pe <> Platform.Ui Chat.UtteranceEnd /\ pe <> Platform.Ui Chat.SpeakerClick) ->
    Platform.run events s = Some s' ->
    Chat.isSpeaking s' = true.
Proof.
  induction events as [|pe rest IH]; intros s s' Sp Hev Hrun; cbn in Hrun.
  - inversion Hrun; subst. exact Sp.
  - destruct (Platform.deliver pe s) as [s1|] eqn:D; [|discriminate].
    apply (IH s1 s'); [| |exact Hrun].
    + destruct (Platform_flag_step pe s s1 D) as [H|[(H & _)|(_ & [H|H])]].
      * rewrite H. exact Sp.
      * exact H.
      * destruct (Hev pe (or_introl eq_refl)) as (_ & Hne). contradiction.
      * destruct (Hev pe (or_introl eq_refl)) as (Hne & _). contradiction.
    + intros pe' Hin. apply Hev. right. exact Hin.
Qed.

Lemma Platform_synth_none_stays (pe : Platform.Event) (s s' : Chat.State) :
  Platform.deliver pe s = Some s' ->
  Chat.synthRef s = None ->
  Chat.synthRef s' = None /\ Chat.isSpeaking s' = Chat.isSpeaking s.
Proof.
  intros D Hs. apply Platform_deliver_cases in D.
  destruct pe as [e|results|error| |].
  - pose proof (Chat_speech_frame e s s' D) as Fs.
    destruct e as [value| |[response|error]| | |results|error|];
      try (destruct Fs as (F1 & F2); rewrite F1; split; assumption).
    + apply Chat_dispatch_cases in D. destruct D as (_ & ->).
      rewrite Hs. cbn. split; [exact Hs|reflexivity].
    + apply Chat_dispatch_cases in D. subst s'. rewrite Chat_speaker_eq.
      destruct (Chat.isSpeaking s) eqn:Sp.
      * rewrite Hs. split; [exact Hs|exact Sp].
      * destruct (nth_error (Chat.messages s) (length (Chat.messages s) - 1)).
        -- rewrite Chat_speakResponse_eq, Hs. cbn. split; [exact Hs|exact Sp].
        -- cbn. split; [exact Hs|exact Sp].
    + apply Chat_dispatch_cases in D. destruct D as (u & q & Hq & _).
      rewrite Hs in Hq. discriminate.
  - destruct D as (r & _ & ->). split; [exact Hs|reflexivity].
  - destruct D as (r & _ & ->). split; [exact Hs|reflexivity].
  - destruct D as (r & _ & _ & ->). split; [exact Hs|reflexivity].
  - destruct D as (u & q & Hq & _). rewrite Hs in Hq. discriminate.
Qed.

(** ** Two calls of [speakResponse] *)

Lemma Chat_exec_speakResponse (text : JSString) (s : Chat.State)
    (q : Chat.SpeechSynthesis) :
  Chat.synthRef s = Some q ->
  Chat.exec (Chat.speakResponse text) s
  = Chat.with_synthRef
      (option_map (Chat.synth_speak
         {| Chat.u_text := text; Chat.onend := Some Chat.ClearIsSpeaking |}))
      (Chat.with_isSpeaking (fun _ => true) s).
Proof.
  intro Hq. unfold Chat.exec. rewrite Chat_speakResponse_eq, Hq. reflexivity.
Qed.

(** C6, as the component has it.  [speakResponse] cancels nothing: each
    call raises the speaking flag and adds its utterance, with a completion
    handler of its own, behind whatever the platform still has to speak.
    So the flag is up after [speak(a)] and up after [speak(b)], with both
    utterances queued in call order; once up, the flag stays up whatever
    happens, until an utterance ends or the speaker button stops the
    speech; and every utterance that ends puts the flag down.  On an idle
    platform the end of the first utterance therefore puts the flag down
    while the second is still to be spoken, and the end of the second puts
    it down again. *)
Theorem second_speak_is_queued_behind_first :
  forall (s : Chat.State) (q : Chat.SpeechSynthesis) (a b : JSString),
    Chat.synthRef s = Some q ->
    (* after the first call *)
    Chat.isSpeaking (Chat.exec (Chat.speakResponse a) s) = true
    /\ Chat.synthRef (Chat.exec (Chat.speakResponse a) s)
       = Some (q ++ [ {| Chat.u_text := a; Chat.onend := Some Chat.ClearIsSpeaking |} ])
    (* after the second call *)
    /\ Chat.isSpeaking
         (Chat.exec (Chat.speakResponse b) (Chat.exec (Chat.speakResponse a) s))
       = true
    /\ Chat.synthRef
         (Chat.exec (Chat.speakResponse b) (Chat.exec (Chat.speakResponse a) s))
       = Some (q ++ [ {| Chat.u_text := a; Chat.onend := Some Chat.ClearIsSpeaking |};
                      {| Chat.u_text := b; Chat.onend := Some Chat.ClearIsSpeaking |} ])
    /\ Chat.exec (bind (Chat.speakResponse a) (fun _ => Chat.speakResponse b)) s
       = Chat.exec (Chat.speakResponse b) (Chat.exec (Chat.speakResponse a) s)
    (* the flag stays up until an utterance ends or the speech is stopped *)
    /\ (forall (s1 s2 : Chat.State) (events : list Platform.Event),
          Chat.isSpeaking s1 = true ->
          (forall pe, In pe events ->
             pe <> Platform.Ui Chat.UtteranceEnd
             /\ pe <> Platform.Ui Chat.SpeakerClick) ->
          Platform.run events s1 = Some s2 ->
          Chat.isSpeaking s2 = true)
    (* every utterance of the component that ends puts the flag down *)
    /\ (forall (s0 : Chat.State) (u : Chat.SpeechSynthesisUtterance)
               (q0 : Chat.SpeechSynthesis),
          Chat.synthRef s0 = Some (u :: q0) ->
          Chat.onend u = Some Chat.ClearIsSpeaking ->
          exists s',
            Chat.dispatch Chat.UtteranceEnd s0 = Some s'
            /\ Chat.isSpeaking s' = false
            /\ Chat.synthRef s' = Some q0)
    (* on an idle platform *)
    /\ (q = [] ->
        exists s3 s4,
          Chat.dispatch Chat.UtteranceEnd
            (Chat.exec (Chat.speakResponse b) (Chat.exec (Chat.speakResponse a) s))
          = Some s3
          /\ Chat.isSpeaking s3 = false
          /\ Chat.synthRef s3
             = Some [ {| Chat.u_text := b; Chat.onend := Some Chat.ClearIsSpeaking |} ]
          /\ Chat.dispatch Chat.UtteranceEnd s3 = Some s4
          /\ Chat.isSpeaking s4 = false
          /\ Chat.synthRef s4 = Some []).
Proof.
  intros s q a b Hq.
  assert (H1 : Chat.synthRef (Chat.exec (Chat.speakResponse a) s)
               = Some (q ++ [ {| Chat.u_text := a;
                                 Chat.onend := Some Chat.ClearIsSpeaking |} ])).
  { rewrite (Chat_exec_speakResponse a s q Hq). cbn. rewrite Hq. reflexivity. }
  assert (H2 : Chat.synthRef
                 (Chat.exec (Chat.speakResponse b)
                    (Chat.exec (Chat.speakResponse a) s))
               = Some (q ++ [ {| Chat.u_text := a;
                                 Chat.onend := Some Chat.ClearIsSpeaking |};
                              {| Chat.u_text := b;
                                 Chat.onend := Some Chat.ClearIsSpeaking |} ])).
  { rewrite (Chat_exec_speakResponse b _ _ H1). cbn. rewrite H1. cbn.
    unfold Chat.synth_speak. rewrite <- app_assoc. reflexivity. }
  split; [rewrite (Chat_exec_speakResponse a s q Hq); reflexivity|].
  split; [exact H1|].
  split; [rewrite (Chat_exec_speakResponse b _ _ H1); reflexivity|].
  split; [exact H2|].
  split.
  { rewrite (Chat_exec_speakResponse b _ _ H1), (Chat_exec_speakResponse a s q Hq).
    unfold Chat.exec, bind.
    rewrite Chat_speakResponse_eq, Hq, Chat_speakResponse_eq. cbn.
    rewrite Hq. reflexivity. }
  split.
  { intros s1 s2 events Sp Hev Hrun.
    exact (Platform_flag_stays events s1 s2 Sp Hev Hrun). }
  split.
  { intros s0 u q0 Hs He. cbn [Chat.dispatch]. rewrite Chat_utterance_end_eq, Hs, He.
    eexists. split; [reflexivity|]. split; reflexivity. }
  intros ->. cbn in H2.
  exists (Chat.with_isSpeaking (fun _ => false)
            (Chat.with_synthRef
               (fun _ => Some [ {| Chat.u_text := b;
                                   Chat.onend := Some Chat.ClearIsSpeaking |} ])
               (Chat.exec (Chat.speakResponse b)
                  (Chat.exec (Chat.speakResponse a) s)))).
  eexists.
  split; [cbn [Chat.dispatch]; rewrite Chat_utterance_end_eq, H2; reflexivity|].
  split; [reflexivity|]. split; [reflexivity|].
  split; [cbn [Chat.dispatch]; rewrite Chat_utterance_end_eq; reflexivity|].
  split; reflexivity.
Qed.

Lemma second_speak_is_queued_behind_first_witness :
  Chat.isSpeaking (Chat.exec (Chat.speakResponse (js "Hi there"))
                             (Chat.init Chat.browser))
  = true
  /\ Chat.isSpeaking
       (Chat.exec (Chat.speakResponse (js "Second message"))
          (Chat.exec (Chat.speakResponse (js "Hi there")) (Chat.init Chat.browser)))
     = true.
Proof.
  destruct (second_speak_is_queued_behind_first
              (Chat.init Chat.browser) [] (js "Hi there") (js "Second message")
              eq_refl) as (A & _ & B & _).
  split; [exact A|exact B].
Defined.

(** ** Voice input on such a platform *)

Local Abbreviation platform_rec_inv s :=
  ((Chat.hasSpeechRecognition (Chat.window s) = false -> Chat.recognitionRef s = None)
   /\ (Chat.isListening s = true ->
       Chat.hasSpeechRecognition (Chat.window s) = true ->
       Chat.recognitionRef s <> None)
   /\ forall r,
        Chat.recognitionRef s = Some r ->
        (Chat.started r = true -> Chat.isListening s = true)
        /\ Chat.continuous r = true
        /\ Chat.interimResults r = true
        /\ Chat.onresult r = Some Chat.SetInputToTranscript
        /\ Chat.onerror r = Some Chat.LogAndStopListening).

Lemma platform_rec_inv_stop (s : Chat.State) :
  (Chat.hasSpeechRecognition (Chat.window s) = false -> Chat.recognitionRef s = None) ->
  (forall r,
     Chat.recognitionRef s = Some r ->
     Chat.continuous r = true
     /\ Chat.interimResults r = true
     /\ Chat.onresult r = Some Chat.SetInputToTranscript
     /\ Chat.onerror r = Some Chat.LogAndStopListening) ->
  platform_rec_inv
    (Chat.with_recognitionRef (option_map Chat.recognition_stop)
       (Chat.with_waveformControls (fun _ => Chat.WaveHidden)
          (Chat.with_micControls (fun _ => Chat.MicStill)
             (Chat.with_isListening (fun _ => false) s)))).
Proof.
  intros Hnone Hobj. cbn. split; [|split].
  - intro H. rewrite (Hnone H). reflexivity.
  - discriminate.
  - intros r Hr. destruct (Chat.recognitionRef s) as [r0|]; [|discriminate].
    cbn in Hr. inversion Hr; subst; clear Hr.
    destruct (Hobj r0 eq_refl) as (Hc & Hi & Hres & Herr).
    cbn. split; [discriminate|]. repeat split; assumption.
Qed.

Lemma platform_rec_inv_step (pe : Platform.Event) (s s' : Chat.State) :
  platform_rec_inv s -> Platform.deliver pe s = Some s' -> platform_rec_inv s'.
Proof.
  intros Hinv D.
  assert (Hcfg : forall r,
            Chat.recognitionRef s = Some r ->
            Chat.continuous r = true
            /\ Chat.interimResults r = true
            /\ Chat.onresult r = Some Chat.SetInputToTranscript
            /\ Chat.onerror r = Some Chat.LogAndStopListening).
  { intros r Hr. destruct Hinv as (_ & _ & Hobj).
    destruct (Hobj r Hr) as (_ & H). exact H. }
  assert (Hnone0 : Chat.hasSpeechRecognition (Chat.window s) = false ->
                   Chat.recognitionRef s = None) by exact (proj1 Hinv).
  pose proof (Platform_window_fixed pe s s' D) as W.
  apply Platform_deliver_cases in D.
  destruct pe as [e|results|error| |].
  - pose proof (Chat_recognition_frame e s s' D) as Fr.
    destruct e;
      try (destruct Fr as (Fr1 & Fr2); rewrite W, Fr1, Fr2; exact Hinv).
    + (* the microphone button *)
      apply Chat_dispatch_cases in D. subst s'. rewrite Chat_mic_eq in *.
      destruct (Chat.isListening s) eqn:L.
      * apply platform_rec_inv_stop; assumption.
      * destruct Hinv as (Hnone & _ & _).
        destruct (Chat.hasSpeechRecognition (Chat.window s)) eqn:SR; cbn in *.
        -- rewrite SR. split; [discriminate|]. split; [discriminate|].
           intros r Hr. inversion Hr; subst. cbn. repeat split.
        -- rewrite SR. split; [exact Hnone|]. split; [discriminate|].
           intros r Hr. rewrite (Hnone eq_refl) in Hr. discriminate.
    + (* a recognition error *)
      apply Chat_dispatch_cases in D. destruct D as (r0 & _ & _ & ->).
      rewrite Chat_onerror_eq.
      apply (platform_rec_inv_stop
               (Chat.with_console
                  (fun c => c ++ [ {| label := js "Speech recognition error";
                                      logged := error |} ]) s));
        assumption.
  - destruct D as (r0 & _ & ->). exact Hinv.
  - destruct D as (r0 & _ & ->). rewrite Chat_onerror_eq.
    apply (platform_rec_inv_stop
             (Chat.with_console
                (fun c => c ++ [ {| label := js "Speech recognition error";
                                    logged := error |} ]) s));
      assumption.
  - destruct D as (r0 & Hr0 & _ & ->).
    destruct Hinv as (Hnone & Hsome & Hobj). cbn. rewrite Hr0. cbn.
    split; [intro H; rewrite (Hnone H) in Hr0; discriminate|].
    split; [discriminate|].
    intros r Hr. inversion Hr; subst; clear Hr.
    destruct (Hobj r0 Hr0) as (_ & Hc & Hi & Hres & Herr).
    cbn. split; [discriminate|]. repeat split; assumption.
  - destruct D as (u & q & _ & ->). exact Hinv.
Qed.

(** X4.  On a platform that may deliver results and errors late, end
    recognition by itself and fail utterances, in every state a session
    reaches: a recognition object held in [recognitionRef] is in
    continuous mode with interim results and has both handlers attached;
    while the listening flag is down that object is stopped, the component
    having called [stop()] on it since it last started it; and while the
    flag is up in a browser with speech recognition an object is held.
    The flag may be up over a stopped object: recognition that ended by
    itself leaves it up. *)
Theorem recognition_is_stopped_while_flag_is_down :
  (forall s : Chat.State,
     Platform.reachable s ->
     (forall r,
        Chat.recognitionRef s = Some r ->
        Chat.continuous r = true
        /\ Chat.interimResults r = true
        /\ Chat.onresult r = Some Chat.SetInputToTranscript
        /\ Chat.onerror r = Some Chat.LogAndStopListening
        /\ (Chat.isListening s = false -> Chat.started r = false))
     /\ (Chat.isListening s = true ->
         Chat.hasSpeechRecognition (Chat.window s) = true ->
         exists r, Chat.recognitionRef s = Some r))
  /\ option_map (fun s => (Chat.isListening s,
                           option_map Chat.started (Chat.recognitionRef s)))
       (Platform.run [Platform.Ui Chat.MicClick; Platform.RecognitionEnd]
                     (Chat.init Chat.browser))
     = Some (true, Some false).
Proof.
  split; [|vm_compute; reflexivity].
  intros s (w & events & Hrun).
  assert (H : platform_rec_inv s).
  { refine (Platform_run_invariant (fun s => platform_rec_inv s) _ events _ _ _ Hrun).
    - intros pe s0 s1. apply platform_rec_inv_step.
    - cbn. split; [reflexivity|]. split; discriminate. }
  destruct H as (_ & Hsome & Hobj). split.
  - intros r Hr. destruct (Hobj r Hr) as (Hs & Hc & Hi & Hres & Herr).
    repeat split; try assumption.
    intro L. destruct (Chat.started r); [|reflexivity].
    rewrite (Hs eq_refl) in L. discriminate.
  - intros L SR. destruct (Chat.recognitionRef s) as [r|] eqn:Hr.
    + exists r. reflexivity.
    + exfalso. exact (Hsome L SR eq_refl).
Qed.

Lemma recognition_is_stopped_while_flag_is_down_witness :
  exists r,
    Chat.recognitionRef (Chat.exec Chat.toggleVoiceInput (Chat.init Chat.browser))
    = Some r.
Proof.
  assert (Hreach : Platform.reachable
            (Chat.exec Chat.toggleVoiceInput (Chat.init Chat.browser))).
  { exists Chat.browser, [Platform.Ui Chat.MicClick]. vm_compute. reflexivity. }
  refine (proj2 (proj1 recognition_is_stopped_while_flag_is_down _ Hreach) _ _);
    reflexivity.
Defined.

(** ** Speech output on such a platform *)

(** X6.  The speaking flag goes up only together with an utterance handed
    to the platform, carrying the handler that lowers the flag; once up it
    is lowered by nothing but the end of an utterance and the speaker
    button.  So in a browser without speech synthesis the flag is never up
    and nothing is ever queued; and when the last queued utterance fails
    instead of ending, the flag stays up with nothing left to speak, no
    completion event can come, and it is the speaker button, then acting
    as stop, that lowers it. *)
Theorem speaking_flag_rises_with_an_utterance :
  (forall s : Chat.State,
     Platform.reachable s ->
     Chat.hasSpeechSynthesis (Chat.window s) = false ->
     Chat.synthRef s = None /\ Chat.isSpeaking s = false)
  /\ (forall (pe : Platform.Event) (s s' : Chat.State),
        Platform.deliver pe s = Some s' ->
        Chat.isSpeaking s = false ->
        Chat.isSpeaking s' = true ->
        exists q u,
          Chat.synthRef s = Some q
          /\ Chat.synthRef s' = Some (q ++ [u])
          /\ Chat.onend u = Some Chat.ClearIsSpeaking)
  /\ (forall (pe : Platform.Event) (s s' : Chat.State),
        Platform.deliver pe s = Some s' ->
        Chat.isSpeaking s = true ->
        Chat.isSpeaking s' = false ->
        pe = Platform.Ui Chat.SpeakerClick \/ pe = Platform.Ui Chat.UtteranceEnd)
  /\ (forall (s : Chat.State) (u : Chat.SpeechSynthesisUtterance),
        Chat.synthRef s = Some [u] ->
        Chat.isSpeaking s = true ->
        exists s' s'',
          Platform.deliver Platform.UtteranceError s = Some s'
          /\ Chat.isSpeaking s' = true
          /\ Chat.synthRef s' = Some []
          /\ Platform.deliver (Platform.Ui Chat.UtteranceEnd) s' = None
          /\ Platform.deliver (Platform.Ui Chat.SpeakerClick) s' = Some s''
          /\ Chat.isSpeaking s'' = false
          /\ Chat.synthRef s'' = Some []
          /\ Chat.messages s'' = Chat.messages s).
Proof.
  split; [|split; [|split]].
  - intros s (w & events & Hrun).
    refine (Platform_run_invariant
              (fun s => Chat.hasSpeechSynthesis (Chat.window s) = false ->
                        Chat.synthRef s = None /\ Chat.isSpeaking s = false)
              _ events _ _ _ Hrun).
    + intros pe s0 s1 Hinv D SS.
      rewrite (Platform_window_fixed pe s0 s1 D) in SS.
      destruct (Hinv SS) as (Hs & Sp).
      destruct (Platform_synth_none_stays pe s0 s1 D Hs) as (Hs1 & Sp1).
      split; [exact Hs1|]. rewrite Sp1. exact Sp.
    + cbn. intros ->. split; reflexivity.
  - intros pe s s' D Sp Sp'.
    destruct (Platform_flag_step pe s s' D) as [H|[(_ & H)|(H & _)]].
    + congruence.
    + exact H.
    + congruence.
  - intros pe s s' D Sp Sp'.
    destruct (Platform_flag_step pe s s' D) as [H|[(H & _)|(_ & H)]].
    + congruence.
    + congruence.
    + exact H.
  - intros s u Hs Sp.
    exists (Chat.with_synthRef (fun _ => Some []) s).
    exists (Chat.with_isSpeaking (fun _ => false)
              (Chat.with_synthRef (option_map Chat.synth_cancel)
                 (Chat.with_synthRef (fun _ => Some []) s))).
    split; [cbn; rewrite Hs; reflexivity|]. split; [exact Sp|].
    split; [reflexivity|].
    split; [cbn [Platform.deliver Chat.dispatch];
            rewrite Chat_utterance_end_eq; reflexivity|].
    split; [|split; [reflexivity|split; reflexivity]].
    cbn [Platform.deliver Chat.dispatch]. rewrite Chat_speaker_eq.
    cbn [Chat.isSpeaking Chat.with_synthRef Chat.synthRef]. rewrite Sp.
    reflexivity.
Qed.

Lemma speaking_flag_rises_with_an_utterance_witness :
  Chat.synthRef
    (Chat.exec Chat.speakerClick
       (Chat.init {| Chat.API_KEY := js "key"; Chat.hasSpeechRecognition := true;
                     Chat.hasSpeechSynthesis := false |}))
  = None
  /\ Chat.isSpeaking
       (Chat.exec Chat.speakerClick
          (Chat.init {| Chat.API_KEY := js "key"; Chat.hasSpeechRecognition := true;
                        Chat.hasSpeechSynthesis := false |}))
     = false.
Proof.
  assert (Hreach : Platform.reachable
            (Chat.exec Chat.speakerClick
               (Chat.init {| Chat.API_KEY := js "key";
                             Chat.hasSpeechRecognition := true;
                             Chat.hasSpeechSynthesis := false |}))).
  { exists {| Chat.API_KEY := js "key"; Chat.hasSpeechRecognition := true;
              Chat.hasSpeechSynthesis := false |},
           [Platform.Ui Chat.SpeakerClick].
    vm_compute. reflexivity. }
  exact (proj1 speaking_flag_rises_with_an_utterance _ Hreach eq_refl).
Defined.
